(** * sifas_card_downloader: a shallow embedding of the item model, the
    HTML parsers and the downloader, with the properties of the
    crawl-and-reconcile pipeline.

    Layout: Python values and exceptions, the string and regular-expression
    primitives the code calls, a model of [pathlib.PurePosixPath], a model of
    the [bs4] document tree, then [classes.py], [html_parser.py] and
    [downloader.py]; after the model, the vocabulary of the statements and
    the sample data, and last the lemmas and theorems.

    Conventions of the model:
    - a Python [str] is modelled by its UTF-8 encoding, a string of
      bytes; the patterns, separators and markers of the code are ASCII,
      so searching, splitting and replacing act on the encoding as they
      do on the text, and [str.strip] is written out for the encoded
      whitespace characters;
    - an [int] is an integer; [int(str)] refuses a string of more than
      4300 digits, as Python does by default, and [str(int)] is modelled
      on the integers that this limit lets the code read;
    - paths are POSIX paths, with the [suffix] of Python up to 3.13;
    - a page is taken as [bs4] has parsed it: the remote site is a function
      from addresses to documents (or to the exception of the request);
    - the site answers at once: awaiting a request does not suspend the
      task, so the tasks handed to [asyncio.gather] run one after
      another, in the order in which they were created, each of them to
      its end; when some of them raise, the exception of the first one
      comes out of [gather] after every task has run;
    - an object that the code changes in place is returned with the
      result of the call, also when the call raises. *)

From Stdlib Require Import ZArith String Ascii List Bool Lia.
From Stdlib Require Import Permutation Sorted DecimalString.
From Stdlib Require Import DecimalPos DecimalZ.
Import ListNotations.

Local Open Scope list_scope.
Local Open Scope string_scope.

(* ===================================================================== *)
(** ** Python values, exceptions and the error monad *)
(* ===================================================================== *)

Module Py.

(** The exceptions that the modelled code raises or lets through.
    [ValueError] is what [int] raises on a string with too many digits,
    [ClientError] stands for what [aiohttp] raises on a failed request,
    [OSError] for what [open] and the catalogue store raise. *)
Inductive exn : Type :=
| TypeError
| IndexError
| ValueError
| ListParsingException
| ItemParsingException
| NoHTTPSessionException
| ClientError (msg : string)
| OSError (msg : string).

Inductive result (A : Type) : Type :=
| Ok (a : A)
| Raise (e : exn).
Arguments Ok {A} a.
Arguments Raise {A} e.

Definition bind {A B} (r : result A) (k : A -> result B) : result B :=
  match r with
  | Ok a => k a
  | Raise e => Raise e
  end.

(** What [Tag.get(name)] returns for a single-valued attribute such as
    [href]: the attribute's text, or [None] when the tag does not carry
    it.  [isinstance(v, str)] holds for [PStr] only. *)
Inductive str_or_none : Type :=
| PStr (s : string)
| PNone.

Definition str_or_none_eqb (a b : str_or_none) : bool :=
  match a, b with
  | PStr s, PStr t => String.eqb s t
  | PNone, PNone => true
  | _, _ => false
  end.

(** [str(e)], as the f-string in [get_images] prints it. *)
Definition exn_message (e : exn) : string :=
  match e with
  | ClientError m => m
  | OSError m => m
  | _ => ""
  end.

End Py.
Import Py.

Declare Scope py_scope.
Delimit Scope py_scope with py.
Notation "x <- c ;; k" := (Py.bind c (fun x => k))
  (at level 61, c at next level, right associativity) : py_scope.
Local Open Scope py_scope.

(* ===================================================================== *)
(** ** Strings: [str(int)], [int(str)], [str.replace], [str.split],
       and the three regular expressions of the code *)
(* ===================================================================== *)

Module PyStr.

(** [f"{n}"] for an [int]. *)
Definition str_of_int (n : Z) : string :=
  NilZero.string_of_int (Z.to_int n).

Definition is_digit (c : ascii) : bool :=
  let n := nat_of_ascii c in (48 <=? n)%nat && (n <=? 57)%nat.

(** The number that a string of ASCII digits denotes. *)
Fixpoint int_of_digits_acc (acc : Z) (s : string) : Z :=
  match s with
  | EmptyString => acc
  | String c s' =>
      int_of_digits_acc (10 * acc + Z.of_nat (nat_of_ascii c - 48)) s'
  end.

Definition int_of_digits (s : string) : Z := int_of_digits_acc 0 s.

(** [sys.int_max_str_digits], at its default. *)
Definition int_max_str_digits : nat := 4300.

(** [int(s)] on a string of ASCII digits (the only way the code calls
    it: on group 1 of a match of [[0-9]+]): the number it denotes,
    unless it has more digits than the limit, leading zeros counted;
    then [int] raises [ValueError]. *)
Definition int (s : string) : result Z :=
  if (String.length s <=? int_max_str_digits)%nat
  then Ok (int_of_digits s)
  else Raise ValueError.

(** [re.compile(lit).search(s) is not None] for a pattern without
    metacharacters: the pattern occurs at some offset of [s]. *)
Fixpoint search_literal (lit s : string) : bool :=
  prefix lit s ||
  match s with
  | EmptyString => false
  | String _ s' => search_literal lit s'
  end.

(** The longest run of digits at the head of [s], and what follows. *)
Fixpoint span_digits (s : string) : string * string :=
  match s with
  | EmptyString => (EmptyString, EmptyString)
  | String c s' =>
      if is_digit c
      then let (d, r) := span_digits s' in (String c d, r)
      else (EmptyString, s)
  end.

(** [re.compile(r"/([0-9]+)/").search(s)]: group 1 of the leftmost
    match, if any.  At an offset holding a slash the greedy [[0-9]+]
    takes the whole run of digits; giving digits back cannot help,
    since the character after a shorter run is a digit and not a slash. *)
Fixpoint search_slash_digits (s : string) : option string :=
  match s with
  | EmptyString => None
  | String c s' =>
      if Ascii.eqb c "/"
      then match span_digits s' with
           | (String d ds, String c' _) =>
               if Ascii.eqb c' "/" then Some (String d ds)
               else search_slash_digits s'
           | _ => search_slash_digits s'
           end
      else search_slash_digits s'
  end.

(** [re.compile(r"=([0-9]+)").search(s)]: group 1 of the leftmost
    match, if any. *)
Fixpoint search_eq_digits (s : string) : option string :=
  match s with
  | EmptyString => None
  | String c s' =>
      if Ascii.eqb c "="
      then match span_digits s' with
           | (String d ds, _) => Some (String d ds)
           | _ => search_eq_digits s'
           end
      else search_eq_digits s'
  end.

(** [s.replace(old, new)] for a non-empty [old]: the occurrences of
    [old] are replaced from the left, without overlap.  [skip] counts
    the characters of a matched occurrence still to be dropped. *)
Fixpoint replace_from (old new : string) (skip : nat) (s : string) : string :=
  match s with
  | EmptyString => EmptyString
  | String c s' =>
      match skip with
      | S k => replace_from old new k s'
      | O =>
          if prefix old s
          then new ++ replace_from old new (String.length old - 1) s'
          else String c (replace_from old new 0 s')
      end
  end.

(** With an empty [old] Python puts [new] before every character and at
    the end. *)
Fixpoint intersperse (new s : string) : string :=
  match s with
  | EmptyString => new
  | String c s' => new ++ String c (intersperse new s')
  end.

Definition replace (old new s : string) : string :=
  match old with
  | EmptyString => intersperse new s
  | _ => replace_from old new 0 s
  end.

(** [s.split(sep)] for a one-character separator; [cur] holds the
    field being read. *)
Fixpoint split_acc (sep : ascii) (cur : string) (s : string) : list string :=
  match s with
  | EmptyString => [cur]
  | String c s' =>
      if Ascii.eqb c sep
      then cur :: split_acc sep EmptyString s'
      else split_acc sep (cur ++ String c EmptyString) s'
  end.

Definition split (sep : ascii) (s : string) : list string :=
  split_acc sep EmptyString s.

(** [s.rfind(".")], [None] for -1. *)
Fixpoint rfind_dot (s : string) : option nat :=
  match s with
  | EmptyString => None
  | String c s' =>
      match rfind_dot s' with
      | Some i => Some (S i)
      | None => if Ascii.eqb c "." then Some 0%nat else None
      end
  end.

(** [s[i:]]. *)
Fixpoint drop (i : nat) (s : string) : string :=
  match i, s with
  | O, _ => s
  | S k, String _ s' => drop k s'
  | S _, EmptyString => EmptyString
  end.

(** [s.partition(sep)[0]]: what precedes the first occurrence of [sep],
    the whole string when there is none. *)
Fixpoint partition_head (sep s : string) : string :=
  if prefix sep s then EmptyString
  else match s with
       | EmptyString => EmptyString
       | String c s' => String c (partition_head sep s')
       end.

(** The characters that [str.strip()] removes are those that
    [str.isspace] accepts.  In the encoding they take one byte
    (U+0009 to U+000D, U+001C to U+0020), two bytes (U+0085 and U+00A0:
    C2 85, C2 A0) or three bytes (U+1680: E1 9A 80; U+2000 to U+200A,
    U+2028, U+2029, U+202F: E2 80 followed by 80 to 8A, A8, A9, AF;
    U+205F: E2 81 9F; U+3000: E3 80 80). *)
Definition is_space1 (a : ascii) : bool :=
  let n := nat_of_ascii a in
  ((9 <=? n)%nat && (n <=? 13)%nat) || ((28 <=? n)%nat && (n <=? 32)%nat).

Definition is_space2 (a b : ascii) : bool :=
  (nat_of_ascii a =? 194)%nat
  && ((nat_of_ascii b =? 133)%nat || (nat_of_ascii b =? 160)%nat).

Definition is_space3 (a b c : ascii) : bool :=
  let x := nat_of_ascii a in
  let y := nat_of_ascii b in
  let z := nat_of_ascii c in
  ((x =? 225) && (y =? 154) && (z =? 128))%nat
  || ((x =? 226) && (y =? 128)
      && (((128 <=? z) && (z <=? 138)) || (z =? 168) || (z =? 169)
          || (z =? 175)))%nat
  || ((x =? 226) && (y =? 129) && (z =? 159))%nat
  || ((x =? 227) && (y =? 128) && (z =? 128))%nat.

(** The number of bytes of the whitespace character at the head of
    [s], 0 when [s] does not begin with one. *)
Definition space_width (s : string) : nat :=
  match s with
  | String a s1 =>
      if is_space1 a then 1
      else match s1 with
           | String b s2 =>
               if is_space2 a b then 2
               else match s2 with
                    | String c _ => if is_space3 a b c then 3 else 0
                    | EmptyString => 0
                    end
           | EmptyString => 0
           end
  | EmptyString => 0
  end.

(** [s.lstrip()] *)
Fixpoint lstrip (s : string) : string :=
  match s with
  | String a s1 =>
      if is_space1 a then lstrip s1
      else match s1 with
           | String b s2 =>
               if is_space2 a b then lstrip s2
               else match s2 with
                    | String c s3 => if is_space3 a b c then lstrip s3 else s
                    | EmptyString => s
                    end
           | EmptyString => s
           end
  | EmptyString => EmptyString
  end.

(** [s] consists of whitespace characters only. *)
Definition is_blank (s : string) : bool :=
  match lstrip s with
  | EmptyString => true
  | String _ _ => false
  end.

(** [s.rstrip()]: [s] is cut where what follows is whitespace to the
    end. *)
Fixpoint rstrip (s : string) : string :=
  match s with
  | EmptyString => EmptyString
  | String c s' => if is_blank s then EmptyString else String c (rstrip s')
  end.

(** [s.strip()] *)
Definition strip (s : string) : string := rstrip (lstrip s).

(** [sorted(nums, reverse=True)] on integers. *)
Fixpoint insert_desc (x : Z) (l : list Z) : list Z :=
  match l with
  | [] => [x]
  | y :: l' => if (y <=? x)%Z then x :: l else y :: insert_desc x l'
  end.

Definition sorted_reverse (l : list Z) : list Z :=
  fold_right insert_desc [] l.

(** [s.lstrip("/")] only matters through the number of slashes it
    removes. *)
Fixpoint leading_slashes (s : string) : nat :=
  match s with
  | String c s' => if Ascii.eqb c "/" then S (leading_slashes s') else O
  | EmptyString => O
  end.

End PyStr.

(* ===================================================================== *)
(** ** [pathlib]: pure POSIX paths *)
(* ===================================================================== *)

Module Pathlib.

(** A parsed path: the root (empty, one slash or two slashes) and the
    components after it. *)
Record Path : Type := mkPath { root : string; parts : list string }.

Definition keep_part (x : string) : bool :=
  negb (String.eqb x "") && negb (String.eqb x ".").

(** [Path(s)]: [splitroot], then the components that are neither empty
    nor a single dot. *)
Definition parse (s : string) : Path :=
  let n := PyStr.leading_slashes s in
  let r := match n with
           | O => ""
           | 2%nat => "//"
           | _ => "/"
           end in
  mkPath r (filter keep_part (PyStr.split "/" (PyStr.drop n s))).

(** [p / s]: an anchored right operand replaces the left one. *)
Definition joinpath (p : Path) (s : string) : Path :=
  let q := parse s in
  if String.eqb (root q) "" then mkPath (root p) (parts p ++ parts q)%list
  else q.

(** [p.name]: the last component, empty when there is none. *)
Definition name (p : Path) : string := last (parts p) "".

(** [p.suffix]: the last dot of the name and what follows it, unless
    the dot is the first or the last character. *)
Definition suffix (p : Path) : string :=
  let n := name p in
  match PyStr.rfind_dot n with
  | Some i =>
      if (0 <? i)%nat && (i <? String.length n - 1)%nat
      then PyStr.drop i n else ""
  | None => ""
  end.

Definition eqb (p q : Path) : bool :=
  String.eqb (root p) (root q) &&
  (if list_eq_dec string_dec (parts p) (parts q) then true else false).

End Pathlib.

(* ===================================================================== *)
(** ** [bs4]: the parsed document *)
(* ===================================================================== *)

Module Bs4.

(** A node of the tree that [BeautifulSoup(html, features="lxml")]
    builds: a tag with its name, the values of its [class] attribute
    (the one multi-valued attribute the code looks at), its other
    attributes and its children, or a piece of text.  The soup itself is
    the root tag. *)
#[warnings="-register-all"]
Inductive node : Type :=
| Tag (name : string) (classes : list string)
      (attrs : list (string * string)) (children : list node)
| NavigableString (text : string).

Definition soup : Type := node.

(** The tags and texts below a node, in document order. *)
Fixpoint descendants (n : node) : list node :=
  match n with
  | Tag _ _ _ cs => flat_map (fun c => c :: descendants c) cs
  | NavigableString _ => []
  end.

Definition has_class (cls : string) (n : node) : bool :=
  match n with
  | Tag _ classes _ _ => existsb (String.eqb cls) classes
  | NavigableString _ => false
  end.

Definition has_name (nm : string) (n : node) : bool :=
  match n with
  | Tag name _ _ _ => String.eqb nm name
  | NavigableString _ => false
  end.

Fixpoint assoc (k : string) (l : list (string * string)) : option string :=
  match l with
  | [] => None
  | (k', v) :: l' => if String.eqb k k' then Some v else assoc k l'
  end.

(** [tag.get(k)] for a single-valued attribute. *)
Definition get (k : string) (n : node) : str_or_none :=
  match n with
  | Tag _ _ attrs _ =>
      match assoc k attrs with
      | Some v => PStr v
      | None => PNone
      end
  | NavigableString _ => PNone
  end.

Definition has_attr (k v : string) (n : node) : bool :=
  str_or_none_eqb (get k n) (PStr v).

(** [n.find_all(class_=cls)] and [n.find(class_=cls)]. *)
Definition find_all_class (cls : string) (n : node) : list node :=
  filter (has_class cls) (descendants n).

Definition find_class (cls : string) (n : node) : option node :=
  hd_error (find_all_class cls n).

(** [n.find_all(nm)] and [n.find(nm)]. *)
Definition find_all_name (nm : string) (n : node) : list node :=
  filter (has_name nm) (descendants n).

Definition find_name (nm : string) (n : node) : option node :=
  hd_error (find_all_name nm n).

(** [n.find(attrs={k: v})]. *)
Definition find_attr (k v : string) (n : node) : option node :=
  hd_error (filter (has_attr k v) (descendants n)).

(** [n.get_text()]: the texts below the node, concatenated. *)
Fixpoint get_text (n : node) : string :=
  match n with
  | Tag _ _ _ cs => fold_right (fun c acc => get_text c ++ acc) "" cs
  | NavigableString t => t
  end.

End Bs4.

(* ===================================================================== *)
(** ** [consts]: the constants of the missing module, as parameters *)
(* ===================================================================== *)

Class Consts : Type := {
  CARD_RESULTS_DIR : string;
  STILL_RESULTS_DIR : string;
  CARD_URL_TEMPLATE : string;
  STILL_URL_TEMPLATE : string;
  CARDS_LIST_URL_TEMPLATE : string;
  STILLS_LIST_URL_TEMPLATE : string
}.

(* ===================================================================== *)
(** ** [classes.py] *)
(* ===================================================================== *)

Module Card.

(** The dataclass [Card].  Its only constructor call, in
    [CardParser.create_item], passes strings for every field. *)
Record t : Type := mk {
  key : Z;
  idol : string;
  rarity : string;
  attribute : string;
  unit : string;
  subunit : string;
  year : string;
  normal_url : string;
  idolized_url : string
}.

Definition is_double_sized (self : t) : bool :=
  PyStr.search_literal "/2x/" (normal_url self).

Definition get_urls (self : t) : list string :=
  [normal_url self; idolized_url self].

Definition set_url (self : t) (i : nat) (url : string) : t :=
  match i with
  | O => mk (key self) (idol self) (rarity self) (attribute self)
            (unit self) (subunit self) (year self) url (idolized_url self)
  | S _ => mk (key self) (idol self) (rarity self) (attribute self)
              (unit self) (subunit self) (year self) (normal_url self) url
  end.

Definition needs_update (self : t) : bool :=
  negb (is_double_sized self) && negb (String.eqb (rarity self) "Rare").

Section WithConsts.
Context {consts : Consts}.

Definition get_folder : string := CARD_RESULTS_DIR.

Definition file_name (self : t) : string :=
  PyStr.str_of_int (key self) ++ "_" ++ unit self ++ "_" ++ idol self.

Definition normal_path (self : t) : string :=
  file_name self ++ "_Normal"
    ++ Pathlib.suffix (Pathlib.parse (normal_url self)).

Definition idolized_path (self : t) : string :=
  PyStr.replace "Normal" "Idolized" (normal_path self).

Definition get_paths (self : t) (path : Pathlib.Path) : list Pathlib.Path :=
  let base_path := Pathlib.joinpath path CARD_RESULTS_DIR in
  [Pathlib.joinpath base_path (normal_path self);
   Pathlib.joinpath base_path (idolized_path self)].
End WithConsts.

End Card.

Module Still.

(** The dataclass [Still].  The annotation of [url] is [str], but the
    only constructor call, in [StillParser.create_item], passes what
    [Tag.get("href")] returned, unchecked: a string or [None]. *)
Record t : Type := mk {
  key : Z;
  url : str_or_none
}.

(** [Pattern.search(None)] raises [TypeError]. *)
Definition is_double_sized (self : t) : result bool :=
  match url self with
  | PStr s => Ok (PyStr.search_literal "/2x/" s)
  | PNone => Raise TypeError
  end.

Definition get_urls (self : t) : list str_or_none := [url self].

Definition set_url (self : t) (_ : nat) (u : str_or_none) : t :=
  mk (key self) u.

Definition needs_update (self : t) : result bool :=
  b <- is_double_sized self ;; Ok (negb b).

Section WithConsts.
Context {consts : Consts}.

Definition get_folder : string := STILL_RESULTS_DIR.

Definition file_name (self : t) : string :=
  PyStr.str_of_int (key self) ++ "_Still".

(** [Path(None)] raises [TypeError]. *)
Definition get_paths (self : t) (path : Pathlib.Path)
  : result (list Pathlib.Path) :=
  let base_path := Pathlib.joinpath path STILL_RESULTS_DIR in
  match url self with
  | PStr s =>
      Ok [Pathlib.joinpath base_path
            (file_name self ++ Pathlib.suffix (Pathlib.parse s))]
  | PNone => Raise TypeError
  end.
End WithConsts.

End Still.

(* ===================================================================== *)
(** ** [html_parser.py] *)
(* ===================================================================== *)

Module Parser.

(** The fields of the base class [Parser]: whether a session was set,
    and the soup of the last page fetched by [get_item]. *)
Record t : Type := mk { session : bool; soup : option Bs4.soup }.

Definition init : t := mk false None.

Definition set_session (self : t) : t := mk true (soup self).

Section WithRemote.
(** The remote site: what [session.get(url)] followed by
    [BeautifulSoup(text, features="lxml")] yields for an address, or
    the exception the request raises. *)
Variable http_get : string -> result Bs4.soup.

Definition get_html (self : t) (url : string) : result Bs4.soup :=
  if session self then http_get url else Raise NoHTTPSessionException.

Definition soup_page (get_url : Z -> string) (self : t) (num : Z)
  : result Bs4.soup :=
  get_html self (get_url num).

(** [get_item]: the soup is stored in [self], then [create_item] reads
    it; the parser is returned with the result since the assignment
    survives an exception of [create_item]. *)
Definition get_item {Item : Type} (get_url : Z -> string)
    (create_item : option Bs4.soup -> Z -> result (Z * Item))
    (self : t) (num : Z) : t * result (Z * Item) :=
  match soup_page get_url self num with
  | Ok page =>
      let self' := mk (session self) (Some page) in
      (self', create_item (soup self') num)
  | Raise e => (self, Raise e)
  end.
End WithRemote.

End Parser.

Module ListParser.

Definition get_url (template : string) (num : Z) : string :=
  template ++ PyStr.str_of_int num.

(** The body of the loop of [get_page] for one item container: the key
    to append, if its first anchor has a string [href] matching the
    pattern; [int] may raise. *)
Definition item_key (item : Bs4.node) : result (option Z) :=
  match Bs4.find_name "a" item with
  | Some found =>
      match Bs4.get "href" found with
      | PStr string =>
          match PyStr.search_slash_digits string with
          | Some group => n <- PyStr.int group ;; Ok (Some n)
          | None => Ok None
          end
      | PNone => Ok None
      end
  | None => Ok None
  end.

(** The loop of [get_page]: [nums] when the loop ends, or the exception
    of the first container at which [int] raises. *)
Fixpoint collect_keys (items : list Bs4.node) : result (list Z) :=
  match items with
  | [] => Ok []
  | item :: items' =>
      k <- item_key item ;;
      nums <- collect_keys items' ;;
      Ok (match k with
          | Some n => n :: nums
          | None => nums
          end)
  end.

(** [get_page] once the page has been fetched. *)
Definition parse_page (page : Bs4.soup) : result (list Z) :=
  let items := Bs4.find_all_class "top-item" page in
  nums <- collect_keys items ;;
  match nums with
  | [] => Raise ListParsingException
  | _ => Ok (PyStr.sorted_reverse nums)
  end.

(** [links[-2]]. *)
Definition nth_from_end_2 {A} (l : list A) : option A :=
  match rev l with
  | _ :: x :: _ => Some x
  | _ => None
  end.

(** [get_num_pages] once page 1 has been fetched. *)
Definition parse_num_pages (page : Bs4.soup) : result Z :=
  match Bs4.find_class "pagination" page with
  | Some item =>
      match Bs4.find_all_name "a" item with
      | [] => Raise ListParsingException
      | links =>
          match nth_from_end_2 links with
          | None => Raise IndexError
          | Some link =>
              match Bs4.get "href" link with
              | PStr string =>
                  match PyStr.search_eq_digits string with
                  | Some group => PyStr.int group
                  | None => Raise ListParsingException
                  end
              | PNone => Raise ListParsingException
              end
          end
      end
  | None => Raise ListParsingException
  end.

Section WithRemote.
Variable http_get : string -> result Bs4.soup.
Variable template : string.

Definition get_page (self : Parser.t) (num : Z) : result (list Z) :=
  page <- Parser.soup_page http_get (get_url template) self num ;;
  parse_page page.

Definition get_num_pages (self : Parser.t) : result Z :=
  page <- Parser.soup_page http_get (get_url template) self 1%Z ;;
  parse_num_pages page.
End WithRemote.

End ListParser.

Module CardParser.

Definition get_url {consts : Consts} (num : Z) : string :=
  CARD_URL_TEMPLATE ++ PyStr.str_of_int num.

Definition get_item_image_urls (soup : option Bs4.soup)
  : result (string * string) :=
  match soup with
  | Some page =>
      match Bs4.find_class "top-item" page with
      | Some top_item =>
          match Bs4.find_all_name "a" top_item with
          | [] => Raise ItemParsingException
          | link0 :: rest =>
              match Bs4.get "href" link0 with
              | PStr first =>
                  match rest with
                  | [] => Raise IndexError
                  | link1 :: _ =>
                      match Bs4.get "href" link1 with
                      | PStr second => Ok (first, second)
                      | PNone => Raise ItemParsingException
                      end
                  end
              | PNone => Raise ItemParsingException
              end
          end
      | None => Raise ItemParsingException
      end
  | None => Raise ItemParsingException
  end.

Definition get_data_field (soup : option Bs4.soup) (field : string)
  : result Bs4.node :=
  match soup with
  | Some page =>
      match Bs4.find_attr "data-field" field page with
      | Some data =>
          match Bs4.find_all_name "td" data with
          | _ :: res :: _ => Ok res
          | _ => Raise IndexError
          end
      | None => Raise ItemParsingException
      end
  | None => Raise ItemParsingException
  end.

Definition plain_info (soup : option Bs4.soup) (info : string)
  : result string :=
  data <- get_data_field soup info ;;
  Ok (PyStr.strip (Bs4.get_text data)).

Definition get_item_info (soup : option Bs4.soup) (info : string)
  : result string :=
  if String.eqb info "idol" then
    data <- get_data_field soup "idol" ;;
    match Bs4.find_name "span" data with
    | Some found_data =>
        Ok (PyStr.strip
              (PyStr.partition_head "Open idol" (Bs4.get_text found_data)))
    | None => plain_info soup info
    end
  else plain_info soup info.

Definition create_item (soup : option Bs4.soup) (num : Z)
  : result (Z * Card.t) :=
  urls <- get_item_image_urls soup ;;
  idol <- get_item_info soup "idol" ;;
  rarity <- get_item_info soup "rarity" ;;
  attr <- get_item_info soup "attribute" ;;
  unit <- get_item_info soup "i_unit" ;;
  sub <- get_item_info soup "i_subunit" ;;
  year <- get_item_info soup "i_year" ;;
  Ok (num, Card.mk num idol rarity attr unit sub year (fst urls) (snd urls)).

End CardParser.

Module StillParser.

Definition get_url {consts : Consts} (num : Z) : string :=
  STILL_URL_TEMPLATE ++ PyStr.str_of_int num.

Definition get_item_image_url (soup : option Bs4.soup) : result str_or_none :=
  match soup with
  | Some page =>
      match Bs4.find_class "top-item" page with
      | Some top_item =>
          match Bs4.find_all_name "a" top_item with
          | [] => Raise ItemParsingException
          | link0 :: _ => Ok (Bs4.get "href" link0)
          end
      | None => Raise ItemParsingException
      end
  | None => Raise ItemParsingException
  end.

Definition create_item (soup : option Bs4.soup) (num : Z)
  : result (Z * Still.t) :=
  url <- get_item_image_url soup ;;
  Ok (num, Still.mk num url).

End StillParser.

(* ===================================================================== *)
(** ** The interface that [downloader.py] uses of an item class *)
(* ===================================================================== *)

(** [Downloader(path, img_type)] is handed the class [Card] or the class
    [Still]; its items are those that the class's parser builds.  [Url] is
    what a URL slot of such an item holds.  The list parser that
    [__init__] asks the class for is [html_parser.ListParser] on the
    class's list template. *)
Class ImgType (T : Type) : Type := {
  Url : Type;
  url_eqb : Url -> Url -> bool;
  (** [f"{url}"] *)
  url_format : Url -> string;
  key : T -> Z;
  get_urls : T -> list Url;
  set_url : T -> nat -> Url -> T;
  needs_update : T -> result bool;
  get_paths : T -> Pathlib.Path -> result (list Pathlib.Path);
  (** [type(item) is Card] *)
  is_Card : bool;
  get_folder : string;
  get_list_template : string;
  (** [get_parser()]: the address of a detail page and [create_item] *)
  parser_get_url : Z -> string;
  parser_create_item : option Bs4.soup -> Z -> result (Z * T)
}.

#[export] Instance Card_ImgType {consts : Consts} : ImgType Card.t := {
  Url := string;
  url_eqb := String.eqb;
  url_format := fun u => u;
  key := Card.key;
  get_urls := Card.get_urls;
  set_url := Card.set_url;
  needs_update := fun c => Ok (Card.needs_update c);
  get_paths := fun c p => Ok (Card.get_paths c p);
  is_Card := true;
  get_folder := Card.get_folder;
  get_list_template := CARDS_LIST_URL_TEMPLATE;
  parser_get_url := CardParser.get_url;
  parser_create_item := CardParser.create_item
}.

#[export] Instance Still_ImgType {consts : Consts} : ImgType Still.t := {
  Url := str_or_none;
  url_eqb := str_or_none_eqb;
  url_format := fun u => match u with PStr s => s | PNone => "None" end;
  key := Still.key;
  get_urls := Still.get_urls;
  set_url := Still.set_url;
  needs_update := Still.needs_update;
  get_paths := Still.get_paths;
  is_Card := false;
  get_folder := Still.get_folder;
  get_list_template := STILLS_LIST_URL_TEMPLATE;
  parser_get_url := StillParser.get_url;
  parser_create_item := StillParser.create_item
}.

(* ===================================================================== *)
(** ** [downloader.py] *)
(* ===================================================================== *)

Module Downloader.

Section WithImgType.
Context {T : Type} {img_type : ImgType T}.

(** The fields of a [Downloader] that change ([objs], the two parsers,
    [updateables]) and the part of the outside world it acts on: the
    asset files on disk, the log of the writes completed by
    [write_to_file], the addresses requested from the remote site, the
    lines printed and the catalogues handed to
    [json_utils.dump_to_file] (the four logs latest first). *)
Record state : Type := mkState {
  objs : list (Z * T);
  list_parser : Parser.t;
  item_parser : Parser.t;
  updateables : list Z;
  files : list (Pathlib.Path * string);
  written : list Pathlib.Path;
  requests : list string;
  out : list string;
  saved : list (list (Z * T))
}.

(** [Downloader.__init__] on a disk holding [fs]. *)
Definition init (fs : list (Pathlib.Path * string)) : state :=
  mkState [] Parser.init Parser.init [] fs [] [] [] [].

Definition set_objs (o : list (Z * T)) (s : state) : state :=
  mkState o (list_parser s) (item_parser s) (updateables s)
          (files s) (written s) (requests s) (out s) (saved s).
Definition set_list_parser (p : Parser.t) (s : state) : state :=
  mkState (objs s) p (item_parser s) (updateables s)
          (files s) (written s) (requests s) (out s) (saved s).
Definition set_item_parser (p : Parser.t) (s : state) : state :=
  mkState (objs s) (list_parser s) p (updateables s)
          (files s) (written s) (requests s) (out s) (saved s).
Definition set_updateables (u : list Z) (s : state) : state :=
  mkState (objs s) (list_parser s) (item_parser s) u
          (files s) (written s) (requests s) (out s) (saved s).
Definition write_file (p : Pathlib.Path) (data : string) (s : state) : state :=
  mkState (objs s) (list_parser s) (item_parser s) (updateables s)
          ((p, data) :: files s) (p :: written s) (requests s) (out s)
          (saved s).
Definition request (url : string) (s : state) : state :=
  mkState (objs s) (list_parser s) (item_parser s) (updateables s)
          (files s) (written s) (url :: requests s) (out s) (saved s).
Definition print (line : string) (s : state) : state :=
  mkState (objs s) (list_parser s) (item_parser s) (updateables s)
          (files s) (written s) (requests s) (line :: out s) (saved s).
Definition dump (s : state) : state :=
  mkState (objs s) (list_parser s) (item_parser s) (updateables s)
          (files s) (written s) (requests s) (out s) (objs s :: saved s).

(** [Path(p).exists()] *)
Definition exists_ (p : Pathlib.Path) (s : state) : bool :=
  existsb (fun e => Pathlib.eqb (fst e) p) (files s).

(** [k in self.updateables] *)
Definition in_updateables (k : Z) (s : state) : bool :=
  existsb (Z.eqb k) (updateables s).

(** [k in self.objs] *)
Definition in_objs (k : Z) (s : state) : bool :=
  existsb (fun e => Z.eqb (fst e) k) (objs s).

(** [d[k] = v] on a dictionary that keeps insertion order. *)
Fixpoint dict_set (k : Z) (v : T) (d : list (Z * T)) : list (Z * T) :=
  match d with
  | [] => [(k, v)]
  | (k', v') :: d' =>
      if Z.eqb k' k then (k, v) :: d' else (k', v') :: dict_set k v d'
  end.

(** [dict(sorted(d.items(), reverse=True))]; the keys of a dictionary
    are distinct, so the order is that of the keys. *)
Fixpoint insert_item (e : Z * T) (d : list (Z * T)) : list (Z * T) :=
  match d with
  | [] => [e]
  | e' :: d' =>
      if (fst e' <=? fst e)%Z then e :: d else e' :: insert_item e d'
  end.

Definition sorted_items_reverse (d : list (Z * T)) : list (Z * T) :=
  fold_right insert_item [] d.

(** A step of the downloader: the state it leaves, and its result or
    the exception it raises. *)
Definition M (A : Type) : Type := state -> state * result A.

Definition ret {A} (a : A) : M A := fun s => (s, Ok a).
Definition bindM {A B} (m : M A) (k : A -> M B) : M B :=
  fun s => match m s with
           | (s', Ok a) => k a s'
           | (s', Raise e) => (s', Raise e)
           end.
Definition lift {A} (r : result A) : M A := fun s => (s, r).
Definition modify (f : state -> state) : M Datatypes.unit :=
  fun s => (f s, Ok tt).

Notation "x <~ c ;; k" := (bindM c (fun x => k))
  (at level 61, c at next level, right associativity).
Notation "c ;;; k" := (bindM c (fun _ => k))
  (at level 61, right associativity).

(** [try: m except Exception as e: h(e)] *)
Definition try_except {A} (m : M A) (h : exn -> M A) : M A :=
  fun s => match m s with
           | (s', Ok a) => (s', Ok a)
           | (s', Raise e) => h e s'
           end.

(** [await asyncio.gather(tasks, return_exceptions=False)]: every
    task is started and, the site answering at once, runs to its end
    before the next one starts; the results come in the order of the
    tasks.  When tasks raise, [gather] raises the exception of the
    first of them, after the others have run. *)
Fixpoint gather {A} (tasks : list (M A)) : M (list A) :=
  match tasks with
  | [] => ret []
  | task :: tasks' =>
      fun s =>
        match task s with
        | (s1, r) =>
            match gather tasks' s1 with
            | (s2, rs) => (s2, a <- r ;; l <- rs ;; Ok (a :: l))
            end
        end
  end.

(** [for x in l: await body(x)]: the first exception ends the loop. *)
Fixpoint for_each {A} (l : list A) (body : A -> M Datatypes.unit)
  : M Datatypes.unit :=
  match l with
  | [] => ret tt
  | x :: l' => body x ;;; for_each l' body
  end.

(** [l[i]] *)
Definition index {A} (l : list A) (i : nat) : result A :=
  match nth_error l i with
  | Some a => Ok a
  | None => Raise IndexError
  end.

Section WithWorld.
(** [self.path] *)
Variable path : Pathlib.Path.
(** The remote site: the parsed page behind an address, and the
    bytes that [session.get(address)] and [response.read()] give. *)
Variable http_get : string -> result Bs4.soup.
Variable http_read : string -> result string.
(** [open(dest, "wb")] *)
Variable open_wb : Pathlib.Path -> result Datatypes.unit.
(** The catalogue store: whether saving a catalogue returns, or the
    exception it raises. *)
Variable store_save : list (Z * T) -> result Datatypes.unit.

(** [f"https:{url}"] *)
Definition address (url : Url) : string := "https:" ++ url_format url.

Definition write_to_file (dest : Pathlib.Path) (url : Url)
  : M Datatypes.unit :=
  modify (request (address url)) ;;;
  response_data <~ lift (http_read (address url)) ;;
  lift (open_wb dest) ;;;
  modify (write_file dest response_data).

Definition downloaded_message (item : T) (i : nat) : string :=
  "Downloaded item " ++ PyStr.str_of_int (key item)
    ++ (if is_Card
        then ", " ++ (if Nat.eqb i 1 then "idolized" else "normal")
        else "")
    ++ ".".

Definition create_image_file (path' : Pathlib.Path) (item : T) (i : nat)
  : M Datatypes.unit :=
  fun s =>
    if negb (exists_ path' s) || in_updateables (key item) s
    then (url <~ lift (index (get_urls item) i) ;;
          write_to_file path' url ;;;
          modify (print (downloaded_message item i))) s
    else (s, Ok tt).

(** [for i, path in enumerate(paths)], counting from [i]. *)
Fixpoint download_images_from (i : nat) (paths : list Pathlib.Path)
    (item : T) : M Datatypes.unit :=
  match paths with
  | [] => ret tt
  | path' :: paths' =>
      create_image_file path' item i ;;;
      download_images_from (S i) paths' item
  end.

Definition download_images (paths : list Pathlib.Path) (item : T)
  : M Datatypes.unit :=
  download_images_from 0 paths item.

Definition failure_message (item : T) (e : exn) : string :=
  "Couldn't download card " ++ PyStr.str_of_int (key item) ++ ": "
    ++ exn_message e ++ ".".

Definition get_images (item : T) : M Datatypes.unit :=
  paths <~ lift (get_paths item path) ;;
  try_except (download_images paths item)
             (fun e => modify (print (failure_message item e))).

(** [download]: one task per entry of [self.objs]. *)
Definition download : M Datatypes.unit :=
  fun s =>
    (gather (map (fun e => get_images (snd e)) (objs s)) ;;; ret tt) s.

(** [self.item_parser.get_item(num)] inside a fresh session. *)
Definition item_parser_get_item (num : Z) : M (Z * T) :=
  fun s =>
    let p := Parser.set_session (item_parser s) in
    let s1 := request (parser_get_url num) (set_item_parser p s) in
    let (p', r) :=
      Parser.get_item http_get parser_get_url parser_create_item p num in
    (set_item_parser p' s1, r).

(** The loop at the end of [update_if_needed]:
    [for i in range(i, i + n): item.set_url(i, updated.get_urls()[i])]. *)
Fixpoint set_urls_from (updated : T) (n i : nat) (item : T)
  : T * result Datatypes.unit :=
  match n with
  | O => (item, Ok tt)
  | S n' =>
      match nth_error (get_urls updated) i with
      | Some u => set_urls_from updated n' (S i) (set_url item i u)
      | None => (item, Raise IndexError)
      end
  end.

(** [update_if_needed] changes the item in place: the item is
    returned as the call leaves it, whether it raises or not. *)
Definition update_if_needed (item : T) (s : state)
  : state * T * result Datatypes.unit :=
  match needs_update item with
  | Raise e => (s, item, Raise e)
  | Ok false => (s, item, Ok tt)
  | Ok true =>
      match item_parser_get_item (key item) s with
      | (s1, Raise e) => (s1, item, Raise e)
      | (s1, Ok (_, updated_item)) =>
          match index (get_urls item) 0, index (get_urls updated_item) 0 with
          | Ok old0, Ok new0 =>
              let s2 :=
                if negb (url_eqb old0 new0)
                then set_updateables (updateables s1 ++ [key item])%list s1
                else s1 in
              let (item', r) :=
                set_urls_from updated_item (List.length (get_urls item)) 0
                              item in
              (s2, item', r)
          | Raise e, _ => (s1, item, Raise e)
          | _, Raise e => (s1, item, Raise e)
          end
      end
  end.

Definition add_item_to_object_list (item : Z) : M Datatypes.unit :=
  r <~ item_parser_get_item item ;;
  modify (fun s => set_objs (dict_set (fst r) (snd r) (objs s)) s) ;;;
  modify (print ("Getting item " ++ PyStr.str_of_int (fst r) ++ ".")).

(** [self.list_parser.get_num_pages()] and [get_page(i)] inside the
    list session. *)
Definition list_parser_get_num_pages : M Z :=
  fun s =>
    let s1 := request (ListParser.get_url get_list_template 1%Z) s in
    (s1, ListParser.get_num_pages http_get get_list_template
           (list_parser s1)).

Definition list_parser_get_page (i : Z) : M (list Z) :=
  fun s =>
    let s1 := request (ListParser.get_url get_list_template i) s in
    (s1, ListParser.get_page http_get get_list_template
           (list_parser s1) i).

(** [asyncio.gather] of the tasks [get_page(i)]. *)
Definition gather_pages (nums : list Z) : M (list (list Z)) :=
  gather (map list_parser_get_page nums).

(** [range(1, n + 1)] *)
Definition range_from_1 (n : Z) : list Z :=
  map Z.of_nat (seq 1 (Z.to_nat n)).

(** The body of [for page in pages]: the tasks are chosen before any
    of them runs. *)
Definition fetch_new_items (page : list Z) : M Datatypes.unit :=
  fun s =>
    (gather (map add_item_to_object_list
               (filter (fun item => negb (in_objs item s)) page)) ;;;
     ret tt) s.

Definition get_cards_from_parser : M Datatypes.unit :=
  modify (fun s => set_list_parser (Parser.set_session (list_parser s)) s) ;;;
  n <~ list_parser_get_num_pages ;;
  pages <~ gather_pages (range_from_1 n) ;;
  modify (fun s => set_item_parser (Parser.set_session (item_parser s)) s) ;;;
  for_each pages fetch_new_items.

(** [for key, item in self.objs.items(): await
    self.update_if_needed(item)]: returns the entries as the loop
    leaves them. *)
Fixpoint update_items (items : list (Z * T)) (s : state)
  : state * list (Z * T) * result Datatypes.unit :=
  match items with
  | [] => (s, [], Ok tt)
  | (k, item) :: items' =>
      match update_if_needed item s with
      | (s1, item', Ok _) =>
          match update_items items' s1 with
          | (s2, rest, r) => (s2, (k, item') :: rest, r)
          end
      | (s1, item', Raise e) => (s1, (k, item') :: items', Raise e)
      end
  end.

Definition update_all : M Datatypes.unit :=
  fun s =>
    match update_items (objs s) s with
    | (s', objs', r) => (set_objs objs' s', r)
    end.

(** Modelled from the spec: [json_utils.to_json] and
    [json_utils.dump_to_file] are not among the sources.  The spec has
    the catalogue store, an external collaborator, save the mapping it
    is handed to durable storage, apart from the asset files, and does
    not say when a save fails.  The model logs the catalogue handed over
    in [saved] and takes the outcome of the call, return or exception,
    from the world. *)
Definition dump_to_file : M Datatypes.unit :=
  fun s => (dump s, store_save (objs s)).

Definition update_json_file : M Datatypes.unit :=
  modify (fun s => set_objs (sorted_items_reverse (objs s)) s) ;;;
  dump_to_file.

Definition update : M Datatypes.unit :=
  modify (print "Searching for new or missing items...") ;;;
  get_cards_from_parser ;;;
  modify (print "Checking if items can be updated to better resolution...") ;;;
  update_all ;;;
  update_json_file ;;;
  modify (print "Updated items database.").

End WithWorld.

End WithImgType.
Arguments state T : clear implicits.
Arguments M T : clear implicits.

End Downloader.


(* ===================================================================== *)
(** ** The vocabulary of the statements *)
(* ===================================================================== *)

(** [pat] occurs in [s] at some offset. *)
Definition occurs (pat s : string) : Prop :=
  exists pre post, s = pre ++ pat ++ post.

(** The words of the specification for a card, [top] being the top rarity
    tier: true unless the card is high-res and its rarity differs from
    [top]. *)
Definition claimed_card_needs_update (top : string) (c : Card.t) : bool :=
  negb (Card.is_double_sized c && negb (String.eqb (Card.rarity c) top)).

(** Every character of [s] satisfies [P]. *)
Fixpoint forall_chars (P : ascii -> bool) (s : string) : bool :=
  match s with
  | EmptyString => true
  | String c s' => P c && forall_chars P s'
  end.

(** [d] is a non-empty run of digits that stands between two slashes of
    [s], [pre] being what comes before the first of the two. *)
Definition between_slashes (s pre d post : string) : Prop :=
  s = pre ++ "/" ++ d ++ "/" ++ post /\
  d <> "" /\ forall_chars PyStr.is_digit d = true.

(** The identifier that a link bears: the first run of digits between
    slashes. *)
Definition link_identifier (href d : string) : Prop :=
  exists pre post,
    between_slashes href pre d post /\
    forall pre' d' post',
      between_slashes href pre' d' post' ->
      (String.length pre <= String.length pre')%nat.

(** The item container has an identifier-bearing link: its first anchor
    has an [href], and the [href] bears the identifier [d]. *)
Definition advertises (item : Bs4.node) (d : string) : Prop :=
  exists found href,
    Bs4.find_name "a" item = Some found /\
    Bs4.get "href" found = PStr href /\
    link_identifier href d.

(** The number that the decimal numeral [d] denotes. *)
Definition decimal_value (d : string) : option Z :=
  option_map Z.of_uint (NilEmpty.uint_of_string d).

(** The keys that the item containers advertise, in the order of the
    containers. *)
Inductive advertised_keys : list Bs4.node -> list Z -> Prop :=
| adv_nil : advertised_keys [] []
| adv_key (item : Bs4.node) (d : string) (k : Z)
          (items : list Bs4.node) (ks : list Z) :
    advertises item d -> decimal_value d = Some k ->
    advertised_keys items ks ->
    advertised_keys (item :: items) (k :: ks)
| adv_skip (item : Bs4.node) (items : list Bs4.node) (ks : list Z) :
    (forall d, ~ advertises item d) ->
    advertised_keys items ks ->
    advertised_keys (item :: items) ks.

(** The listing page carries none of the expected markers: no item
    container with an identifier-bearing link. *)
Definition markers_absent (page : Bs4.soup) : Prop :=
  forall item d, In item (Bs4.find_all_class "top-item" page) ->
                 ~ advertises item d.

(** No identifier on the page has more digits than [int] accepts. *)
Definition identifiers_fit (page : Bs4.soup) : Prop :=
  forall item d, In item (Bs4.find_all_class "top-item" page) ->
                 advertises item d ->
                 (String.length d <= PyStr.int_max_str_digits)%nat.

(** The characters of [str(n)]: digits and the minus sign. *)
Definition key_char (c : ascii) : bool :=
  PyStr.is_digit c || Ascii.eqb c "-".

Definition not_N (c : ascii) : bool := negb (Ascii.eqb c "N").

(** The vocabulary of the download phase and of [update]. *)
Module Spec.
Section Phases.
Context {T : Type} {img_type : ImgType T}.
Variable path : Pathlib.Path.
Variable http_read : string -> result string.
Variable open_wb : Pathlib.Path -> result Datatypes.unit.

(** Slot [i] of [item] can be fetched, giving [data], and [p] can be
    opened for writing. *)
Definition fetched (item : T) (i : nat) (p : Pathlib.Path) (data : string)
  : Prop :=
  exists u,
    nth_error (get_urls item) i = Some u /\
    http_read (Downloader.address u) = Ok data /\
    open_wb p = Ok tt.

(** Slot [i] of [item] can be fetched and [p] can be opened for writing. *)
Definition slot_succeeds (item : T) (i : nat) (p : Pathlib.Path) : Prop :=
  exists u data,
    nth_error (get_urls item) i = Some u /\
    http_read (Downloader.address u) = Ok data /\
    open_wb p = Ok tt.

(** The rule of the download phase: the file at [p] is due for [item]
    when the destination does not exist or the key is pending. *)
Definition due (p : Pathlib.Path) (item : T) (s : Downloader.state T)
  : Prop :=
  Downloader.exists_ p s = false \/
  Downloader.in_updateables (key item) s = true.

(** The pair of slot [i] does not end the pairs of [item]: its file is
    not due, or it can be fetched and written. *)
Definition goes_through (item : T) (i : nat) (p : Pathlib.Path)
    (s : Downloader.state T) : Prop :=
  ~ due p item s \/ slot_succeeds item i p.

(** The pair of slot [i] is reached in a pass that starts in [s]: the
    pairs before it go through. *)
Definition reached (item : T) (ps : list Pathlib.Path) (i : nat)
    (s : Downloader.state T) : Prop :=
  forall j q, (j < i)%nat -> nth_error ps j = Some q ->
              goes_through item j q s.

(** Between [s] and [s'] the files [new] were written, the latest
    first, and neither the catalogue nor the pending list moved. *)
Definition wrote (new : list (Pathlib.Path * string))
    (s s' : Downloader.state T) : Prop :=
  Downloader.files s' = (new ++ Downloader.files s)%list /\
  Downloader.written s' = (map fst new ++ Downloader.written s)%list /\
  Downloader.objs s' = Downloader.objs s /\
  Downloader.updateables s' = Downloader.updateables s.

(** The destinations of the entries [l], entry by entry. *)
Definition destinations (l : list (Z * T)) (pss : list (list Pathlib.Path))
  : Prop :=
  Forall2 (fun e ps => get_paths (snd e) path = Ok ps) l pss.

(** The download phase only adds files: catalogue and pending list stay,
    the files of [s] are still there in [s']. *)
Definition grows (s s' : Downloader.state T) : Prop :=
  Downloader.objs s' = Downloader.objs s /\
  Downloader.updateables s' = Downloader.updateables s /\
  exists l, Downloader.files s' = (l ++ Downloader.files s)%list.

(** The tasks of [download] for the entries [l]. *)
Definition download_tasks (l : list (Z * T))
  : list (Downloader.M T Datatypes.unit) :=
  map (fun e => Downloader.get_images path http_read open_wb (snd e)) l.

(** A step that hands nothing to [json_utils.dump_to_file]. *)
Definition keeps_saved {A} (m : Downloader.M T A) : Prop :=
  forall s, Downloader.saved (fst (m s)) = Downloader.saved s.

End Phases.
End Spec.

(* ===================================================================== *)
(** ** Sample items, pages and sites *)
(* ===================================================================== *)

(** The constants of [consts] for the examples. *)
Definition sample_consts : Consts := {|
  CARD_RESULTS_DIR := "cards";
  STILL_RESULTS_DIR := "stills";
  CARD_URL_TEMPLATE := "https://idol.st/ajax/allstars/card/";
  STILL_URL_TEMPLATE := "https://idol.st/ajax/allstars/still/";
  CARDS_LIST_URL_TEMPLATE := "https://idol.st/ajax/allstars/cards/?page=";
  STILLS_LIST_URL_TEMPLATE := "https://idol.st/ajax/allstars/stills/?page="
|}.

(** An anchor with its [href]. *)
Definition anchor (href : string) : Bs4.node :=
  Bs4.Tag "a" [] [("href", href)] [].

Definition sample_card_2x : Card.t :=
  Card.mk 12 "Honoka" "UR" "Smile" "Muse" "Printemps" "Second"
          "//i.idol.st/u/card/art/2x/12Honoka.png"
          "//i.idol.st/u/card/art/2x/12HonokaIdol.png".

Definition sample_still_2x : Still.t :=
  Still.mk 7 (PStr "//i.idol.st/u/still/2x/7.png").

Definition sample_card_low_res_rare : Card.t :=
  Card.mk 3 "Rin" "Rare" "Cool" "Muse" "lily white" "First"
          "//i.idol.st/u/card/art/3Rin.png"
          "//i.idol.st/u/card/art/3RinIdol.png".

Definition sample_still_low_res : Still.t :=
  Still.mk 7 (PStr "//i.idol.st/u/still/7.png").

(** A detail page whose first anchor carries no [href]. *)
Definition page_anchor_without_href : Bs4.soup :=
  Bs4.Tag "[document]" [] []
    [Bs4.Tag "html" [] []
       [Bs4.Tag "body" [] []
          [Bs4.Tag "div" ["top-item"] []
             [Bs4.Tag "a" [] [("name", "art")] [];
              Bs4.Tag "a" [] [("href", "//i.idol.st/u/still/7.png")] []]]]].

(** The detail page of a still whose asset is at [href], and a site that
    publishes still 7 in double size and nothing else. *)
Definition still_detail_page (href : string) : Bs4.soup :=
  Bs4.Tag "[document]" [] []
    [Bs4.Tag "div" ["top-item"] [] [anchor href]].

Definition sample_remote (url : string) : result Bs4.soup :=
  if String.eqb url "https://idol.st/ajax/allstars/still/7"
  then Ok (still_detail_page "//i.idol.st/u/still/2x/7.png")
  else Raise (ClientError "Not Found").

(** A listing page: three item containers with a link, one without. *)
Definition sample_list_page : Bs4.soup :=
  Bs4.Tag "[document]" [] []
    [Bs4.Tag "div" ["top-item"] [] [anchor "/allstars/still/12/Festival/"];
     Bs4.Tag "div" ["top-item"] [] [anchor "/allstars/still/40/Live/"];
     Bs4.Tag "div" ["top-item"] [] [Bs4.NavigableString "sold out"];
     Bs4.Tag "div" ["top-item"] [] [anchor "/allstars/still/7/Stage/"]].

(** A listing page whose only link carries an identifier of 4301
    digits. *)
Fixpoint string_repeat (c : ascii) (n : nat) : string :=
  match n with
  | O => EmptyString
  | S n' => String c (string_repeat c n')
  end.

Definition overlong_href : string :=
  "/allstars/still/" ++ string_repeat "9" 4301 ++ "/Stage/".

Definition overlong_list_page : Bs4.soup :=
  Bs4.Tag "[document]" [] []
    [Bs4.Tag "div" ["top-item"] [] [anchor overlong_href]].

(** Two cards that differ in the extension of the normal URL only. *)
Definition sample_card_png_jpg : Card.t :=
  Card.mk 5 "Maki" "UR" "Cool" "Muse" "BiBi" "First"
          "//i.idol.st/u/card/art/2x/5Maki.png"
          "//i.idol.st/u/card/art/2x/5MakiIdol.jpg".

Definition sample_card_jpg_jpg : Card.t :=
  Card.mk 5 "Maki" "UR" "Cool" "Muse" "BiBi" "First"
          "//i.idol.st/u/card/art/2x/5Maki.jpg"
          "//i.idol.st/u/card/art/2x/5MakiIdol.jpg".

(** A concrete run of the download phase: two stills, the asset of
    number 8 cannot be fetched. *)
Definition sample_root : Pathlib.Path := Pathlib.parse "/srv/sifas".

Definition sample_assets (addr : string) : result string :=
  if String.eqb addr "https://i.idol.st/u/still/2x/7.png"
  then Ok "PNG-7"
  else Raise (ClientError "Connection reset by peer").

Definition sample_open (_ : Pathlib.Path) : result Datatypes.unit := Ok tt.

Definition sample_still_8 : Still.t :=
  Still.mk 8 (PStr "//i.idol.st/u/still/2x/8.png").

Definition sample_catalogue : Downloader.state Still.t :=
  Downloader.set_objs [(8%Z, sample_still_8); (7%Z, sample_still_2x)]
    (Downloader.init []).

Definition sample_download : Downloader.M Still.t Datatypes.unit :=
  Downloader.download (img_type := Still_ImgType (consts := sample_consts))
    sample_root sample_assets sample_open.

Definition sample_catalogue_7 : Downloader.state Still.t :=
  Downloader.set_objs [(7%Z, sample_still_2x)] (Downloader.init []).

(** A concrete run of [update]: stills 8 and 7 are known in low
    resolution; the detail page of 8 cannot be fetched, that of 7 shows
    a double-size asset. *)
Definition stills_list_page : Bs4.soup :=
  Bs4.Tag "[document]" [] []
    [Bs4.Tag "div" ["top-item"] [] [anchor "/allstars/still/8/Rooftop/"];
     Bs4.Tag "div" ["top-item"] [] [anchor "/allstars/still/7/Stage/"];
     Bs4.Tag "ul" ["pagination"] []
       [anchor "/allstars/stills/?page=1";
        anchor "/allstars/stills/?page=2"]].

Definition failing_remote (url : string) : result Bs4.soup :=
  if String.eqb url "https://idol.st/ajax/allstars/stills/?page=1"
  then Ok stills_list_page
  else if String.eqb url "https://idol.st/ajax/allstars/still/7"
  then Ok (still_detail_page "//i.idol.st/u/still/2x/7.png")
  else Raise (ClientError "Server disconnected").

Definition still_8_low_res : Still.t :=
  Still.mk 8 (PStr "//i.idol.st/u/still/8.png").

Definition known_catalogue : Downloader.state Still.t :=
  Downloader.set_objs [(8%Z, still_8_low_res); (7%Z, sample_still_low_res)]
    (Downloader.init []).

(** A catalogue store that accepts what it is handed, and one whose
    disk is full. *)
Definition sample_store {T} (_ : list (Z * T)) : result Datatypes.unit :=
  Ok tt.

Definition full_store {T} (_ : list (Z * T)) : result Datatypes.unit :=
  Raise (OSError "No space left on device").

Definition sample_update : Downloader.M Still.t Datatypes.unit :=
  Downloader.update (img_type := Still_ImgType (consts := sample_consts))
    failing_remote sample_store.

(** The states of that run after discovery and when it ends. *)
Definition after_discovery : Downloader.state Still.t :=
  fst (Downloader.get_cards_from_parser
         (img_type := Still_ImgType (consts := sample_consts))
         failing_remote
         (Downloader.print "Searching for new or missing items..."
            known_catalogue)).

Definition after_failed_check : Downloader.state Still.t :=
  fst (sample_update known_catalogue).

(* ===================================================================== *)
(** ** Vocabulary and samples of the further properties *)
(* ===================================================================== *)

Definition not_digit (c : ascii) : bool := negb (PyStr.is_digit c).

(** What [get_num_pages] makes of the last anchor but one of the
    pagination element. *)
Definition page_link (page : Bs4.soup) (group : string) : Prop :=
  exists item before link last href,
    Bs4.find_class "pagination" page = Some item /\
    Bs4.find_all_name "a" item = (before ++ [link; last])%list /\
    Bs4.get "href" link = PStr href /\
    PyStr.search_eq_digits href = Some group.

(** The encodings of the characters that Python counts as whitespace:
    U+0009 to U+000D, U+001C to U+0020, U+0085, U+00A0, U+1680, U+2000
    to U+200A, U+2028, U+2029, U+202F, U+205F and U+3000. *)
Definition bytes (codes : list nat) : string :=
  string_of_list_ascii (map ascii_of_nat codes).

Definition whitespace : list string :=
  map bytes
    [[9]; [10]; [11]; [12]; [13]; [28]; [29]; [30]; [31]; [32];
     [194; 133]; [194; 160]; [225; 154; 128];
     [226; 128; 128]; [226; 128; 129]; [226; 128; 130]; [226; 128; 131];
     [226; 128; 132]; [226; 128; 133]; [226; 128; 134]; [226; 128; 135];
     [226; 128; 136]; [226; 128; 137]; [226; 128; 138];
     [226; 128; 168]; [226; 128; 169]; [226; 128; 175];
     [226; 129; 159]; [227; 128; 128]]%nat.

(** [s] has no whitespace around it: it neither begins nor ends with a
    whitespace character. *)
Definition trimmed (s : string) : Prop :=
  forall w r, In w whitespace -> s <> w ++ r /\ s <> r ++ w.

(** The two exceptions that the detail parsers raise themselves. *)
Definition parse_exn (e : exn) : Prop :=
  e = ItemParsingException \/ e = IndexError.

(** A card page as the site serves it: two anchors and the six data
    rows, the name of the idol followed by the marker phrase. *)
Definition data_row (field : string) (value : list Bs4.node) : Bs4.node :=
  Bs4.Tag "tr" [] [("data-field", field)]
    [Bs4.Tag "td" [] [] [Bs4.NavigableString "label"];
     Bs4.Tag "td" [] [] value].

Definition padded_idol_text : string :=
  bytes [194; 160; 32] ++ "Honoka Kosaka" ++ bytes [32; 227; 128; 128]
    ++ "Open idol  more".

Definition card_detail_page (normal idolized : string) : Bs4.soup :=
  Bs4.Tag "[document]" [] []
    [Bs4.Tag "div" ["top-item"] [] [anchor normal; anchor idolized];
     Bs4.Tag "table" [] []
       [data_row "idol"
          [Bs4.Tag "span" [] [] [Bs4.NavigableString padded_idol_text]];
        data_row "rarity" [Bs4.NavigableString (" UR" ++ bytes [194; 160])];
        data_row "attribute" [Bs4.NavigableString "Smile"];
        data_row "i_unit" [Bs4.NavigableString "Muse"];
        data_row "i_subunit" [Bs4.NavigableString "Printemps"];
        data_row "i_year" [Bs4.NavigableString "Second"]]].

(** A detail page whose top-item element has a single anchor. *)
Definition page_with_one_anchor : Bs4.soup :=
  still_detail_page "//i.idol.st/u/card/5.png".

(** Orders on catalogue entries, by key. *)
Definition key_ge {T} (a b : Z * T) : Prop := (fst a >= fst b)%Z.
Definition key_gt {T} (a b : Z * T) : Prop := (fst a > fst b)%Z.

(** The parser of the class builds the item under the number it was
    asked for. *)
Definition parser_keeps_key {T} {img_type : ImgType T} : Prop :=
  forall soup num n (item : T),
    parser_create_item soup num = Ok (n, item) -> n = num.

(** An address that discovery may request, seen from the catalogue of
    [s0]: a listing page, or the detail page of a key that [s0] does not
    hold. *)
Definition discovery_request {T} {img_type : ImgType T}
    (s0 : Downloader.state T) (url : string) : Prop :=
  (exists i, url = ListParser.get_url get_list_template i) \/
  (exists k, url = parser_get_url k /\ Downloader.in_objs k s0 = false).

(** A site on which everything can be fetched: the listing page with
    stills 8 and 7, still 7 in double size, still 8 not. *)
Definition healthy_remote (url : string) : result Bs4.soup :=
  if String.eqb url "https://idol.st/ajax/allstars/stills/?page=1"
  then Ok stills_list_page
  else if String.eqb url "https://idol.st/ajax/allstars/still/7"
  then Ok (still_detail_page "//i.idol.st/u/still/2x/7.png")
  else if String.eqb url "https://idol.st/ajax/allstars/still/8"
  then Ok (still_detail_page "//i.idol.st/u/still/8.png")
  else Raise (ClientError "Not Found").

Definition healthy_update : Downloader.M Still.t Datatypes.unit :=
  Downloader.update (img_type := Still_ImgType (consts := sample_consts))
    healthy_remote sample_store.

Definition unsaved_update : Downloader.M Still.t Datatypes.unit :=
  Downloader.update (img_type := Still_ImgType (consts := sample_consts))
    healthy_remote full_store.

Definition healthy_discovery : Downloader.M Still.t Datatypes.unit :=
  Downloader.get_cards_from_parser
    (img_type := Still_ImgType (consts := sample_consts)) healthy_remote.

(** What discovery may have done between [s0] and [s]. *)
Definition discovered {T} {img_type : ImgType T}
    (s0 s : Downloader.state T) : Prop :=
  (exists l, Downloader.objs s = (Downloader.objs s0 ++ l)%list) /\
  (NoDup (map fst (Downloader.objs s0)) ->
   NoDup (map fst (Downloader.objs s))) /\
  (exists new,
      Downloader.requests s = (new ++ Downloader.requests s0)%list /\
      Forall (discovery_request s0) new) /\
  Downloader.files s = Downloader.files s0 /\
  Downloader.updateables s = Downloader.updateables s0 /\
  Downloader.saved s = Downloader.saved s0.

(** What a pass of the download phase may have done between [s0] and
    [s]: files were added, each of them logged, and nothing else of the
    downloader moved. *)
Definition only_files_added {T} (s0 s : Downloader.state T) : Prop :=
  Downloader.objs s = Downloader.objs s0 /\
  Downloader.updateables s = Downloader.updateables s0 /\
  Downloader.saved s = Downloader.saved s0 /\
  Downloader.list_parser s = Downloader.list_parser s0 /\
  Downloader.item_parser s = Downloader.item_parser s0 /\
  exists l,
    Downloader.files s = (l ++ Downloader.files s0)%list /\
    Downloader.written s = (map fst l ++ Downloader.written s0)%list.

(** A site whose assets cannot be fetched, and a catalogue of one
    card. *)
Definition no_assets (_ : string) : result string :=
  Raise (ClientError "Connection refused").

Definition card_catalogue : Downloader.state Card.t :=
  Downloader.set_objs [(12%Z, sample_card_2x)] (Downloader.init []).

Definition card_download : Downloader.M Card.t Datatypes.unit :=
  Downloader.download (img_type := Card_ImgType (consts := sample_consts))
    sample_root no_assets sample_open.

(** The downloader after a run of [update] on the known catalogue:
    still 7 is flagged for download. *)
Definition flagged_catalogue : Downloader.state Still.t :=
  fst (healthy_update known_catalogue).

Definition not_slash (c : ascii) : bool := negb (Ascii.eqb c "/").

Definition not_underscore (c : ascii) : bool := negb (Ascii.eqb c "_").

(** [f] is a file name that begins with the key [k] and an underscore. *)
Definition starts_with_key (k : Z) (f : string) : Prop :=
  exists rest, f = PyStr.str_of_int k ++ String "_" rest.

(** Every entry of the catalogue stands under the key of its item. *)
Definition consistent {T} {img_type : ImgType T}
    (s : Downloader.state T) : Prop :=
  Forall (fun e => key (snd e) = fst e) (Downloader.objs s).

(** The parser of the class builds, under the number asked for, an item
    with that key; [set_url] leaves the key alone. *)
Definition parser_builds_keyed_items {T} {img_type : ImgType T} : Prop :=
  forall soup num n (item : T),
    parser_create_item soup num = Ok (n, item) ->
    n = num /\ key item = num.

Definition set_url_keeps_key {T} {img_type : ImgType T} : Prop :=
  forall (item : T) i u, key (set_url item i u) = key item.

(* ===================================================================== *)
(** ** Facts about the string primitives *)
(* ===================================================================== *)

Lemma string_app_assoc (a b c : string) : (a ++ b) ++ c = a ++ b ++ c.
Proof. induction a as [|x a IH]; simpl; [reflexivity|now rewrite IH]. Qed.

Lemma prefix_app (p t : string) : prefix p (p ++ t) = true.
Proof.
  induction p as [|c p IH]; simpl.
  - destruct t; reflexivity.
  - destruct (ascii_dec c c) as [_|n]; [exact IH | now elim n].
Qed.

Lemma prefix_split (p s : string) :
  prefix p s = true -> exists t, s = p ++ t.
Proof.
  revert s; induction p as [|c p IH]; intros s H.
  - now exists s.
  - destruct s as [|d s]; simpl in H; [discriminate|].
    destruct (ascii_dec c d) as [->|]; [|discriminate].
    destruct (IH _ H) as [t ->]. now exists t.
Qed.

Lemma search_literal_unfold (lit s : string) :
  PyStr.search_literal lit s =
  prefix lit s ||
  match s with
  | EmptyString => false
  | String _ s' => PyStr.search_literal lit s'
  end.
Proof. destruct s; reflexivity. Qed.

Lemma search_literal_occurs (lit s : string) :
  PyStr.search_literal lit s = true <-> occurs lit s.
Proof.
  split.
  - induction s as [|c s IH]; rewrite search_literal_unfold; intros H.
    + rewrite orb_false_r in H. apply prefix_split in H as [t E].
      exists "", t. exact E.
    + apply orb_true_iff in H as [H|H].
      * apply prefix_split in H as [t E]. exists "", t. exact E.
      * destruct (IH H) as (pre & post & ->).
        now exists (String c pre), post.
  - intros (pre & post & ->).
    induction pre as [|c pre IH].
    + rewrite search_literal_unfold. simpl append at 1.
      rewrite prefix_app. reflexivity.
    + change (String c pre ++ lit ++ post)
        with (String c (pre ++ lit ++ post)).
      rewrite search_literal_unfold, IH. apply orb_true_r.
Qed.

(* ===================================================================== *)
(** ** The item model: resolution predicates *)
(* ===================================================================== *)

(** C9: [is_double_sized] is true exactly when the substring [/2x/] occurs
    in the URL of slot 0: for a card outright, for a still whenever the
    call returns (it raises on a still whose slot holds [None]). *)
Theorem is_double_sized_iff_marker_in_primary_url :
  (forall (c : Card.t) (u : string),
      nth_error (Card.get_urls c) 0 = Some u ->
      (Card.is_double_sized c = true <-> occurs "/2x/" u)) /\
  (forall (st : Still.t) (u : string),
      nth_error (Still.get_urls st) 0 = Some (PStr u) ->
      exists b, Still.is_double_sized st = Ok b /\
                (b = true <-> occurs "/2x/" u)) /\
  (forall st : Still.t,
      Still.is_double_sized st = Ok true <->
      exists u, nth_error (Still.get_urls st) 0 = Some (PStr u) /\
                occurs "/2x/" u).
Proof.
  split; [|split].
  - intros c u H. simpl in H. injection H as <-.
    unfold Card.is_double_sized. apply search_literal_occurs.
  - intros st u H. simpl in H. injection H as H.
    unfold Still.is_double_sized. rewrite H.
    eexists; split; [reflexivity|]. apply search_literal_occurs.
  - intros st. unfold Still.is_double_sized. simpl.
    destruct (Still.url st) as [u|]; split.
    + intros H. injection H as H. exists u. split; [reflexivity|].
      now apply search_literal_occurs.
    + intros (u' & E & O). injection E as ->.
      apply search_literal_occurs in O. now rewrite O.
    + discriminate.
    + intros (u' & E & _). discriminate.
Qed.

Lemma is_double_sized_iff_marker_in_primary_url_witness :
  (Card.is_double_sized sample_card_2x = true <->
   occurs "/2x/" "//i.idol.st/u/card/art/2x/12Honoka.png") /\
  (exists b, Still.is_double_sized sample_still_2x = Ok b /\
             (b = true <-> occurs "/2x/" "//i.idol.st/u/still/2x/7.png")).
Proof.
  split.
  - apply (proj1 is_double_sized_iff_marker_in_primary_url sample_card_2x).
    reflexivity.
  - apply (proj1 (proj2 is_double_sized_iff_marker_in_primary_url)
             sample_still_2x).
    reflexivity.
Defined.

(** C1, as stated, fails: a card that is not high-res and whose rarity is
    ["Rare"] is not re-checked by the code, while the claim's reading asks
    for a check whatever the top tier is taken to be. *)
Lemma low_res_rare_card_is_not_rechecked :
  Card.is_double_sized sample_card_low_res_rare = false /\
  Card.needs_update sample_card_low_res_rare = false /\
  claimed_card_needs_update "Rare" sample_card_low_res_rare = true /\
  claimed_card_needs_update "UR" sample_card_low_res_rare = true.
Proof. repeat split; reflexivity. Qed.

(** C1, amended: a card needs a check exactly when it is not high-res and
    its rarity is not ["Rare"]; a still needs one exactly when it is not
    high-res. *)
Theorem needs_update_characterisation :
  (forall c : Card.t,
      Card.needs_update c = true <->
      Card.is_double_sized c = false /\ Card.rarity c <> "Rare") /\
  (forall (st : Still.t) (b : bool),
      Still.is_double_sized st = Ok b ->
      Still.needs_update st = Ok (negb b)) /\
  (forall st : Still.t,
      Still.needs_update st = Ok true <->
      Still.is_double_sized st = Ok false).
Proof.
  split; [|split].
  - intros c. unfold Card.needs_update.
    rewrite andb_true_iff, !negb_true_iff, String.eqb_neq. reflexivity.
  - intros st b H. unfold Still.needs_update. rewrite H. reflexivity.
  - intros st. unfold Still.needs_update.
    destruct (Still.is_double_sized st) as [[|]|e]; simpl;
      split; intros H; try discriminate; reflexivity.
Qed.

Lemma needs_update_characterisation_witness :
  Still.needs_update sample_still_low_res = Ok (negb false).
Proof.
  apply (proj1 (proj2 needs_update_characterisation) sample_still_low_res).
  reflexivity.
Defined.

(* ===================================================================== *)
(** ** The detail parsers on an anchor without [href] *)
(* ===================================================================== *)

(** C10: on a page whose top-item region has anchors, the first of them
    without [href], [StillParser] returns a still whose [url] is [None],
    and [CardParser] raises [ItemParsingException]. *)
Theorem still_parser_accepts_anchor_without_href
    (page top_item link0 : Bs4.node) (links : list Bs4.node) (num : Z) :
  Bs4.find_class "top-item" page = Some top_item ->
  Bs4.find_all_name "a" top_item = link0 :: links ->
  Bs4.get "href" link0 = PNone ->
  StillParser.create_item (Some page) num = Ok (num, Still.mk num PNone) /\
  (forall s, Still.url (Still.mk num PNone) <> PStr s) /\
  CardParser.create_item (Some page) num = Raise ItemParsingException.
Proof.
  intros Htop Hlinks Hhref. split; [|split].
  - unfold StillParser.create_item, StillParser.get_item_image_url.
    rewrite Htop, Hlinks, Hhref. reflexivity.
  - intros s. discriminate.
  - unfold CardParser.create_item, CardParser.get_item_image_urls.
    rewrite Htop, Hlinks, Hhref. reflexivity.
Qed.

Lemma still_parser_accepts_anchor_without_href_witness :
  StillParser.create_item (Some page_anchor_without_href) 7
    = Ok (7%Z, Still.mk 7 PNone) /\
  (forall s, Still.url (Still.mk 7 PNone) <> PStr s) /\
  CardParser.create_item (Some page_anchor_without_href) 7
    = Raise ItemParsingException.
Proof.
  apply (still_parser_accepts_anchor_without_href page_anchor_without_href
           (Bs4.Tag "div" ["top-item"] []
              [Bs4.Tag "a" [] [("name", "art")] [];
               Bs4.Tag "a" [] [("href", "//i.idol.st/u/still/7.png")] []])
           (Bs4.Tag "a" [] [("name", "art")] [])
           [Bs4.Tag "a" [] [("href", "//i.idol.st/u/still/7.png")] []]);
    reflexivity.
Defined.

(* ===================================================================== *)
(** ** Reconciliation: [update_if_needed] and the loop of [update] *)
(* ===================================================================== *)

Section Reconciliation.
Context {consts : Consts}.
Variable http_get : string -> result Bs4.soup.

Lemma update_if_needed_settled {T} {I : ImgType T} (item : T)
    (s : Downloader.state T) :
  needs_update item = Ok false ->
  Downloader.update_if_needed http_get item s = (s, item, Ok tt).
Proof. intros H. unfold Downloader.update_if_needed. now rewrite H. Qed.

Lemma update_items_keeps_settled {T} {I : ImgType T}
    (items : list (Z * T)) :
  forall s s' items' r,
    Downloader.update_items http_get items s = (s', items', r) ->
    forall i k item,
      nth_error items i = Some (k, item) ->
      needs_update item = Ok false ->
      nth_error items' i = Some (k, item).
Proof.
  induction items as [|[k0 item0] items IH]; intros s s' items' r Hrun i k item Hi Hn.
  - destruct i; discriminate.
  - simpl in Hrun.
    destruct (Downloader.update_if_needed http_get item0 s)
      as [[s1 item0'] [[]|e]] eqn:E0.
    + destruct (Downloader.update_items http_get items s1)
        as [[s2 rest] r2] eqn:E1.
      injection Hrun as <- <- <-.
      destruct i as [|i]; simpl in *.
      * injection Hi as -> ->.
        rewrite (update_if_needed_settled item s Hn) in E0.
        now injection E0 as _ <-.
      * eapply IH; eauto.
    + injection Hrun as <- <- <-.
      destruct i as [|i]; simpl in *; [|exact Hi].
      injection Hi as -> ->.
      rewrite (update_if_needed_settled item s Hn) in E0. discriminate.
Qed.

(** C2: an item whose primary URL is high-res needs no check, so
    [update_if_needed] returns at once: no request is made, the pending
    list and the item are as before; and a whole pass of the loop of
    [update] leaves the entry of such an item as it was. *)
Theorem high_res_item_is_left_alone :
  (forall (c : Card.t) (s : Downloader.state Card.t),
      Card.is_double_sized c = true ->
      Card.needs_update c = false /\
      Downloader.update_if_needed http_get c s = (s, c, Ok tt)) /\
  (forall (st : Still.t) (s : Downloader.state Still.t),
      Still.is_double_sized st = Ok true ->
      Still.needs_update st = Ok false /\
      Downloader.update_if_needed http_get st s = (s, st, Ok tt)) /\
  (forall (items items' : list (Z * Card.t)) s s' r i k c,
      Downloader.update_items http_get items s = (s', items', r) ->
      nth_error items i = Some (k, c) ->
      Card.is_double_sized c = true ->
      nth_error items' i = Some (k, c)) /\
  (forall (items items' : list (Z * Still.t)) s s' r i k st,
      Downloader.update_items http_get items s = (s', items', r) ->
      nth_error items i = Some (k, st) ->
      Still.is_double_sized st = Ok true ->
      nth_error items' i = Some (k, st)).
Proof.
  assert (HC : forall c, Card.is_double_sized c = true ->
                         Card.needs_update c = false).
  { intros c H. unfold Card.needs_update. now rewrite H. }
  assert (HS : forall st, Still.is_double_sized st = Ok true ->
                          Still.needs_update st = Ok false).
  { intros st H. unfold Still.needs_update. now rewrite H. }
  repeat split.
  - now apply HC.
  - apply update_if_needed_settled. simpl. now rewrite HC.
  - now apply HS.
  - apply update_if_needed_settled. simpl. now apply HS.
  - intros items items' s s' r i k c Hrun Hi Hc.
    apply (update_items_keeps_settled items s s' items' r Hrun i k c Hi).
    simpl. now rewrite HC.
  - intros items items' s s' r i k st Hrun Hi Hst.
    apply (update_items_keeps_settled items s s' items' r Hrun i k st Hi).
    simpl. now apply HS.
Qed.

(** C3: when the check runs and the detail page parses, the key is
    appended to the pending list exactly when the fresh primary URL
    differs from the stored one, and every slot of the item then holds
    the fresh value, whether or not the primary URL differed. *)
Theorem reconciliation_refreshes_every_slot :
  (forall (c updated : Card.t) (s s1 : Downloader.state Card.t) (n : Z),
      Card.needs_update c = true ->
      Downloader.item_parser_get_item http_get (Card.key c) s
        = (s1, Ok (n, updated)) ->
      exists s2 c',
        Downloader.update_if_needed http_get c s = (s2, c', Ok tt) /\
        Card.get_urls c' = Card.get_urls updated /\
        c' = Card.mk (Card.key c) (Card.idol c) (Card.rarity c)
               (Card.attribute c) (Card.unit c) (Card.subunit c)
               (Card.year c) (Card.normal_url updated)
               (Card.idolized_url updated) /\
        (Card.normal_url c <> Card.normal_url updated ->
         Downloader.updateables s2
           = (Downloader.updateables s ++ [Card.key c])%list) /\
        (Card.normal_url c = Card.normal_url updated ->
         Downloader.updateables s2 = Downloader.updateables s)) /\
  (forall (st updated : Still.t) (s s1 : Downloader.state Still.t) (n : Z),
      Still.needs_update st = Ok true ->
      Downloader.item_parser_get_item http_get (Still.key st) s
        = (s1, Ok (n, updated)) ->
      exists s2 st',
        Downloader.update_if_needed http_get st s = (s2, st', Ok tt) /\
        Still.get_urls st' = Still.get_urls updated /\
        st' = Still.mk (Still.key st) (Still.url updated) /\
        (Still.url st <> Still.url updated ->
         Downloader.updateables s2
           = (Downloader.updateables s ++ [Still.key st])%list) /\
        (Still.url st = Still.url updated ->
         Downloader.updateables s2 = Downloader.updateables s)).
Proof.
  split.
  - intros c updated s s1 n Hn Hget.
    assert (Hu : Downloader.updateables s1 = Downloader.updateables s).
    { unfold Downloader.item_parser_get_item in Hget.
      destruct (Parser.get_item _ _ _ _ _) as [p' r'].
      injection Hget as <- _. reflexivity. }
    unfold Downloader.update_if_needed. simpl needs_update. rewrite Hn.
    simpl key. rewrite Hget. simpl.
    destruct (String.eqb_spec (Card.normal_url c) (Card.normal_url updated))
      as [E|E]; simpl;
      eexists _, _; repeat split; try reflexivity; intros; simpl; congruence.
  - intros st updated s s1 n Hn Hget.
    assert (Hu : Downloader.updateables s1 = Downloader.updateables s).
    { unfold Downloader.item_parser_get_item in Hget.
      destruct (Parser.get_item _ _ _ _ _) as [p' r'].
      injection Hget as <- _. reflexivity. }
    unfold Downloader.update_if_needed. simpl needs_update. rewrite Hn.
    simpl key. rewrite Hget. simpl.
    unfold Still.get_urls, Still.set_url.
    destruct (Still.url st) as [a|] eqn:Ea,
             (Still.url updated) as [b|] eqn:Eb; simpl;
      try destruct (String.eqb_spec a b) as [E|E]; simpl;
      eexists _, _; repeat split; try reflexivity; intros; simpl; congruence.
Qed.

End Reconciliation.

Lemma high_res_item_is_left_alone_witness :
  (Card.needs_update sample_card_2x = false /\
   Downloader.update_if_needed (img_type := Card_ImgType (consts := sample_consts))
     sample_remote sample_card_2x (Downloader.init [])
   = (Downloader.init [], sample_card_2x, Ok tt)) /\
  (Still.needs_update sample_still_2x = Ok false /\
   Downloader.update_if_needed (img_type := Still_ImgType (consts := sample_consts))
     sample_remote sample_still_2x (Downloader.init [])
   = (Downloader.init [], sample_still_2x, Ok tt)).
Proof.
  split.
  - apply (proj1 (@high_res_item_is_left_alone sample_consts sample_remote)).
    reflexivity.
  - apply (proj1 (proj2 (@high_res_item_is_left_alone sample_consts
                           sample_remote))).
    reflexivity.
Defined.

Lemma reconciliation_refreshes_every_slot_witness :
  exists s2 st',
    Downloader.update_if_needed (img_type := Still_ImgType (consts := sample_consts))
      sample_remote sample_still_low_res (Downloader.init []) = (s2, st', Ok tt) /\
    Still.get_urls st' = [PStr "//i.idol.st/u/still/2x/7.png"] /\
    st' = Still.mk 7 (PStr "//i.idol.st/u/still/2x/7.png") /\
    (PStr "//i.idol.st/u/still/7.png" <> PStr "//i.idol.st/u/still/2x/7.png" ->
     Downloader.updateables s2 = [7%Z]) /\
    (PStr "//i.idol.st/u/still/7.png" = PStr "//i.idol.st/u/still/2x/7.png" ->
     Downloader.updateables s2 = []).
Proof.
  eapply (proj2 (@reconciliation_refreshes_every_slot sample_consts
                   sample_remote)
            sample_still_low_res
            (Still.mk 7 (PStr "//i.idol.st/u/still/2x/7.png"))
            (Downloader.init []) _ 7%Z);
    reflexivity.
Defined.

(* ===================================================================== *)
(** ** Numbers in text *)
(* ===================================================================== *)

Lemma forall_chars_app (P : ascii -> bool) (s t : string) :
  forall_chars P (s ++ t) = forall_chars P s && forall_chars P t.
Proof.
  induction s as [|c s IH]; simpl; [reflexivity|].
  now rewrite IH, andb_assoc.
Qed.

Lemma forall_chars_weaken (P Q : ascii -> bool) (s : string) :
  (forall c, P c = true -> Q c = true) ->
  forall_chars P s = true -> forall_chars Q s = true.
Proof.
  intros HPQ. induction s as [|c s IH]; simpl; [reflexivity|].
  rewrite !andb_true_iff. intros [Hc Hs]. auto.
Qed.

Lemma string_app_nil_r (s : string) : s ++ "" = s.
Proof. induction s as [|c s IH]; simpl; [reflexivity|now rewrite IH]. Qed.

Lemma string_app_inv_length (a a' b b' : string) :
  a ++ b = a' ++ b' -> String.length a = String.length a' ->
  a = a' /\ b = b'.
Proof.
  revert a'. induction a as [|c a IH]; intros [|c' a'] E L; simpl in *;
    try discriminate.
  - now split.
  - injection E as -> E. injection L as L.
    destruct (IH _ E L) as [-> ->]. now split.
Qed.

Lemma span_digits_spec (s : string) :
  s = fst (PyStr.span_digits s) ++ snd (PyStr.span_digits s) /\
  forall_chars PyStr.is_digit (fst (PyStr.span_digits s)) = true.
Proof.
  induction s as [|c s [IH1 IH2]]; simpl; [split; reflexivity|].
  destruct (PyStr.is_digit c) eqn:Hc.
  - destruct (PyStr.span_digits s) as [d r]; simpl in *.
    split; [now rewrite <- IH1|now rewrite Hc].
  - split; reflexivity.
Qed.

Lemma span_digits_app (g rest : string) :
  forall_chars PyStr.is_digit g = true ->
  fst (PyStr.span_digits rest) = "" ->
  PyStr.span_digits (g ++ rest) = (g, rest).
Proof.
  intros Hg Hr. induction g as [|c g IH]; simpl in *.
  - destruct rest as [|c r]; [reflexivity|]. simpl in *.
    destruct (PyStr.is_digit c); [|reflexivity].
    destruct (PyStr.span_digits r); discriminate.
  - apply andb_true_iff in Hg as [Hc Hg]. rewrite Hc, (IH Hg). reflexivity.
Qed.

Lemma int_of_digits_acc_uint (d : Decimal.uint) :
  forall acc : Z,
    PyStr.int_of_digits_acc acc (NilEmpty.string_of_uint d)
    = (Z.of_N (DecimalPos.Unsigned.of_lu (Decimal.rev d))
       + acc * 10 ^ Z.of_N (DecimalPos.Unsigned.usize d))%Z.
Proof.
  induction d; intros acc;
    cbn [PyStr.int_of_digits_acc NilEmpty.string_of_uint
         DecimalPos.Unsigned.usize];
    [simpl; lia|..];
    match goal with
    | |- context [Z.of_nat ?n] =>
        let v := eval vm_compute in (Z.of_nat n) in
        change (Z.of_nat n) with v
    end;
    rewrite IHd; unfold Decimal.rev; cbn [Decimal.revapp];
    rewrite (DecimalPos.Unsigned.of_lu_revapp d (_ Decimal.Nil));
    cbn [DecimalPos.Unsigned.of_lu]; fold (Decimal.rev d);
    rewrite N2Z.inj_add, N2Z.inj_mul, N2Z.inj_pow, N2Z.inj_succ,
      Z.pow_succ_r by apply N2Z.is_nonneg;
    rewrite ?N2Z.inj_add, ?N2Z.inj_mul; cbn [Z.of_N]; ring.
Qed.

Lemma string_of_uint_nonnil (p : positive) :
  NilZero.string_of_uint (Pos.to_uint p)
  = NilEmpty.string_of_uint (Pos.to_uint p).
Proof.
  pose proof (DecimalPos.Unsigned.to_uint_nonnil p) as H.
  destruct (Pos.to_uint p); [now elim H|reflexivity..].
Qed.

(** The digits of [str(n)] denote [n]. *)
Lemma int_of_digits_str_of_int (n : Z) :
  (0 <= n)%Z -> PyStr.int_of_digits (PyStr.str_of_int n) = n.
Proof.
  intros Hn. unfold PyStr.int_of_digits, PyStr.str_of_int.
  destruct n as [|p|p]; [reflexivity| |lia].
  simpl Z.to_int. simpl NilZero.string_of_int.
  rewrite string_of_uint_nonnil, int_of_digits_acc_uint.
  rewrite <- DecimalPos.Unsigned.of_uint_alt, DecimalPos.Unsigned.of_to.
  simpl. lia.
Qed.

Lemma int_of_digits_acc_nonneg (s : string) :
  forall acc, (0 <= acc)%Z -> (0 <= PyStr.int_of_digits_acc acc s)%Z.
Proof.
  induction s as [|c s IH]; intros acc H; cbn [PyStr.int_of_digits_acc];
    [exact H|].
  apply IH. lia.
Qed.

Lemma is_digit_uint_of_char (c : ascii) (o : Decimal.uint) :
  PyStr.is_digit c = true -> exists u, uint_of_char c (Some o) = Some u.
Proof.
  intros H.
  destruct c as [[|] [|] [|] [|] [|] [|] [|] [|]]; vm_compute in H;
    try discriminate H; eexists; reflexivity.
Qed.

Lemma uint_of_digits (d : string) :
  forall_chars PyStr.is_digit d = true ->
  exists u, NilEmpty.uint_of_string d = Some u.
Proof.
  induction d as [|c d IH]; simpl; [now exists Decimal.Nil|].
  intros H. apply andb_true_iff in H as [Hc Hd].
  destruct (IH Hd) as [u ->]. now apply is_digit_uint_of_char.
Qed.

(** On a run of digits the reading of the code and the decimal reading of
    the library agree. *)
Lemma decimal_value_digits (d : string) :
  forall_chars PyStr.is_digit d = true ->
  decimal_value d = Some (PyStr.int_of_digits d).
Proof.
  intros H. destruct (uint_of_digits d H) as [u Hu].
  unfold decimal_value. rewrite Hu. simpl. f_equal.
  apply NilEmpty.sus in Hu. rewrite <- Hu.
  unfold PyStr.int_of_digits. rewrite int_of_digits_acc_uint.
  rewrite <- DecimalPos.Unsigned.of_uint_alt. unfold Z.of_uint. lia.
Qed.

Lemma int_within_limit (d : string) :
  (String.length d <= PyStr.int_max_str_digits)%nat ->
  PyStr.int d = Ok (PyStr.int_of_digits d).
Proof.
  intros H. unfold PyStr.int. apply Nat.leb_le in H. now rewrite H.
Qed.

Lemma int_beyond_limit (d : string) :
  (PyStr.int_max_str_digits < String.length d)%nat ->
  PyStr.int d = Raise ValueError.
Proof.
  intros H. unfold PyStr.int. apply Nat.leb_gt in H. now rewrite H.
Qed.

Lemma int_Ok (d : string) (n : Z) :
  PyStr.int d = Ok n ->
  n = PyStr.int_of_digits d /\
  (String.length d <= PyStr.int_max_str_digits)%nat.
Proof.
  unfold PyStr.int.
  destruct (Nat.leb_spec (String.length d) PyStr.int_max_str_digits);
    [|discriminate].
  intros E. injection E as <-. now split.
Qed.

Lemma int_Raise (d : string) (e : exn) :
  PyStr.int d = Raise e ->
  e = ValueError /\ (PyStr.int_max_str_digits < String.length d)%nat.
Proof.
  unfold PyStr.int.
  destruct (Nat.leb_spec (String.length d) PyStr.int_max_str_digits);
    [discriminate|].
  intros E. injection E as <-. now split.
Qed.

(* ===================================================================== *)
(** ** The list parser *)
(* ===================================================================== *)

Lemma insert_desc_perm (x : Z) (l : list Z) :
  Permutation (x :: l) (PyStr.insert_desc x l).
Proof.
  induction l as [|y l IH]; simpl.
  - apply Permutation_refl.
  - destruct (y <=? x)%Z.
    + apply Permutation_refl.
    + eapply perm_trans; [apply perm_swap|].
      now apply perm_skip.
Qed.

Lemma insert_desc_hd (x y : Z) (l : list Z) :
  (y >= x)%Z -> HdRel Z.ge y l -> HdRel Z.ge y (PyStr.insert_desc x l).
Proof.
  intros Hyx H. destruct l as [|z l]; simpl.
  - now constructor.
  - destruct (z <=? x)%Z; constructor; trivial.
    now inversion H.
Qed.

Lemma insert_desc_sorted (x : Z) (l : list Z) :
  Sorted Z.ge l -> Sorted Z.ge (PyStr.insert_desc x l).
Proof.
  induction 1 as [|y l Hs IH Hhd]; simpl.
  - repeat constructor.
  - destruct (Z.leb_spec y x) as [Hle|Hlt].
    + constructor; [now constructor|]. constructor. lia.
    + constructor; [exact IH|]. apply insert_desc_hd; [lia|exact Hhd].
Qed.

Lemma sorted_reverse_perm (l : list Z) :
  Permutation l (PyStr.sorted_reverse l).
Proof.
  induction l as [|x l IH]; simpl; [constructor|].
  eapply perm_trans; [apply perm_skip, IH|]. apply insert_desc_perm.
Qed.

Lemma sorted_reverse_sorted (l : list Z) :
  Sorted Z.ge (PyStr.sorted_reverse l).
Proof.
  induction l as [|x l IH]; simpl; [constructor|].
  now apply insert_desc_sorted.
Qed.

(** A match of the pattern of [get_page] that begins at the head of the
    string. *)
Lemma between_slashes_cons (c : ascii) (s pre d post : string) :
  between_slashes (String c s) pre d post ->
  (pre = "" /\ c = "/"%char /\ s = d ++ String "/" post /\
   d <> "" /\ forall_chars PyStr.is_digit d = true) \/
  (exists pre', pre = String c pre' /\ between_slashes s pre' d post).
Proof.
  intros (E & Hn & Hd). destruct pre as [|c' pre']; simpl in E;
    injection E as -> E.
  - left. auto.
  - right. exists pre'. repeat split; trivial.
Qed.

Lemma span_digits_between (d post : string) :
  forall_chars PyStr.is_digit d = true ->
  PyStr.span_digits (d ++ String "/" post) = (d, String "/" post).
Proof. intros Hd. now apply span_digits_app. Qed.

Lemma search_slash_digits_here (d post : string) :
  d <> "" -> forall_chars PyStr.is_digit d = true ->
  PyStr.search_slash_digits (String "/" (d ++ String "/" post)) = Some d.
Proof.
  intros Hn Hd. cbn [PyStr.search_slash_digits]. simpl Ascii.eqb. cbv iota.
  rewrite (span_digits_between d post Hd).
  destruct d; [now elim Hn|reflexivity].
Qed.

Lemma search_slash_digits_complete (pre : string) :
  forall s d post,
    between_slashes s pre d post ->
    exists d0, PyStr.search_slash_digits s = Some d0.
Proof.
  induction pre as [|c pre IH]; intros s d post (E & Hn & Hd); subst s.
  - exists d. now apply search_slash_digits_here.
  - change (String c pre ++ "/" ++ d ++ "/" ++ post)
      with (String c (pre ++ "/" ++ d ++ "/" ++ post)).
    destruct (IH (pre ++ "/" ++ d ++ "/" ++ post) d post) as [d0 H0];
      [repeat split; trivial|].
    cbn [PyStr.search_slash_digits].
    destruct (Ascii.eqb c "/"); [|eauto].
    destruct (PyStr.span_digits _) as [[|x xs] [|c' r]]; eauto.
    destruct (Ascii.eqb c' "/"); eauto.
Qed.

(** What the search returns is group 1 of the leftmost match. *)
Lemma search_slash_digits_leftmost (s : string) :
  forall d0, PyStr.search_slash_digits s = Some d0 -> link_identifier s d0.
Proof.
  induction s as [|c s IH]; intros d0 H; [discriminate|].
  cbn [PyStr.search_slash_digits] in H.
  assert (Hrec : PyStr.search_slash_digits s = Some d0 ->
                 (forall d post,
                     c = "/"%char -> s = d ++ String "/" post ->
                     d <> "" -> forall_chars PyStr.is_digit d = true ->
                     False) ->
                 link_identifier (String c s) d0).
  { intros Hs Hno.
    destruct (IH _ Hs) as (pre & post & (E & Hn & Hd) & Hmin).
    exists (String c pre), post. split.
    - split; [|split; trivial].
      change (String c s = String c (pre ++ "/" ++ d0 ++ "/" ++ post)).
      now rewrite <- E.
    - intros pre' d' post' B.
      apply between_slashes_cons in B
        as [(-> & Hc & Es & Hn' & Hd')|(p & -> & B)].
      + elim (Hno d' post' Hc Es Hn' Hd').
      + simpl. apply le_n_S. now apply (Hmin p d' post'). }
  destruct (Ascii.eqb_spec c "/") as [->|Hc];
    [|apply Hrec; [exact H|intros; contradiction]].
  destruct (span_digits_spec s) as [Hs Hd].
  destruct (PyStr.span_digits s) as [g r] eqn:Esp. simpl in Hs, Hd.
  assert (Hno : (forall post', r <> String "/" post') \/ g = "" ->
                forall d post,
                  "/"%char = "/"%char -> s = d ++ String "/" post ->
                  d <> "" -> forall_chars PyStr.is_digit d = true -> False).
  { intros Hbad d post _ Es Hn' Hd'.
    rewrite Es, (span_digits_between d post Hd') in Esp.
    injection Esp as <- <-. destruct Hbad as [Hbad|Hbad].
    - now apply (Hbad post).
    - contradiction. }
  destruct g as [|x xs].
  { apply Hrec; [exact H|]. apply Hno. now right. }
  destruct r as [|c' r].
  { apply Hrec; [exact H|]. apply Hno. left. discriminate. }
  destruct (Ascii.eqb_spec c' "/") as [->|Hc'].
  - injection H as <-. exists "", r. split.
    + repeat split; [|discriminate|exact Hd]. simpl. now rewrite Hs.
    + intros. simpl. apply Nat.le_0_l.
  - apply Hrec; [exact H|]. apply Hno. left.
    intros post' E. injection E as E _. contradiction.
Qed.

Lemma between_slashes_same_place (s pre d post pre' d' post' : string) :
  between_slashes s pre d post ->
  between_slashes s pre' d' post' ->
  String.length pre = String.length pre' -> d = d'.
Proof.
  intros (E & _ & Hd) (E' & _ & Hd') L.
  rewrite E in E'. apply string_app_inv_length in E' as [_ E']; [|exact L].
  simpl in E'. injection E' as E'.
  pose proof (span_digits_between d post Hd) as S1.
  rewrite E', (span_digits_between d' post' Hd') in S1.
  now injection S1.
Qed.

(** The pattern of [get_page] finds the identifier that a link bears. *)
Lemma link_identifier_iff (href d : string) :
  link_identifier href d <-> PyStr.search_slash_digits href = Some d.
Proof.
  split; [|apply search_slash_digits_leftmost].
  intros (pre & post & B & Hmin).
  destruct (search_slash_digits_complete pre href d post B) as [d0 H0].
  destruct (search_slash_digits_leftmost href d0 H0)
    as (pre0 & post0 & B0 & Hmin0).
  rewrite H0. f_equal. symmetry.
  apply (between_slashes_same_place href pre d post pre0 d0 post0 B B0).
  apply Nat.le_antisymm; [now apply (Hmin pre0 d0 post0)|].
  now apply (Hmin0 pre d post).
Qed.

Lemma link_identifier_digits (href d : string) :
  link_identifier href d -> forall_chars PyStr.is_digit d = true.
Proof. intros (pre & post & (_ & _ & Hd) & _). exact Hd. Qed.

Lemma advertises_unique (item : Bs4.node) (d d' : string) :
  advertises item d -> advertises item d' -> d = d'.
Proof.
  intros (f & h & Ef & Eh & L) (f' & h' & Ef' & Eh' & L').
  rewrite Ef in Ef'. injection Ef' as <-.
  rewrite Eh in Eh'. injection Eh' as <-.
  apply link_identifier_iff in L, L'. congruence.
Qed.

(** The body of the loop of [get_page], in the words of the
    statements. *)
Lemma item_key_cases (item : Bs4.node) :
  (ListParser.item_key item = Ok None /\ forall d, ~ advertises item d) \/
  (exists d,
      advertises item d /\
      ListParser.item_key item = (n <- PyStr.int d ;; Ok (Some n))).
Proof.
  unfold ListParser.item_key, advertises.
  destruct (Bs4.find_name "a" item) as [found|] eqn:Ef.
  2:{ left. split; [reflexivity|]. intros d (f & h & E & _). discriminate. }
  destruct (Bs4.get "href" found) as [href|] eqn:Eh.
  2:{ left. split; [reflexivity|]. intros d (f & h & E & E' & _).
      injection E as <-. rewrite Eh in E'. discriminate. }
  destruct (PyStr.search_slash_digits href) as [group|] eqn:Eg.
  - right. exists group. split; [|reflexivity].
    exists found, href. split; [reflexivity|]. split; [exact Eh|].
    now apply link_identifier_iff.
  - left. split; [reflexivity|]. intros d (f & h & E & E' & L).
    injection E as <-. rewrite Eh in E'. injection E' as <-.
    apply link_identifier_iff in L. congruence.
Qed.

Lemma item_key_Some (item : Bs4.node) (k : Z) :
  ListParser.item_key item = Ok (Some k) <->
  exists d, advertises item d /\ PyStr.int d = Ok k.
Proof.
  destruct (item_key_cases item) as [[E Hno]|(d & Ha & E)]; rewrite E.
  - split; [discriminate|]. intros (d & Ha & _). now elim (Hno d).
  - split.
    + destruct (PyStr.int d) as [n|e] eqn:Ei; [|discriminate].
      intros H. injection H as <-. now exists d.
    + intros (d' & Ha' & Ei).
      rewrite (advertises_unique item d d' Ha Ha'), Ei. reflexivity.
Qed.

Lemma item_key_nonneg (item : Bs4.node) (k : Z) :
  ListParser.item_key item = Ok (Some k) -> (0 <= k)%Z.
Proof.
  intros H. apply item_key_Some in H as (d & _ & Ei).
  apply int_Ok in Ei as [-> _]. now apply int_of_digits_acc_nonneg.
Qed.

Lemma collect_keys_In (items : list Bs4.node) :
  forall nums,
    ListParser.collect_keys items = Ok nums ->
    forall k,
      In k nums <->
      exists item, In item items /\ ListParser.item_key item = Ok (Some k).
Proof.
  induction items as [|item items IH]; intros nums H k; simpl in H.
  - injection H as <-. split; [intros []|intros (it & [] & _)].
  - destruct (ListParser.item_key item) as [ko|e] eqn:E; [|discriminate].
    simpl in H.
    destruct (ListParser.collect_keys items) as [rest|e] eqn:Er;
      [|discriminate].
    simpl in H. injection H as <-. specialize (IH rest eq_refl k).
    destruct ko as [k'|]; simpl; rewrite IH; split.
    + intros [<-|(it & Hin & Hk)]; [exists item; auto|exists it; auto].
    + intros (it & [<-|Hin] & Hk).
      * left. congruence.
      * right. exists it. auto.
    + intros (it & Hin & Hk). exists it; auto.
    + intros (it & [<-|Hin] & Hk).
      * congruence.
      * exists it. auto.
Qed.

(** The loop of [get_page] collects the advertised keys when every
    identifier fits, and only then does it come to its end. *)
Lemma collect_keys_advertised (items : list Bs4.node) :
  (forall item d, In item items -> advertises item d ->
                  (String.length d <= PyStr.int_max_str_digits)%nat) ->
  exists nums,
    ListParser.collect_keys items = Ok nums /\
    advertised_keys items nums /\
    (nums = [] <-> forall item d, In item items -> ~ advertises item d).
Proof.
  induction items as [|item items IH]; intros Hfit.
  - exists []. split; [reflexivity|]. split; [constructor|].
    split; [intros _ item d []|reflexivity].
  - destruct IH as (rest & Er & Ha & Hnil).
    { intros it d Hin. apply Hfit. now right. }
    cbn [ListParser.collect_keys]. rewrite Er.
    destruct (item_key_cases item) as [[E Hno]|(d & Hd & E)]; rewrite E.
    + exists rest. split; [reflexivity|].
      split; [now apply adv_skip|].
      rewrite Hnil. split.
      * intros H it d' [<-|Hin]; [apply Hno|now apply H].
      * intros H it d' Hin. apply H. now right.
    + rewrite (int_within_limit d (Hfit item d (or_introl eq_refl) Hd)).
      exists (PyStr.int_of_digits d :: rest). split; [reflexivity|].
      split.
      * apply (adv_key item d); trivial.
        apply decimal_value_digits.
        destruct Hd as (f & h & _ & _ & L).
        now apply (link_identifier_digits h).
      * split; [discriminate|].
        intros H. now elim (H item d (or_introl eq_refl)).
Qed.

Lemma collect_keys_fit (items : list Bs4.node) :
  forall nums,
    ListParser.collect_keys items = Ok nums ->
    forall item d, In item items -> advertises item d ->
                   (String.length d <= PyStr.int_max_str_digits)%nat.
Proof.
  induction items as [|item items IH]; intros nums H it d Hin Ha;
    [destruct Hin|].
  cbn [ListParser.collect_keys] in H.
  destruct (ListParser.item_key item) as [ko|e] eqn:E; [|discriminate].
  simpl in H.
  destruct (ListParser.collect_keys items) as [rest|e] eqn:Er;
    [|discriminate].
  destruct Hin as [<-|Hin]; [|now apply (IH rest eq_refl it d)].
  destruct (item_key_cases item) as [[_ Hno]|(d' & Hd' & E')];
    [now elim (Hno d)|].
  rewrite (advertises_unique item d d' Ha Hd').
  rewrite E' in E. destruct (PyStr.int d') as [n|e] eqn:Ei; [|discriminate].
  now apply int_Ok in Ei.
Qed.

Section ListPage.
Variable http_get : string -> result Bs4.soup.
Variable template : string.

Lemma get_page_fetched (self : Parser.t) (num : Z) (page : Bs4.soup) :
  Parser.session self = true ->
  http_get (ListParser.get_url template num) = Ok page ->
  ListParser.get_page http_get template self num
  = ListParser.parse_page page.
Proof.
  intros Hs Hp.
  unfold ListParser.get_page, Parser.soup_page, Parser.get_html.
  rewrite Hs, Hp. reflexivity.
Qed.

(** C6, amended: once the page is fetched, and no identifier on it has
    more digits than [int] accepts, [get_page] returns the keys that the
    item containers advertise, in descending order, and they are not
    empty; it raises [ListParsingException] exactly when no item
    container has an identifier-bearing link, and raises nothing else. *)
Theorem get_page_sorted_nonempty_or_list_parsing_error
    (self : Parser.t) (num : Z) (page : Bs4.soup) :
  Parser.session self = true ->
  http_get (ListParser.get_url template num) = Ok page ->
  identifiers_fit page ->
  let containers := Bs4.find_all_class "top-item" page in
  (ListParser.get_page http_get template self num
     = Raise ListParsingException <-> markers_absent page) /\
  (~ markers_absent page ->
   exists keys advertised,
     ListParser.get_page http_get template self num = Ok keys /\
     keys <> [] /\ Sorted Z.ge keys /\
     advertised_keys containers advertised /\
     Permutation advertised keys) /\
  (forall keys,
     ListParser.get_page http_get template self num = Ok keys ->
     keys <> [] /\ Sorted Z.ge keys /\
     exists advertised,
       advertised_keys containers advertised /\
       Permutation advertised keys) /\
  (forall e,
     ListParser.get_page http_get template self num = Raise e ->
     e = ListParsingException).
Proof.
  intros Hs Hp Hfit containers.
  rewrite (get_page_fetched self num page Hs Hp).
  unfold ListParser.parse_page. fold containers.
  destruct (collect_keys_advertised containers Hfit)
    as (nums & Ec & Hadv & Hnil).
  rewrite Ec. cbn [Py.bind].
  assert (Hok : nums <> [] ->
                PyStr.sorted_reverse nums <> [] /\
                Sorted Z.ge (PyStr.sorted_reverse nums) /\
                Permutation nums (PyStr.sorted_reverse nums)).
  { intros Hne. split; [|split].
    - intros E. apply Hne. apply Permutation_nil.
      apply Permutation_sym. rewrite <- E. apply sorted_reverse_perm.
    - apply sorted_reverse_sorted.
    - apply sorted_reverse_perm. }
  destruct nums as [|k ks].
  - assert (Hab : markers_absent page) by exact (proj1 Hnil eq_refl).
    split; [split; [intros _; exact Hab|reflexivity]|].
    split; [intros H; now elim H|].
    split; [discriminate|]. intros e H. now injection H as <-.
  - destruct (Hok ltac:(discriminate)) as (H1 & H2 & H3).
    assert (Hpres : ~ markers_absent page).
    { intros Hab. pose proof (proj2 Hnil Hab). discriminate. }
    split; [split; [discriminate|intros Hab; now elim Hpres]|].
    split.
    + intros _. now exists (PyStr.sorted_reverse (k :: ks)), (k :: ks).
    + split; [|discriminate].
      intros keys H. injection H as <-.
      split; [exact H1|]. split; [exact H2|]. now exists (k :: ks).
Qed.

End ListPage.

Example get_page_on_sample :
  ListParser.get_page (fun _ => Ok sample_list_page) "list?page="
    (Parser.set_session Parser.init) 1 = Ok [40%Z; 12%Z; 7%Z].
Proof. reflexivity. Qed.

Lemma get_page_sorted_nonempty_or_list_parsing_error_witness :
  (ListParser.get_page (fun _ => Ok sample_list_page) "list?page="
     (Parser.set_session Parser.init) 1 = Raise ListParsingException
   <-> markers_absent sample_list_page) /\
  (~ markers_absent sample_list_page ->
   exists keys advertised,
     ListParser.get_page (fun _ => Ok sample_list_page) "list?page="
       (Parser.set_session Parser.init) 1 = Ok keys /\
     keys <> [] /\ Sorted Z.ge keys /\
     advertised_keys (Bs4.find_all_class "top-item" sample_list_page)
       advertised /\
     Permutation advertised keys) /\
  (forall keys,
     ListParser.get_page (fun _ => Ok sample_list_page) "list?page="
       (Parser.set_session Parser.init) 1 = Ok keys ->
     keys <> [] /\ Sorted Z.ge keys /\
     exists advertised,
       advertised_keys (Bs4.find_all_class "top-item" sample_list_page)
         advertised /\
       Permutation advertised keys) /\
  (forall e,
     ListParser.get_page (fun _ => Ok sample_list_page) "list?page="
       (Parser.set_session Parser.init) 1 = Raise e ->
     e = ListParsingException).
Proof.
  apply (get_page_sorted_nonempty_or_list_parsing_error
           (fun _ => Ok sample_list_page) "list?page="
           (Parser.set_session Parser.init) 1 sample_list_page);
    [reflexivity|reflexivity|].
  exact (collect_keys_fit (Bs4.find_all_class "top-item" sample_list_page)
           [12%Z; 40%Z; 7%Z] eq_refl).
Defined.

(** C6, as stated, fails: the item container of this page has an
    identifier-bearing link, with 4301 digits between the slashes, and
    [get_page] neither returns the keys of the page nor raises
    [ListParsingException]: the [ValueError] of [int] comes out of it. *)
Lemma overlong_identifier_is_a_value_error :
  ListParser.get_page (fun _ => Ok overlong_list_page) "list?page="
    (Parser.set_session Parser.init) 1 = Raise ValueError /\
  ~ markers_absent overlong_list_page /\
  (forall keys,
      ListParser.get_page (fun _ => Ok overlong_list_page) "list?page="
        (Parser.set_session Parser.init) 1 <> Ok keys) /\
  ListParser.get_page (fun _ => Ok overlong_list_page) "list?page="
    (Parser.set_session Parser.init) 1 <> Raise ListParsingException.
Proof.
  assert (E : ListParser.get_page (fun _ => Ok overlong_list_page)
                "list?page=" (Parser.set_session Parser.init) 1
              = Raise ValueError) by (vm_compute; reflexivity).
  rewrite E. split; [reflexivity|]. split; [|split; discriminate].
  intros H.
  apply (H (Bs4.Tag "div" ["top-item"] [] [anchor overlong_href])
           (string_repeat "9" 4301)); [now left|].
  exists (anchor overlong_href), overlong_href.
  split; [reflexivity|]. split; [reflexivity|].
  apply link_identifier_iff. vm_compute. reflexivity.
Qed.

(* ===================================================================== *)
(** ** Destination paths *)
(* ===================================================================== *)

(** A match of the pattern of [get_page]: group 1 is a non-empty run of
    digits that stands between two slashes in the string. *)
Lemma search_slash_digits_sound (s group : string) :
  PyStr.search_slash_digits s = Some group ->
  group <> "" /\
  forall_chars PyStr.is_digit group = true /\
  occurs ("/" ++ group ++ "/") s.
Proof.
  intros H. apply search_slash_digits_leftmost in H
    as (pre & post & (E & Hn & Hd) & _).
  split; [exact Hn|]. split; [exact Hd|].
  exists pre, post. rewrite E. now rewrite !string_app_assoc.
Qed.

Lemma string_of_uint_digits (d : Decimal.uint) :
  forall_chars key_char (NilEmpty.string_of_uint d) = true.
Proof. induction d; simpl; trivial. Qed.

Lemma str_of_int_chars (n : Z) :
  forall_chars key_char (PyStr.str_of_int n) = true.
Proof.
  unfold PyStr.str_of_int.
  destruct (Z.to_int n) as [d|d]; simpl;
    destruct d; simpl; trivial; apply string_of_uint_digits.
Qed.

Lemma key_char_not_N (c : ascii) : key_char c = true -> not_N c = true.
Proof.
  unfold key_char, not_N, PyStr.is_digit.
  destruct (Ascii.eqb_spec c "N") as [->|]; [discriminate|reflexivity].
Qed.

(** [replace("Normal", new)] passes over a head without the letter N. *)
Lemma replace_Normal_head (new pre rest : string) :
  forall_chars not_N pre = true ->
  PyStr.replace "Normal" new (pre ++ rest)
  = pre ++ PyStr.replace "Normal" new rest.
Proof.
  unfold PyStr.replace.
  induction pre as [|c pre IH]; intros H; [reflexivity|].
  simpl in H. apply andb_true_iff in H as [Hc Hpre].
  change (String c pre ++ rest) with (String c (pre ++ rest)).
  cbn [PyStr.replace_from]. cbn [prefix].
  destruct (ascii_dec "N" c) as [<-|_]; [discriminate|].
  rewrite (IH Hpre). reflexivity.
Qed.

(** A pattern without the character [sep] does not match across it. *)
Lemma prefix_sep (sep : ascii) (old : string) :
  forall_chars (fun c => negb (Ascii.eqb c sep)) old = true ->
  old <> "" ->
  forall x b, prefix old (x ++ String sep b) = prefix old x.
Proof.
  intros Ho Hne. destruct old as [|a old]; [now elim Hne|]. clear Hne.
  revert a Ho. induction old as [|a' old IH]; intros a Ho x b;
    simpl in Ho; apply andb_true_iff in Ho as [Ha Ho];
    apply negb_true_iff in Ha; apply Ascii.eqb_neq in Ha.
  - destruct x as [|y x]; simpl.
    + destruct (ascii_dec a sep); [contradiction|reflexivity].
    + destruct (ascii_dec a y); [|reflexivity]. now destruct x.
  - destruct x as [|y x].
    + simpl. destruct (ascii_dec a sep); [contradiction|reflexivity].
    + change (String y x ++ String sep b) with (String y (x ++ String sep b)).
      cbn [prefix]. destruct (ascii_dec a y); [|reflexivity].
      apply IH. exact Ho.
Qed.

Lemma prefix_length (p s : string) :
  prefix p s = true -> (String.length p <= String.length s)%nat.
Proof.
  intros H. apply prefix_split in H as [t ->].
  induction p as [|c p IH]; simpl; [apply Nat.le_0_l|now apply le_n_S].
Qed.

Lemma replace_from_sep (old new : string) (sep : ascii) (b : string) :
  forall_chars (fun c => negb (Ascii.eqb c sep)) old = true ->
  old <> "" ->
  forall x skip,
    (skip <= String.length x)%nat ->
    PyStr.replace_from old new skip (x ++ String sep b)
    = PyStr.replace_from old new skip x
        ++ String sep (PyStr.replace_from old new 0 b).
Proof.
  intros Ho Hne. induction x as [|y x IH]; intros skip Hs.
  - assert (skip = 0%nat) as -> by (simpl in Hs; lia).
    change ("" ++ String sep b) with (String sep b).
    cbn [PyStr.replace_from append].
    pose proof (prefix_sep sep old Ho Hne "" b) as P. simpl append in P.
    rewrite P. destruct old; [now elim Hne|reflexivity].
  - change (String y x ++ String sep b) with (String y (x ++ String sep b)).
    cbn [PyStr.replace_from]. destruct skip as [|k].
    + pose proof (prefix_sep sep old Ho Hne (String y x) b) as P.
      change (String y x ++ String sep b)
        with (String y (x ++ String sep b)) in P.
      rewrite P. destruct (prefix old (String y x)) eqn:Ep.
      * rewrite IH, string_app_assoc; [reflexivity|].
        apply prefix_length in Ep. simpl in Ep. lia.
      * rewrite IH; [reflexivity|apply Nat.le_0_l].
    + apply IH. simpl in Hs. lia.
Qed.

Lemma replace_from_absent (old new s : string) :
  PyStr.search_literal old s = false ->
  PyStr.replace_from old new 0 s = s.
Proof.
  induction s as [|c s IH]; [reflexivity|].
  rewrite search_literal_unfold. intros H.
  apply orb_false_iff in H as [Hp Hs].
  cbn [PyStr.replace_from]. now rewrite Hp, IH.
Qed.

Lemma replace_absent (s : string) :
  ~ occurs "Normal" s -> PyStr.replace "Normal" "Idolized" s = s.
Proof.
  intros H. unfold PyStr.replace. apply replace_from_absent.
  destruct (PyStr.search_literal "Normal" s) eqn:E; [|reflexivity].
  elim H. now apply search_literal_occurs.
Qed.

(** C5, as stated, fails for the idolized slot: two cards with the same
    key, the same fields and the same idolized URL get different idolized
    paths, and the idolized path of the first does not carry the
    extension of the idolized URL. *)
Lemma idolized_path_ignores_idolized_extension :
  Card.key sample_card_png_jpg = Card.key sample_card_jpg_jpg /\
  Card.unit sample_card_png_jpg = Card.unit sample_card_jpg_jpg /\
  Card.idol sample_card_png_jpg = Card.idol sample_card_jpg_jpg /\
  Card.idolized_url sample_card_png_jpg
    = Card.idolized_url sample_card_jpg_jpg /\
  Pathlib.suffix (Pathlib.parse (Card.idolized_url sample_card_png_jpg))
    = ".jpg" /\
  nth_error (Card.get_paths (consts := sample_consts) sample_card_png_jpg
               (Pathlib.parse "/srv/sifas")) 1
    = Some (Pathlib.mkPath "/" ["srv"; "sifas"; "cards";
                                "5_Muse_Maki_Idolized.png"]) /\
  nth_error (Card.get_paths (consts := sample_consts) sample_card_jpg_jpg
               (Pathlib.parse "/srv/sifas")) 1
    = Some (Pathlib.mkPath "/" ["srv"; "sifas"; "cards";
                                "5_Muse_Maki_Idolized.jpg"]).
Proof. repeat split; reflexivity. Qed.

Section DestinationPaths.
Context {consts : Consts}.

(** The name of the idolized file, part by part: the label is replaced,
    and so is every other occurrence of ["Normal"]. *)
Lemma idolized_path_parts (c : Card.t) :
  Card.idolized_path c
  = PyStr.str_of_int (Card.key c) ++ "_"
      ++ PyStr.replace "Normal" "Idolized" (Card.unit c) ++ "_"
      ++ PyStr.replace "Normal" "Idolized" (Card.idol c) ++ "_Idolized"
      ++ PyStr.replace "Normal" "Idolized"
           (Pathlib.suffix (Pathlib.parse (Card.normal_url c))).
Proof.
  unfold Card.idolized_path, Card.normal_path, Card.file_name.
  set (k := PyStr.str_of_int (Card.key c)).
  set (ext := Pathlib.suffix (Pathlib.parse (Card.normal_url c))).
  assert (Hk : forall_chars not_N (k ++ "_") = true).
  { rewrite forall_chars_app, andb_true_iff. split; [|reflexivity].
    apply (forall_chars_weaken key_char); [apply key_char_not_N|].
    apply str_of_int_chars. }
  assert (Hsep : forall_chars (fun c => negb (Ascii.eqb c "_")) "Normal"
                 = true) by reflexivity.
  assert (Hne : "Normal" <> "") by discriminate.
  replace ((k ++ "_" ++ Card.unit c ++ "_" ++ Card.idol c) ++ "_Normal" ++ ext)
    with ((k ++ "_")
            ++ (Card.unit c
                  ++ String "_" (Card.idol c ++ String "_" ("Normal" ++ ext))))
    by (rewrite !string_app_assoc; reflexivity).
  rewrite (replace_Normal_head "Idolized" (k ++ "_") _ Hk).
  unfold PyStr.replace.
  rewrite (replace_from_sep "Normal" "Idolized" "_" _ Hsep Hne (Card.unit c) 0)
    by apply Nat.le_0_l.
  rewrite (replace_from_sep "Normal" "Idolized" "_" _ Hsep Hne (Card.idol c) 0)
    by apply Nat.le_0_l.
  assert (El : PyStr.replace_from "Normal" "Idolized" 0 ("Normal" ++ ext)
               = "Idolized" ++ PyStr.replace_from "Normal" "Idolized" 0 ext).
  { change ("Normal" ++ ext) with (String "N" ("ormal" ++ ext)).
    cbn [PyStr.replace_from].
    change (String "N" ("ormal" ++ ext)) with ("Normal" ++ ext).
    rewrite prefix_app. reflexivity. }
  rewrite El, !string_app_assoc. reflexivity.
Qed.

(** C5, amended: one path per URL slot; the paths depend on the root, the
    key, unit and idol (for a card) and the extension of the primary URL
    only; each is the kind's directory joined with a file name that
    starts with the key.  The normal file of a card is named by key,
    unit, idol, the label and the extension of the normal URL; where
    neither unit, idol nor that extension contains ["Normal"], the
    idolized file has the same name with the other label, and so the
    extension of the normal URL.  For a still this is stated where
    [get_paths] returns, that is when the URL slot holds a string. *)
Theorem get_paths_determined_by_key_fields_and_primary_extension :
  (forall (c : Card.t) (root : Pathlib.Path),
      let base := Pathlib.joinpath root CARD_RESULTS_DIR in
      let ext := Pathlib.suffix (Pathlib.parse (Card.normal_url c)) in
      List.length (Card.get_paths c root) = List.length (Card.get_urls c) /\
      nth_error (Card.get_paths c root) 0
      = Some (Pathlib.joinpath base
                (PyStr.str_of_int (Card.key c) ++ "_" ++ Card.unit c ++ "_"
                   ++ Card.idol c ++ "_Normal" ++ ext)) /\
      (exists rest,
          nth_error (Card.get_paths c root) 1
          = Some (Pathlib.joinpath base
                    (PyStr.str_of_int (Card.key c) ++ "_" ++ rest))) /\
      (~ occurs "Normal" (Card.unit c) ->
       ~ occurs "Normal" (Card.idol c) ->
       ~ occurs "Normal" ext ->
       nth_error (Card.get_paths c root) 1
       = Some (Pathlib.joinpath base
                 (PyStr.str_of_int (Card.key c) ++ "_" ++ Card.unit c ++ "_"
                    ++ Card.idol c ++ "_Idolized" ++ ext)))) /\
  (forall (c c' : Card.t) (root : Pathlib.Path),
      Card.key c = Card.key c' ->
      Card.unit c = Card.unit c' ->
      Card.idol c = Card.idol c' ->
      Pathlib.suffix (Pathlib.parse (Card.normal_url c))
        = Pathlib.suffix (Pathlib.parse (Card.normal_url c')) ->
      Card.get_paths c root = Card.get_paths c' root) /\
  (forall (st : Still.t) (root : Pathlib.Path) (u : string),
      Still.url st = PStr u ->
      exists p,
        Still.get_paths st root = Ok [p] /\
        List.length [p] = List.length (Still.get_urls st) /\
        p = Pathlib.joinpath (Pathlib.joinpath root STILL_RESULTS_DIR)
              (PyStr.str_of_int (Still.key st) ++ "_" ++ "Still"
                 ++ Pathlib.suffix (Pathlib.parse u))) /\
  (forall (st st' : Still.t) (root : Pathlib.Path) (u u' : string),
      Still.url st = PStr u ->
      Still.url st' = PStr u' ->
      Still.key st = Still.key st' ->
      Pathlib.suffix (Pathlib.parse u) = Pathlib.suffix (Pathlib.parse u') ->
      Still.get_paths st root = Still.get_paths st' root).
Proof.
  split; [|split; [|split]].
  - intros c root base ext. split; [reflexivity|].
    split; [|split].
    + unfold Card.get_paths. cbn [nth_error].
      unfold Card.normal_path, Card.file_name. fold base. fold ext.
      now rewrite !string_app_assoc.
    + unfold Card.get_paths. cbn [nth_error]. fold base.
      rewrite idolized_path_parts. eexists. reflexivity.
    + intros Hu Hi He. unfold Card.get_paths. cbn [nth_error]. fold base.
      rewrite idolized_path_parts. fold ext.
      now rewrite (replace_absent _ Hu), (replace_absent _ Hi),
        (replace_absent _ He).
  - intros c c' root Hk Hu Hi Hs.
    unfold Card.get_paths, Card.idolized_path, Card.normal_path,
      Card.file_name.
    now rewrite Hk, Hu, Hi, Hs.
  - intros st root u Hu. unfold Still.get_paths, Still.file_name.
    rewrite Hu. eexists. split; [reflexivity|]. split; [reflexivity|].
    rewrite !string_app_assoc. reflexivity.
  - intros st st' root u u' Hu Hu' Hk Hs.
    unfold Still.get_paths, Still.file_name.
    now rewrite Hu, Hu', Hk, Hs.
Qed.

End DestinationPaths.

Lemma get_paths_determined_by_key_fields_and_primary_extension_witness :
  nth_error (Card.get_paths (consts := sample_consts) sample_card_png_jpg
               (Pathlib.parse "/srv/sifas")) 1
  = Some (Pathlib.joinpath
            (Pathlib.joinpath (Pathlib.parse "/srv/sifas") "cards")
            ("5" ++ "_" ++ "Muse" ++ "_" ++ "Maki" ++ "_Idolized" ++ ".png")).
Proof.
  apply (proj2 (proj2 (proj2
           (proj1 (@get_paths_determined_by_key_fields_and_primary_extension
                     sample_consts)
              sample_card_png_jpg (Pathlib.parse "/srv/sifas")))));
    intros H; apply search_literal_occurs in H; discriminate.
Defined.

(* ===================================================================== *)
(** ** Steps, loops and the tasks of [asyncio.gather] *)
(* ===================================================================== *)

Section Steps.
Context {T : Type}.

Lemma bindM_invariant {A B} (P : Downloader.state T -> Prop)
    (m : Downloader.M T A) (k : A -> Downloader.M T B) :
  (forall s, P s -> P (fst (m s))) ->
  (forall a s, P s -> P (fst (k a s))) ->
  forall s, P s -> P (fst (Downloader.bindM m k s)).
Proof.
  intros Hm Hk s Hs. unfold Downloader.bindM.
  specialize (Hm s Hs). destruct (m s) as [s1 [a|e]]; simpl in *.
  - now apply Hk.
  - exact Hm.
Qed.

Lemma for_each_invariant {A} (P : Downloader.state T -> Prop) (l : list A)
    (body : A -> Downloader.M T Datatypes.unit) :
  (forall x, In x l -> forall s, P s -> P (fst (body x s))) ->
  forall s, P s -> P (fst (Downloader.for_each l body s)).
Proof.
  induction l as [|x l IH]; intros Hb s Hs; simpl; [exact Hs|].
  apply bindM_invariant; trivial.
  - apply Hb. now left.
  - intros _ s1 H1. apply IH; trivial. intros y Hy. apply Hb. now right.
Qed.

Lemma gather_cons {A} (task : Downloader.M T A)
    (tasks : list (Downloader.M T A)) (s : Downloader.state T) :
  Downloader.gather (task :: tasks) s
  = (fst (Downloader.gather tasks (fst (task s))),
     a <- snd (task s) ;;
     l <- snd (Downloader.gather tasks (fst (task s))) ;;
     Ok (a :: l)).
Proof.
  cbn [Downloader.gather]. destruct (task s) as [s1 r]. cbn [fst snd].
  destruct (Downloader.gather tasks s1). reflexivity.
Qed.

(** What every task keeps, whether it returns or raises, [gather]
    keeps. *)
Lemma gather_invariant {A} (P : Downloader.state T -> Prop)
    (tasks : list (Downloader.M T A)) :
  (forall task, In task tasks -> forall s, P s -> P (fst (task s))) ->
  forall s, P s -> P (fst (Downloader.gather tasks s)).
Proof.
  induction tasks as [|t ts IH]; intros Ht s Hs; [exact Hs|].
  rewrite gather_cons. cbn [fst].
  apply IH; [intros t' Hin; apply Ht; now right|].
  apply Ht; [now left|exact Hs].
Qed.

(** When [gather] returns, every task has returned. *)
Lemma gather_Ok_cons {A} (task : Downloader.M T A)
    (tasks : list (Downloader.M T A)) (s s' : Downloader.state T)
    (l : list A) :
  Downloader.gather (task :: tasks) s = (s', Ok l) ->
  exists s1 a l',
    task s = (s1, Ok a) /\
    Downloader.gather tasks s1 = (s', Ok l') /\ l = a :: l'.
Proof.
  cbn [Downloader.gather].
  destruct (task s) as [s1 [a|e]].
  - destruct (Downloader.gather tasks s1) as [s2 [l'|e]] eqn:E; simpl;
      [|discriminate].
    intros H. injection H as Hs Hl. subst. now exists s1, a, l'.
  - destruct (Downloader.gather tasks s1) as [s2 rs]; discriminate.
Qed.

End Steps.

(* ===================================================================== *)
(** ** The download phase *)
(* ===================================================================== *)

Lemma NoDup_app_disjoint {A} (l1 l2 : list A) :
  NoDup (l1 ++ l2) -> forall a, In a l1 -> ~ In a l2.
Proof.
  induction l1 as [|x l1 IH]; intros H a Hin; [destruct Hin|].
  simpl in H. inversion H as [|y l Hx Hn]; subst.
  destruct Hin as [<-|Hin].
  - intros H2. apply Hx, in_or_app. now right.
  - now apply IH.
Qed.

Lemma path_eqb_eq (p q : Pathlib.Path) : Pathlib.eqb p q = true <-> p = q.
Proof.
  unfold Pathlib.eqb. destruct p as [r ps], q as [r' ps']. simpl.
  destruct (list_eq_dec string_dec ps ps') as [->|Hne].
  - rewrite andb_true_r, String.eqb_eq.
    split; [now intros ->|]. intros E. now injection E.
  - rewrite andb_false_r. split; [discriminate|].
    intros E. injection E as _ E. contradiction.
Qed.

Lemma path_eqb_refl (p : Pathlib.Path) : Pathlib.eqb p p = true.
Proof. now apply path_eqb_eq. Qed.

Section DownloadPhase.
Context {T : Type} {img_type : ImgType T}.
Variable path : Pathlib.Path.
Variable http_read : string -> result string.
Variable open_wb : Pathlib.Path -> result Datatypes.unit.

Abbreviation state := (Downloader.state T).
Abbreviation create_image_file :=
  (Downloader.create_image_file http_read open_wb).
Abbreviation download_images_from :=
  (Downloader.download_images_from http_read open_wb).
Abbreviation get_images := (Downloader.get_images path http_read open_wb).
Abbreviation download := (Downloader.download path http_read open_wb).
Abbreviation slot_succeeds := (Spec.slot_succeeds http_read open_wb).
Abbreviation fetched := (Spec.fetched http_read open_wb).
Abbreviation due := (@Spec.due T img_type).
Abbreviation goes_through := (Spec.goes_through http_read open_wb).
Abbreviation reached := (Spec.reached http_read open_wb).
Abbreviation destinations := (Spec.destinations path).
Abbreviation wrote := (@Spec.wrote T).
Abbreviation grows := (@Spec.grows T).
Abbreviation download_tasks := (Spec.download_tasks path http_read open_wb).

Lemma grows_refl (s : state) : grows s s.
Proof. repeat split. now exists []. Qed.

Lemma grows_trans (s1 s2 s3 : state) :
  grows s1 s2 -> grows s2 s3 -> grows s1 s3.
Proof.
  intros (Ho & Hu & l & Hf) (Ho' & Hu' & l' & Hf').
  repeat split; try congruence.
  exists (l' ++ l)%list. rewrite Hf', Hf. apply app_assoc.
Qed.

Lemma grows_exists (s s' : state) (p : Pathlib.Path) :
  grows s s' ->
  Downloader.exists_ p s = true -> Downloader.exists_ p s' = true.
Proof.
  intros (_ & _ & l & Hf) H. unfold Downloader.exists_ in *.
  rewrite Hf, existsb_app, H. apply orb_true_r.
Qed.

Lemma write_to_file_unfold (dest : Pathlib.Path) (u : Url) (s : state) :
  Downloader.write_to_file http_read open_wb dest u s =
  match http_read (Downloader.address u) with
  | Ok data =>
      match open_wb dest with
      | Ok _ => (Downloader.write_file dest data
                   (Downloader.request (Downloader.address u) s), Ok tt)
      | Raise e => (Downloader.request (Downloader.address u) s, Raise e)
      end
  | Raise e => (Downloader.request (Downloader.address u) s, Raise e)
  end.
Proof.
  unfold Downloader.write_to_file, Downloader.bindM, Downloader.modify,
    Downloader.lift.
  destruct (http_read _); [|reflexivity].
  destruct (open_wb dest); reflexivity.
Qed.

Lemma create_image_file_unfold (p : Pathlib.Path) (item : T) (i : nat)
    (s : state) :
  create_image_file p item i s =
  if negb (Downloader.exists_ p s)
     || Downloader.in_updateables (key item) s
  then match nth_error (get_urls item) i with
       | Some u =>
           match Downloader.write_to_file http_read open_wb p u s with
           | (s', Ok _) =>
               (Downloader.print (Downloader.downloaded_message item i) s',
                Ok tt)
           | (s', Raise e) => (s', Raise e)
           end
       | None => (s, Raise IndexError)
       end
  else (s, Ok tt).
Proof.
  unfold Downloader.create_image_file.
  destruct (negb _ || _); [|reflexivity].
  unfold Downloader.bindM, Downloader.lift, Downloader.index,
    Downloader.modify.
  destruct (nth_error (get_urls item) i); [|reflexivity].
  destruct (Downloader.write_to_file _ _ _ _ _) as [s' [[]|e]]; reflexivity.
Qed.

Lemma write_to_file_grows (dest : Pathlib.Path) (u : Url) (s : state) :
  grows s (fst (Downloader.write_to_file http_read open_wb dest u s)).
Proof.
  rewrite write_to_file_unfold.
  destruct (http_read _); [destruct (open_wb dest)|]; simpl;
    repeat split; try (now exists []).
  now exists [(dest, a)].
Qed.

Lemma create_image_file_grows (p : Pathlib.Path) (item : T) (i : nat)
    (s : state) :
  grows s (fst (create_image_file p item i s)).
Proof.
  rewrite create_image_file_unfold.
  destruct (negb _ || _); [|apply grows_refl].
  destruct (nth_error _ _) as [u|]; [|apply grows_refl].
  pose proof (write_to_file_grows p u s) as G.
  destruct (Downloader.write_to_file _ _ _ _ _) as [s' [[]|e]]; simpl in *;
    [|exact G].
  destruct G as (Ho & Hu & l & Hf). repeat split; trivial. now exists l.
Qed.

Lemma download_images_from_grows (paths : list Pathlib.Path) (item : T) :
  forall i s, grows s (fst (download_images_from i paths item s)).
Proof.
  induction paths as [|p paths IH]; intros i s; simpl.
  - apply grows_refl.
  - unfold Downloader.bindM.
    pose proof (create_image_file_grows p item i s) as G.
    destruct (create_image_file p item i s) as [s1 [[]|e]]; simpl in *;
      [|exact G].
    eapply grows_trans; [exact G|apply IH].
Qed.

(** What the handler of [get_images] makes of the outcome of
    [download_images]. *)
Lemma get_images_unfold (item : T) (paths : list Pathlib.Path) (s : state) :
  get_paths item path = Ok paths ->
  get_images item s =
  match download_images_from 0 paths item s with
  | (s1, Ok _) => (s1, Ok tt)
  | (s1, Raise e) =>
      (Downloader.print (Downloader.failure_message item e) s1, Ok tt)
  end.
Proof.
  intros Hp. unfold Downloader.get_images, Downloader.bindM, Downloader.lift,
    Downloader.try_except, Downloader.download_images, Downloader.modify.
  rewrite Hp.
  destruct (download_images_from 0 paths item s) as [s1 [[]|e]]; reflexivity.
Qed.

Lemma get_images_grows (item : T) (paths : list Pathlib.Path) (s : state) :
  get_paths item path = Ok paths ->
  grows s (fst (get_images item s)).
Proof.
  intros Hp. rewrite (get_images_unfold item paths s Hp).
  pose proof (download_images_from_grows paths item 0 s) as G.
  destruct (download_images_from 0 paths item s) as [s1 [[]|e]];
    simpl in *; [exact G|].
  destruct G as (Ho & Hu & l & Hf). repeat split; trivial. now exists l.
Qed.

Lemma create_image_file_skips (p : Pathlib.Path) (item : T) (i : nat)
    (s : state) :
  negb (Downloader.exists_ p s) || Downloader.in_updateables (key item) s
    = false ->
  create_image_file p item i s = (s, Ok tt).
Proof. intros H. rewrite create_image_file_unfold, H. reflexivity. Qed.

Lemma create_image_file_writes (p : Pathlib.Path) (item : T) (i : nat)
    (s : state) (u : Url) (data : string) :
  negb (Downloader.exists_ p s) || Downloader.in_updateables (key item) s
    = true ->
  nth_error (get_urls item) i = Some u ->
  http_read (Downloader.address u) = Ok data ->
  open_wb p = Ok tt ->
  create_image_file p item i s
  = (Downloader.print (Downloader.downloaded_message item i)
       (Downloader.write_file p data (Downloader.request (Downloader.address u) s)),
     Ok tt).
Proof.
  intros Hc Hu Hr Ho.
  rewrite create_image_file_unfold, Hc, Hu, write_to_file_unfold, Hr, Ho.
  reflexivity.
Qed.

Lemma create_image_file_success (p : Pathlib.Path) (item : T) (i : nat)
    (s : state) :
  slot_succeeds item i p ->
  exists s', create_image_file p item i s = (s', Ok tt) /\
             Downloader.exists_ p s' = true.
Proof.
  intros (u & data & Hu & Hr & Ho).
  destruct (negb (Downloader.exists_ p s)
            || Downloader.in_updateables (key item) s) eqn:Hc.
  - rewrite (create_image_file_writes p item i s u data Hc Hu Hr Ho).
    eexists. split; [reflexivity|].
    unfold Downloader.exists_. simpl. now rewrite path_eqb_refl.
  - rewrite (create_image_file_skips p item i s Hc).
    exists s. split; [reflexivity|].
    apply orb_false_iff in Hc as [Hc _]. now apply negb_false_iff in Hc.
Qed.

Lemma download_images_from_success (paths : list Pathlib.Path) (item : T) :
  forall i s,
    (forall j p, nth_error paths j = Some p -> slot_succeeds item (i + j) p) ->
    exists s', download_images_from i paths item s = (s', Ok tt) /\
               forall p, In p paths -> Downloader.exists_ p s' = true.
Proof.
  induction paths as [|p paths IH]; intros i s H; simpl.
  - exists s. split; [reflexivity|]. intros p [].
  - unfold Downloader.bindM.
    destruct (create_image_file_success p item i s) as (s1 & E1 & X1).
    { specialize (H 0%nat p eq_refl). now rewrite Nat.add_0_r in H. }
    rewrite E1.
    destruct (IH (S i) s1) as (s2 & E2 & X2).
    { intros j q Hq. specialize (H (S j) q Hq).
      now rewrite Nat.add_succ_r in H. }
    exists s2. split; [exact E2|].
    intros q [<-|Hq]; [|now apply X2].
    apply (grows_exists s1); [|exact X1].
    pose proof (download_images_from_grows paths item (S i) s1) as G.
    now rewrite E2 in G.
Qed.

Lemma download_images_from_skips (paths : list Pathlib.Path) (item : T) :
  forall i s,
    (forall p, In p paths -> Downloader.exists_ p s = true) ->
    Downloader.in_updateables (key item) s = false ->
    download_images_from i paths item s = (s, Ok tt).
Proof.
  induction paths as [|p paths IH]; intros i s Hx Hu; simpl; [reflexivity|].
  unfold Downloader.bindM.
  rewrite create_image_file_skips.
  - apply IH; [|exact Hu]. intros q Hq. apply Hx. now right.
  - rewrite Hu, (Hx p (or_introl eq_refl)). reflexivity.
Qed.

Lemma download_gathers (s s' : state) (res : list Datatypes.unit) :
  Downloader.gather (download_tasks (Downloader.objs s)) s = (s', Ok res) ->
  download s = (s', Ok tt).
Proof.
  unfold Spec.download_tasks, Downloader.download, Downloader.bindM.
  now intros ->.
Qed.

Lemma download_tasks_total (l : list (Z * T)) :
  forall s,
    (forall e, In e l -> exists paths, get_paths (snd e) path = Ok paths) ->
    exists s' res,
      Downloader.gather (download_tasks l) s = (s', Ok res) /\ grows s s' /\
      forall e paths,
        In e l ->
        get_paths (snd e) path = Ok paths ->
        (forall j p, nth_error paths j = Some p -> slot_succeeds (snd e) j p) ->
        forall p, In p paths -> Downloader.exists_ p s' = true.
Proof.
  induction l as [|e0 l IH]; intros s Hp.
  - exists s, []. split; [reflexivity|]. split; [apply grows_refl|].
    intros e paths [].
  - destruct (Hp e0 (or_introl eq_refl)) as (paths0 & Hp0).
    pose proof (get_images_grows (snd e0) paths0 s Hp0) as G0.
    pose proof (get_images_unfold (snd e0) paths0 s Hp0) as U0.
    destruct (get_images (snd e0) s) as [s1 r1] eqn:E1. simpl in G0.
    assert (Hr1 : r1 = Ok tt).
    { destruct (download_images_from 0 paths0 (snd e0) s) as [sx [[]|ex]];
        now injection U0 as _ <-. }
    subst r1.
    destruct (IH s1) as (s2 & res & E2 & G2 & X2).
    { intros e He. apply Hp. now right. }
    exists s2, (tt :: res). split; [|split].
    + unfold Spec.download_tasks in *. cbn [map Downloader.gather].
      rewrite E1, E2. reflexivity.
    + eapply grows_trans; eauto.
    + intros e paths [<-|He] Hpe Hs p Hin; [|eapply X2; eauto].
      apply (grows_exists s1); [exact G2|].
      rewrite Hp0 in Hpe. injection Hpe as <-.
      destruct (download_images_from_success paths0 (snd e0) 0 s Hs)
        as (sx & Ex & Xx).
      rewrite Ex in U0. injection U0 as <-. now apply Xx.
Qed.

Lemma download_tasks_skip (l : list (Z * T)) (s : state) :
  (forall e, In e l ->
             Downloader.in_updateables (key (snd e)) s = false /\
             exists paths,
               get_paths (snd e) path = Ok paths /\
               forall p, In p paths -> Downloader.exists_ p s = true) ->
  exists res, Downloader.gather (download_tasks l) s = (s, Ok res).
Proof.
  induction l as [|e0 l IH]; intros H; [now exists []|].
  destruct (H e0 (or_introl eq_refl)) as (Hu & paths & Hp & Hx).
  destruct IH as [res E]; [intros e He; apply H; now right|].
  exists (tt :: res).
  unfold Spec.download_tasks in *. cbn [map Downloader.gather].
  rewrite (get_images_unfold (snd e0) paths s Hp).
  rewrite (download_images_from_skips paths (snd e0) 0 s Hx Hu).
  rewrite E. reflexivity.
Qed.

(** C7: an exception raised while the files of one item are downloaded
    is caught in [get_images], which prints a line with the key of the
    item and the text of the exception and returns normally; [download]
    therefore returns normally too, and every item whose own requests and
    writes succeed has all its files on disk afterwards, whatever
    happened to the other items. *)
Theorem download_failure_is_caught_per_item :
  (forall (item : T) (paths : list Pathlib.Path) (s : state),
      get_paths item path = Ok paths ->
      exists s',
        get_images item s = (s', Ok tt) /\
        forall s1 e,
          Downloader.download_images http_read open_wb paths item s
            = (s1, Raise e) ->
          s' = Downloader.print
                 ("Couldn't download card " ++ PyStr.str_of_int (key item)
                    ++ ": " ++ exn_message e ++ ".") s1) /\
  (forall s : state,
      (forall k item, In (k, item) (Downloader.objs s) ->
                      exists paths, get_paths item path = Ok paths) ->
      exists s',
        download s = (s', Ok tt) /\
        forall k item paths,
          In (k, item) (Downloader.objs s) ->
          get_paths item path = Ok paths ->
          (forall j p, nth_error paths j = Some p -> slot_succeeds item j p) ->
          forall p, In p paths -> Downloader.exists_ p s' = true).
Proof.
  split.
  - intros item paths s Hp.
    rewrite (get_images_unfold item paths s Hp).
    unfold Downloader.download_images.
    destruct (download_images_from 0 paths item s) as [s1 [[]|e]].
    + eexists. split; [reflexivity|]. discriminate.
    + eexists. split; [reflexivity|].
      intros s1' e' H. now injection H as <- <-.
  - intros s Hp.
    destruct (download_tasks_total (Downloader.objs s) s)
      as (s' & res & E & _ & X).
    { intros [k item] He. now apply (Hp k item). }
    exists s'. split; [exact (download_gathers s s' res E)|].
    intros k item paths Hin. apply (X (k, item) paths Hin).
Qed.

(** *** What a pass writes *)

Lemma wrote_nil (s : state) : wrote [] s s.
Proof. repeat split. Qed.

Lemma wrote_trans (new1 new2 : list (Pathlib.Path * string))
    (s s1 s2 : state) :
  wrote new1 s s1 -> wrote new2 s1 s2 -> wrote (new2 ++ new1)%list s s2.
Proof.
  intros (F1 & W1 & O1 & U1) (F2 & W2 & O2 & U2).
  repeat split; try congruence.
  - rewrite F2, F1. apply app_assoc.
  - rewrite W2, W1, map_app. apply app_assoc.
Qed.

Lemma wrote_request (new : list (Pathlib.Path * string)) (s s' : state)
    (url : string) :
  wrote new s s' -> wrote new s (Downloader.request url s').
Proof. intros (F & W & O & U). repeat split; assumption. Qed.

Lemma wrote_print (new : list (Pathlib.Path * string)) (s s' : state)
    (line : string) :
  wrote new s s' -> wrote new s (Downloader.print line s').
Proof. intros (F & W & O & U). repeat split; assumption. Qed.

Lemma exists_kept (q : Pathlib.Path) (new : list (Pathlib.Path * string))
    (s s' : state) :
  wrote new s s' -> ~ In q (map fst new) ->
  Downloader.exists_ q s' = Downloader.exists_ q s.
Proof.
  intros (F & _) Hq. unfold Downloader.exists_. rewrite F, existsb_app.
  replace (existsb (fun e => Pathlib.eqb (fst e) q) new) with false;
    [reflexivity|].
  symmetry. apply not_true_iff_false. intros E.
  apply existsb_exists in E as (e & Hin & Heq).
  apply path_eqb_eq in Heq. subst q. apply Hq. now apply in_map.
Qed.

Lemma exists_written (q : Pathlib.Path) (new : list (Pathlib.Path * string))
    (s s' : state) :
  wrote new s s' -> In q (map fst new) -> Downloader.exists_ q s' = true.
Proof.
  intros (F & _) Hq. unfold Downloader.exists_. rewrite F, existsb_app.
  apply in_map_iff in Hq as (e & <- & Hin).
  apply orb_true_iff. left. apply existsb_exists.
  exists e. split; [exact Hin|apply path_eqb_refl].
Qed.

Lemma exists_grows (q : Pathlib.Path) (new : list (Pathlib.Path * string))
    (s s' : state) :
  wrote new s s' ->
  Downloader.exists_ q s' = true ->
  Downloader.exists_ q s = true \/ In q (map fst new).
Proof.
  intros (F & _). unfold Downloader.exists_. rewrite F, existsb_app.
  intros H. apply orb_true_iff in H as [H|H]; [right|now left].
  apply existsb_exists in H as (e & Hin & Heq).
  apply path_eqb_eq in Heq. subst q. now apply in_map.
Qed.

Lemma pending_kept (k : Z) (new : list (Pathlib.Path * string))
    (s s' : state) :
  wrote new s s' ->
  Downloader.in_updateables k s' = Downloader.in_updateables k s.
Proof.
  intros (_ & _ & _ & U). unfold Downloader.in_updateables. now rewrite U.
Qed.

Lemma due_iff (p : Pathlib.Path) (item : T) (s : state) :
  due p item s <->
  negb (Downloader.exists_ p s) || Downloader.in_updateables (key item) s
  = true.
Proof.
  unfold Spec.due. rewrite orb_true_iff, negb_true_iff. reflexivity.
Qed.

Lemma due_kept (p : Pathlib.Path) (item : T)
    (new : list (Pathlib.Path * string)) (s s' : state) :
  wrote new s s' -> ~ In p (map fst new) ->
  (due p item s' <-> due p item s).
Proof.
  intros W Hp. unfold Spec.due.
  now rewrite (exists_kept p new s s' W Hp), (pending_kept _ new s s' W).
Qed.

Lemma goes_through_kept (item : T) (j : nat) (q : Pathlib.Path)
    (new : list (Pathlib.Path * string)) (s s' : state) :
  wrote new s s' -> ~ In q (map fst new) ->
  (goes_through item j q s' <-> goes_through item j q s).
Proof.
  intros W Hq. unfold Spec.goes_through.
  now rewrite (due_kept q item new s s' W Hq).
Qed.

Lemma reached_kept (item : T) (ps : list Pathlib.Path) (i : nat)
    (new : list (Pathlib.Path * string)) (s s' : state) :
  wrote new s s' ->
  (forall q, In q ps -> ~ In q (map fst new)) ->
  (reached item ps i s' <-> reached item ps i s).
Proof.
  intros W Hps. unfold Spec.reached.
  split; intros H j q Hj Hq;
    apply (goes_through_kept item j q new s s' W);
    eauto using nth_error_In.
Qed.

Lemma fetched_succeeds (item : T) (i : nat) (p : Pathlib.Path)
    (data : string) :
  fetched item i p data -> slot_succeeds item i p.
Proof. intros (u & Hu & Hr & Ho). now exists u, data. Qed.

Lemma fetched_functional (item : T) (i : nat) (p : Pathlib.Path)
    (d d' : string) :
  fetched item i p d -> fetched item i p d' -> d = d'.
Proof.
  intros (u & Hu & Hr & _) (u' & Hu' & Hr' & _).
  rewrite Hu in Hu'. injection Hu' as <-. congruence.
Qed.

(** The pairs of one item, from slot [i] on: what is written, and for
    which pairs. *)
Lemma download_images_from_wrote (item : T) (ps : list Pathlib.Path) :
  NoDup ps ->
  forall i s,
    exists new,
      wrote new s (fst (download_images_from i ps item s)) /\
      forall p data,
        In (p, data) new <->
        exists j,
          nth_error ps j = Some p /\ due p item s /\
          fetched item (i + j) p data /\
          forall j' q, (j' < j)%nat -> nth_error ps j' = Some q ->
                       goes_through item (i + j') q s.
Proof.
  induction ps as [|p ps IH]; intros Hnd i s.
  { exists []. split; [apply wrote_nil|].
    intros q d. split; [intros []|]. intros ([|j] & Hj & _); discriminate. }
  inversion Hnd as [|x l Hp Hnd']; subst.
  cbn [Downloader.download_images_from]. unfold Downloader.bindM.
  rewrite create_image_file_unfold.
  (* a pair that does not go through ends the item *)
  assert (Hstop : due p item s -> ~ slot_succeeds item i p ->
                  forall q d,
                    ~ (exists j,
                          nth_error (p :: ps) j = Some q /\ due q item s /\
                          fetched item (i + j) q d /\
                          forall j' q', (j' < j)%nat ->
                                        nth_error (p :: ps) j' = Some q' ->
                                        goes_through item (i + j') q' s)).
  { intros Hdue Hfail q d ([|j] & Hj & _ & Hf & Hbefore).
    - rewrite Nat.add_0_r in Hf. injection Hj as <-.
      apply Hfail. now apply (fetched_succeeds item i p d).
    - destruct (Hbefore 0%nat p (Nat.lt_0_succ j) eq_refl) as [Hn|Hs].
      + contradiction.
      + rewrite Nat.add_0_r in Hs. contradiction. }
  destruct (negb (Downloader.exists_ p s)
            || Downloader.in_updateables (key item) s) eqn:Hc.
  - assert (Hdue : due p item s) by now apply due_iff.
    destruct (nth_error (get_urls item) i) as [u|] eqn:Hu.
    2:{ exists []. split; [apply wrote_nil|].
        intros q d. split; [intros []|]. intros H. exfalso.
        apply (Hstop Hdue) with (q := q) (d := d); [|exact H].
        intros (u & d' & Hu' & _). congruence. }
    rewrite write_to_file_unfold.
    destruct (http_read (Downloader.address u)) as [data0|e] eqn:Hr.
    2:{ exists []. split; [apply wrote_request, wrote_nil|].
        intros q d. split; [intros []|]. intros H. exfalso.
        apply (Hstop Hdue) with (q := q) (d := d); [|exact H].
        intros (u' & d' & Hu' & Hr' & _). congruence. }
    destruct (open_wb p) as [[]|e] eqn:Ho.
    2:{ exists []. split; [apply wrote_request, wrote_nil|].
        intros q d. split; [intros []|]. intros H. exfalso.
        apply (Hstop Hdue) with (q := q) (d := d); [|exact H].
        intros (u' & d' & _ & _ & Ho'). congruence. }
    (* the file is fetched and written, the item goes on *)
    set (s1 := Downloader.print (Downloader.downloaded_message item i)
                 (Downloader.write_file p data0
                    (Downloader.request (Downloader.address u) s))).
    assert (W1 : wrote [(p, data0)] s s1) by (repeat split).
    assert (Hf0 : fetched item i p data0) by (now exists u).
    destruct (IH Hnd' (S i) s1) as (new & W & Hnew).
    exists (new ++ [(p, data0)])%list.
    split; [exact (wrote_trans _ _ _ _ _ W1 W)|].
    assert (Hfresh : forall q, In q ps -> ~ In q (map fst [(p, data0)])).
    { intros q Hq [<-|[]]. contradiction. }
    intros q d. rewrite in_app_iff, Hnew. split.
    + intros [(j & Hj & Hd & Hf & Hb)|[E|[]]].
      * exists (S j). split; [exact Hj|].
        pose proof (nth_error_In _ _ Hj) as Hq.
        split; [now apply (due_kept q item _ s s1 W1 (Hfresh q Hq))|].
        split; [now rewrite Nat.add_succ_r|].
        intros [|j'] q' Hlt Hq'.
        -- injection Hq' as <-. right. rewrite Nat.add_0_r.
           now apply (fetched_succeeds item i p data0).
        -- rewrite Nat.add_succ_r.
           apply (goes_through_kept item _ q' _ s s1 W1);
             [apply Hfresh; now apply (nth_error_In _ j')|].
           apply Hb; [lia|exact Hq'].
      * injection E as <- <-. exists 0%nat.
        split; [reflexivity|]. split; [exact Hdue|].
        split; [now rewrite Nat.add_0_r|]. intros j' q' Hlt. lia.
    + intros ([|j] & Hj & Hd & Hf & Hb).
      * right. left. injection Hj as <-. rewrite Nat.add_0_r in Hf.
        now rewrite (fetched_functional item i p d data0 Hf Hf0).
      * left. cbn [nth_error] in Hj. exists j. split; [exact Hj|].
        pose proof (nth_error_In _ _ Hj) as Hq.
        split; [now apply (due_kept q item _ s s1 W1 (Hfresh q Hq))|].
        split; [now rewrite Nat.add_succ_r in Hf|].
        intros j' q' Hlt Hq'.
        apply (goes_through_kept item _ q' _ s s1 W1);
          [apply Hfresh; now apply (nth_error_In _ j')|].
        specialize (Hb (S j') q' ltac:(lia) Hq').
        now rewrite Nat.add_succ_r in Hb.
  - (* the file is not due: nothing happens, the item goes on *)
    assert (Hnot : ~ due p item s).
    { intros H. apply due_iff in H. congruence. }
    destruct (IH Hnd' (S i) s) as (new & W & Hnew).
    exists new. split; [exact W|].
    intros q d. rewrite Hnew. split.
    + intros (j & Hj & Hd & Hf & Hb). exists (S j).
      split; [exact Hj|]. split; [exact Hd|].
      split; [now rewrite Nat.add_succ_r|].
      intros [|j'] q' Hlt Hq'.
      * injection Hq' as <-. now left.
      * rewrite Nat.add_succ_r. apply Hb; [lia|exact Hq'].
    + intros ([|j] & Hj & Hd & Hf & Hb).
      * injection Hj as <-. contradiction.
      * exists j. split; [exact Hj|]. split; [exact Hd|].
        split; [now rewrite Nat.add_succ_r in Hf|].
        intros j' q' Hlt Hq'.
        specialize (Hb (S j') q' ltac:(lia) Hq').
        now rewrite Nat.add_succ_r in Hb.
Qed.

Lemma get_images_wrote (item : T) (ps : list Pathlib.Path) (s : state) :
  get_paths item path = Ok ps -> NoDup ps ->
  exists s' new,
    get_images item s = (s', Ok tt) /\ wrote new s s' /\
    (forall p, In p (map fst new) -> In p ps) /\
    forall i p data,
      nth_error ps i = Some p ->
      (In (p, data) new <->
       due p item s /\ fetched item i p data /\ reached item ps i s).
Proof.
  intros Hp Hnd. rewrite (get_images_unfold item ps s Hp).
  destruct (download_images_from_wrote item ps Hnd 0 s) as (new & W & Hnew).
  assert (Hres : exists s',
             (let (s1, r) := download_images_from 0 ps item s in
              match r with
              | Ok _ => (s1, Ok tt)
              | Raise e =>
                  (Downloader.print (Downloader.failure_message item e) s1,
                   Ok tt)
              end) = (s', Ok tt) /\ wrote new s s').
  { destruct (download_images_from 0 ps item s) as [s1 [[]|e]];
      eexists; (split; [reflexivity|]); simpl in W;
      [exact W|now apply wrote_print]. }
  destruct Hres as (s' & E & W').
  exists s', new. split; [|split; [exact W'|split]].
  - destruct (download_images_from 0 ps item s) as [s1 [[]|e]]; exact E.
  - intros p Hin. apply in_map_iff in Hin as ([q d] & <- & Hin).
    apply Hnew in Hin as (j & Hj & _). now apply (nth_error_In _ j).
  - intros i p data Hi. rewrite Hnew. split.
    + intros (j & Hj & Hd & Hf & Hb).
      assert (j = i) as ->.
      { apply (proj1 (NoDup_nth_error ps) Hnd);
          [apply nth_error_Some; congruence|congruence]. }
      auto.
    + intros (Hd & Hf & Hb). now exists i.
Qed.

Lemma destinations_In (l : list (Z * T)) (pss : list (list Pathlib.Path)) :
  destinations l pss ->
  forall e, In e l ->
            exists ps, In ps pss /\ get_paths (snd e) path = Ok ps.
Proof.
  induction 1 as [|e0 ps0 l pss H0 H IH]; intros e Hin; [destruct Hin|].
  destruct Hin as [<-|Hin].
  - exists ps0. split; [now left|exact H0].
  - destruct (IH e Hin) as (ps & Hps & Hp). exists ps. split; [now right|exact Hp].
Qed.

Lemma destinations_concat (l : list (Z * T))
    (pss : list (list Pathlib.Path)) :
  destinations l pss ->
  forall p, In p (concat pss) ->
            exists e ps i,
              In e l /\ get_paths (snd e) path = Ok ps /\
              nth_error ps i = Some p.
Proof.
  induction 1 as [|e0 ps0 l pss H0 H IH]; intros p Hin; [destruct Hin|].
  simpl in Hin. apply in_app_or in Hin as [Hin|Hin].
  - apply In_nth_error in Hin as [i Hi].
    exists e0, ps0, i. split; [now left|now split].
  - destruct (IH p Hin) as (e & ps & i & He & Hp & Hi).
    exists e, ps, i. split; [now right|now split].
Qed.

(** A pass over the entries [l]: what is written, and for which
    pairs. *)
Lemma download_tasks_wrote (l : list (Z * T)) :
  forall pss s,
    destinations l pss -> NoDup (concat pss) ->
    exists s' res new,
      Downloader.gather (download_tasks l) s = (s', Ok res) /\
      wrote new s s' /\
      (forall p, In p (map fst new) -> In p (concat pss)) /\
      forall e ps i p data,
        In e l -> get_paths (snd e) path = Ok ps ->
        nth_error ps i = Some p ->
        (In (p, data) new <->
         due p (snd e) s /\ fetched (snd e) i p data /\
         reached (snd e) ps i s).
Proof.
  induction l as [|e0 l IH]; intros pss s Hd Hnd.
  { exists s, [], []. split; [reflexivity|]. split; [apply wrote_nil|].
    split; [intros p []|]. intros e ps i p data []. }
  inversion Hd as [|x ps0 l' pss' H0 Hd']; subst.
  simpl in Hnd.
  pose proof (NoDup_app_remove_r _ _ Hnd) as Hnd0.
  pose proof (NoDup_app_remove_l _ _ Hnd) as Hnd'.
  pose proof (NoDup_app_disjoint _ _ Hnd) as Hdis.
  destruct (get_images_wrote (snd e0) ps0 s H0 Hnd0)
    as (s1 & new1 & E1 & W1 & Hin1 & Hnew1).
  destruct (IH pss' s1 Hd' Hnd') as (s2 & res & new2 & E2 & W2 & Hin2 & Hnew2).
  exists s2, (tt :: res), (new2 ++ new1)%list.
  split; [|split; [exact (wrote_trans _ _ _ _ _ W1 W2)|split]].
  - unfold Spec.download_tasks in *. cbn [map Downloader.gather].
    rewrite E1, E2. reflexivity.
  - intros p. rewrite map_app, in_app_iff. simpl. rewrite in_app_iff.
    intros [H|H]; [right; now apply Hin2|left; now apply Hin1].
  - intros e ps i p data Hin Hp Hi. rewrite in_app_iff.
    pose proof (nth_error_In _ _ Hi) as Hpin.
    destruct Hin as [<-|Hin].
    + rewrite H0 in Hp. injection Hp as <-.
      rewrite <- (Hnew1 i p data Hi). split; [|now right].
      intros [H|H]; [|exact H]. exfalso.
      apply (Hdis p Hpin). apply Hin2. apply in_map_iff.
      now exists (p, data).
    + destruct (destinations_In l pss' Hd' e Hin) as (ps' & Hps' & Hp').
      rewrite Hp in Hp'. injection Hp' as <-.
      assert (Hlater : forall q, In q ps -> ~ In q (map fst new1)).
      { intros q Hq H1. apply (Hdis q (Hin1 q H1)).
        apply in_concat. now exists ps. }
      rewrite (Hnew2 e ps i p data Hin Hp Hi).
      rewrite (due_kept p (snd e) new1 s s1 W1 (Hlater p Hpin)).
      rewrite (reached_kept (snd e) ps i new1 s s1 W1 Hlater).
      split; [|now left]. intros [H|H]; [exact H|]. exfalso.
      apply (Hlater p Hpin). apply in_map_iff. now exists (p, data).
Qed.

(** C4, amended: [create_image_file] requests and writes the file exactly
    when the destination is missing or the key is pending; [download]
    takes every entry of the catalogue and the pairs of its item in
    order, a pair that fails ending the pairs of its item.  With
    destinations that are pairwise distinct, the files written in a pass
    are those of the pairs that are reached, are due at the start of the
    pass and can be fetched and written; a pass changes neither the
    catalogue nor the pending list, so a second pass writes nothing when
    no key of the catalogue is pending. *)
Theorem image_written_iff_missing_or_pending :
  (forall (p : Pathlib.Path) (item : T) (i : nat) (s : state),
      negb (Downloader.exists_ p s)
      || Downloader.in_updateables (key item) s = false ->
      create_image_file p item i s = (s, Ok tt)) /\
  (forall (p : Pathlib.Path) (item : T) (i : nat) (s : state) u data,
      negb (Downloader.exists_ p s)
      || Downloader.in_updateables (key item) s = true ->
      nth_error (get_urls item) i = Some u ->
      http_read (Downloader.address u) = Ok data ->
      open_wb p = Ok tt ->
      create_image_file p item i s
      = (Downloader.print (Downloader.downloaded_message item i)
           (Downloader.write_file p data
              (Downloader.request (Downloader.address u) s)),
         Ok tt)) /\
  (forall (p : Pathlib.Path) (item : T) (i : nat) (s : state) u,
      negb (Downloader.exists_ p s)
      || Downloader.in_updateables (key item) s = true ->
      nth_error (get_urls item) i = Some u ->
      Downloader.requests (fst (create_image_file p item i s))
      = Downloader.address u :: Downloader.requests s) /\
  (forall (s : state) (pss : list (list Pathlib.Path)),
      destinations (Downloader.objs s) pss ->
      NoDup (concat pss) ->
      exists s' new,
        download s = (s', Ok tt) /\
        wrote new s s' /\
        (forall p data,
            In (p, data) new ->
            exists k item ps i,
              In (k, item) (Downloader.objs s) /\
              get_paths item path = Ok ps /\
              nth_error ps i = Some p) /\
        (forall k item ps i p data,
            In (k, item) (Downloader.objs s) ->
            get_paths item path = Ok ps ->
            nth_error ps i = Some p ->
            (In (p, data) new <->
             due p item s /\ fetched item i p data /\ reached item ps i s))) /\
  (forall (s s1 : state) (pss : list (list Pathlib.Path)),
      destinations (Downloader.objs s) pss ->
      NoDup (concat pss) ->
      (forall k item, In (k, item) (Downloader.objs s) ->
                      Downloader.in_updateables (key item) s = false) ->
      download s = (s1, Ok tt) ->
      exists s2,
        download s1 = (s2, Ok tt) /\
        Downloader.files s2 = Downloader.files s1 /\
        Downloader.written s2 = Downloader.written s1).
Proof.
  assert (Hpass : forall (s : state) (pss : list (list Pathlib.Path)),
             destinations (Downloader.objs s) pss ->
             NoDup (concat pss) ->
             exists s' new,
               download s = (s', Ok tt) /\
               wrote new s s' /\
               (forall p data,
                   In (p, data) new ->
                   exists k item ps i,
                     In (k, item) (Downloader.objs s) /\
                     get_paths item path = Ok ps /\
                     nth_error ps i = Some p) /\
               (forall k item ps i p data,
                   In (k, item) (Downloader.objs s) ->
                   get_paths item path = Ok ps ->
                   nth_error ps i = Some p ->
                   (In (p, data) new <->
                    due p item s /\ fetched item i p data /\
                    reached item ps i s))).
  { intros s pss Hd Hnd.
    destruct (download_tasks_wrote (Downloader.objs s) pss s Hd Hnd)
      as (s' & res & new & E & W & Hin & Hnew).
    exists s', new. split; [exact (download_gathers s s' res E)|].
    split; [exact W|]. split.
    - intros p data H.
      destruct (destinations_concat _ _ Hd p) as ([k item] & ps & i & He & Hp & Hi).
      { apply Hin, in_map_iff. now exists (p, data). }
      now exists k, item, ps, i.
    - intros k item ps i p data He. apply (Hnew (k, item) ps i p data He). }
  split; [apply create_image_file_skips|].
  split; [apply create_image_file_writes|].
  split; [|split; [exact Hpass|]].
  - intros p item i s u Hc Hu.
    rewrite create_image_file_unfold, Hc, Hu, write_to_file_unfold.
    destruct (http_read _); [destruct (open_wb p)|]; reflexivity.
  - intros s s1 pss Hd Hnd Hnone Hrun.
    destruct (Hpass s pss Hd Hnd) as (s1' & new1 & E1 & W1 & Hin1 & Hnew1).
    rewrite Hrun in E1. injection E1 as <-.
    assert (Ho : Downloader.objs s1 = Downloader.objs s) by apply W1.
    rewrite <- Ho in Hd.
    destruct (Hpass s1 pss Hd Hnd) as (s2 & new2 & E2 & W2 & Hin2 & Hnew2).
    exists s2. split; [exact E2|].
    assert (Hnil : new2 = []).
    { destruct new2 as [|[p data] rest]; [reflexivity|]. exfalso.
      destruct (Hin2 p data (or_introl eq_refl))
        as (k & item & ps & i & He & Hp & Hi).
      destruct (proj1 (Hnew2 k item ps i p data He Hp Hi)
                  (or_introl eq_refl)) as (Hd2 & Hf & Hr2).
      rewrite Ho in He.
      assert (Hpend : forall st, wrote new1 s st ->
                        Downloader.in_updateables (key item) st = false).
      { intros st W. rewrite (pending_kept _ new1 s st W).
        now apply (Hnone k item). }
      assert (Hmiss : Downloader.exists_ p s1 = false).
      { destruct Hd2 as [H|H]; [exact H|].
        rewrite (Hpend s1 W1) in H. discriminate. }
      assert (Hin : In (p, data) new1).
      { apply (Hnew1 k item ps i p data He Hp Hi).
        split; [|split; [exact Hf|]].
        - left. destruct (Downloader.exists_ p s) eqn:Ex; [|reflexivity].
          assert (G : grows s s1).
          { destruct W1 as (F & _ & O & U). repeat split; trivial.
            now exists new1. }
          rewrite (grows_exists s s1 p G Ex) in Hmiss. discriminate.
        - intros j q Hj Hq.
          destruct (Hr2 j q Hj Hq) as [Hn|Hs]; [|now right].
          destruct (Downloader.exists_ q s) eqn:Ex.
          + left. intros [H|H]; [congruence|].
            rewrite (Hnone k item He) in H. discriminate.
          + destruct (Downloader.exists_ q s1) eqn:Ex1.
            * destruct (exists_grows q new1 s s1 W1 Ex1) as [H|H];
                [congruence|].
              apply in_map_iff in H as ([q' d'] & Eq & H). simpl in Eq.
              subst q'.
              apply (Hnew1 k item ps j q d' He Hp Hq) in H
                as (_ & Hfq & _).
              right. now apply (fetched_succeeds item j q d').
            * elim Hn. now left. }
      rewrite (exists_written p new1 s s1 W1) in Hmiss; [discriminate|].
      apply in_map_iff. now exists (p, data). }
    subst new2. destruct W2 as (F & W & _). now split.
Qed.

End DownloadPhase.

Example download_runs_past_failure :
  snd (sample_download sample_catalogue) = Ok tt /\
  Downloader.out (fst (sample_download sample_catalogue))
  = ["Downloaded item 7.";
     "Couldn't download card 8: Connection reset by peer."] /\
  Downloader.written (fst (sample_download sample_catalogue))
  = [Pathlib.mkPath "/" ["srv"; "sifas"; "stills"; "7_Still.png"]].
Proof. repeat split; reflexivity. Qed.

Lemma download_failure_is_caught_per_item_witness :
  exists s',
    sample_download sample_catalogue = (s', Ok tt) /\
    forall k item paths,
      In (k, item) (Downloader.objs sample_catalogue) ->
      get_paths (ImgType := Still_ImgType (consts := sample_consts))
        item sample_root = Ok paths ->
      (forall j p, nth_error paths j = Some p ->
                   Spec.slot_succeeds (img_type := Still_ImgType (consts := sample_consts))
                     sample_assets sample_open item j p) ->
      forall p, In p paths -> Downloader.exists_ p s' = true.
Proof.
  apply (proj2 (@download_failure_is_caught_per_item Still.t
                  (Still_ImgType (consts := sample_consts))
                  sample_root sample_assets sample_open) sample_catalogue).
  intros k item [E|[E|[]]]; injection E as <- <-; eexists; reflexivity.
Defined.

Example second_download_writes_nothing :
  Downloader.written (fst (sample_download sample_catalogue_7))
  = [Pathlib.mkPath "/" ["srv"; "sifas"; "stills"; "7_Still.png"]] /\
  sample_download (fst (sample_download sample_catalogue_7))
  = (fst (sample_download sample_catalogue_7), Ok tt).
Proof. split; reflexivity. Qed.

(** C4, as stated, fails.  Reconciliation has flagged still 7; the first
    pass of the download phase writes its file, and the second pass,
    with nothing changed on the site, writes it again: the pending list
    is not emptied.  And a pair is not always fetched when its
    destination is missing: the request for the normal file of card 12
    fails, and the idolized file, which does not exist, is not asked
    for. *)
Lemma second_pass_writes_pending_files_again :
  Downloader.updateables flagged_catalogue = [7%Z] /\
  Downloader.written (fst (sample_download flagged_catalogue))
  = [Pathlib.mkPath "/" ["srv"; "sifas"; "stills"; "7_Still.png"]] /\
  Downloader.written
    (fst (sample_download (fst (sample_download flagged_catalogue))))
  = [Pathlib.mkPath "/" ["srv"; "sifas"; "stills"; "7_Still.png"];
     Pathlib.mkPath "/" ["srv"; "sifas"; "stills"; "7_Still.png"]] /\
  nth_error (Card.get_paths (consts := sample_consts) sample_card_2x
               sample_root) 1
  = Some (Pathlib.mkPath "/" ["srv"; "sifas"; "cards";
                              "12_Muse_Honoka_Idolized.png"]) /\
  Downloader.exists_
    (Pathlib.mkPath "/" ["srv"; "sifas"; "cards";
                         "12_Muse_Honoka_Idolized.png"]) card_catalogue
  = false /\
  card_download card_catalogue
  = (Downloader.print "Couldn't download card 12: Connection refused."
       (Downloader.request "https://i.idol.st/u/card/art/2x/12Honoka.png"
          card_catalogue), Ok tt).
Proof. repeat split; vm_compute; reflexivity. Qed.

Lemma image_written_iff_missing_or_pending_witness :
  exists s' new,
    sample_download flagged_catalogue = (s', Ok tt) /\
    Spec.wrote new flagged_catalogue s' /\
    (forall p data,
        In (p, data) new ->
        exists k item ps i,
          In (k, item) (Downloader.objs flagged_catalogue) /\
          get_paths (ImgType := Still_ImgType (consts := sample_consts))
            item sample_root = Ok ps /\
          nth_error ps i = Some p) /\
    (forall k item ps i p data,
        In (k, item) (Downloader.objs flagged_catalogue) ->
        get_paths (ImgType := Still_ImgType (consts := sample_consts))
          item sample_root = Ok ps ->
        nth_error ps i = Some p ->
        (In (p, data) new <->
         Spec.due (img_type := Still_ImgType (consts := sample_consts))
           p item flagged_catalogue /\
         Spec.fetched (img_type := Still_ImgType (consts := sample_consts))
           sample_assets sample_open item i p data /\
         Spec.reached (img_type := Still_ImgType (consts := sample_consts))
           sample_assets sample_open item ps i flagged_catalogue)).
Proof.
  apply (proj1 (proj2 (proj2 (proj2
           (@image_written_iff_missing_or_pending Still.t
              (Still_ImgType (consts := sample_consts))
              sample_root sample_assets sample_open))))
           flagged_catalogue
           [[Pathlib.mkPath "/" ["srv"; "sifas"; "stills"; "8_Still.png"]];
            [Pathlib.mkPath "/" ["srv"; "sifas"; "stills"; "7_Still.png"]]]).
  - vm_compute. repeat constructor.
  - apply NoDup_cons; [intros [H|[]]; discriminate H|].
    apply NoDup_cons; [intros []|]. apply NoDup_nil.
Defined.

(* ===================================================================== *)
(** ** [update]: a failure of the reconciliation ends the run *)
(* ===================================================================== *)

Section UpdateRun.
Context {T : Type} {img_type : ImgType T}.
Variable http_get : string -> result Bs4.soup.
Variable store_save : list (Z * T) -> result Datatypes.unit.

Abbreviation ustate := (Downloader.state T).
Abbreviation keeps_saved := (@Spec.keeps_saved T).

Lemma keeps_saved_bind {A B} (m : Downloader.M T A)
    (k : A -> Downloader.M T B) :
  keeps_saved m -> (forall a, keeps_saved (k a)) ->
  keeps_saved (Downloader.bindM m k).
Proof.
  intros Hm Hk s. unfold Downloader.bindM.
  specialize (Hm s). destruct (m s) as [s1 [a|e]]; simpl in *.
  - now rewrite Hk.
  - exact Hm.
Qed.

Lemma keeps_saved_modify (f : ustate -> ustate) :
  (forall s, Downloader.saved (f s) = Downloader.saved s) ->
  keeps_saved (Downloader.modify f).
Proof. intros H s. apply H. Qed.

Lemma keeps_saved_ret {A} (a : A) : keeps_saved (Downloader.ret a).
Proof. intros s. reflexivity. Qed.

Lemma keeps_saved_for_each {A} (l : list A)
    (body : A -> Downloader.M T Datatypes.unit) :
  (forall a, keeps_saved (body a)) ->
  keeps_saved (Downloader.for_each l body).
Proof.
  intros Hb. induction l as [|a l IH]; simpl.
  - apply keeps_saved_ret.
  - apply keeps_saved_bind; [apply Hb|intros _; exact IH].
Qed.

Lemma keeps_saved_gather {A} (tasks : list (Downloader.M T A)) :
  (forall task, In task tasks -> keeps_saved task) ->
  keeps_saved (Downloader.gather tasks).
Proof.
  intros Ht s.
  apply (gather_invariant
           (fun s' => Downloader.saved s' = Downloader.saved s));
    [|reflexivity].
  intros task Hin s1 H1. now rewrite (Ht task Hin).
Qed.

Lemma keeps_saved_item_parser_get_item (num : Z) :
  keeps_saved (Downloader.item_parser_get_item http_get num).
Proof.
  intros s. unfold Downloader.item_parser_get_item.
  destruct (Parser.get_item _ _ _ _ _). reflexivity.
Qed.

Lemma keeps_saved_add_item (num : Z) :
  keeps_saved (Downloader.add_item_to_object_list http_get num).
Proof.
  unfold Downloader.add_item_to_object_list.
  apply keeps_saved_bind; [apply keeps_saved_item_parser_get_item|].
  intros r. apply keeps_saved_bind; [now apply keeps_saved_modify|].
  intros _. now apply keeps_saved_modify.
Qed.

Lemma keeps_saved_gather_pages (nums : list Z) :
  keeps_saved (Downloader.gather_pages http_get nums).
Proof.
  apply keeps_saved_gather. intros task Hin.
  apply in_map_iff in Hin as (i & <- & _). intros s. reflexivity.
Qed.

Lemma keeps_saved_fetch_new_items (page : list Z) :
  keeps_saved (Downloader.fetch_new_items http_get page).
Proof.
  intros s. unfold Downloader.fetch_new_items.
  apply (keeps_saved_bind
           (Downloader.gather
              (map (Downloader.add_item_to_object_list http_get)
                 (filter (fun item => negb (Downloader.in_objs item s))
                    page)))
           (fun _ => Downloader.ret tt)).
  - apply keeps_saved_gather. intros task Hin.
    apply in_map_iff in Hin as (k & <- & _). apply keeps_saved_add_item.
  - intros _. apply keeps_saved_ret.
Qed.

Lemma keeps_saved_get_cards_from_parser :
  keeps_saved (Downloader.get_cards_from_parser http_get).
Proof.
  unfold Downloader.get_cards_from_parser.
  apply keeps_saved_bind; [now apply keeps_saved_modify|]. intros _.
  apply keeps_saved_bind; [intros s; reflexivity|]. intros n.
  apply keeps_saved_bind; [apply keeps_saved_gather_pages|]. intros pages.
  apply keeps_saved_bind; [now apply keeps_saved_modify|]. intros _.
  apply keeps_saved_for_each. apply keeps_saved_fetch_new_items.
Qed.

Lemma update_if_needed_saved (item : T) (s : ustate) :
  Downloader.saved (fst (fst (Downloader.update_if_needed http_get item s)))
  = Downloader.saved s.
Proof.
  unfold Downloader.update_if_needed.
  destruct (needs_update item) as [[|]|e]; try reflexivity.
  pose proof (keeps_saved_item_parser_get_item (key item) s) as H.
  destruct (Downloader.item_parser_get_item http_get (key item) s)
    as [s1 [[n updated]|e]]; simpl in *; [|exact H].
  destruct (Downloader.index (get_urls item) 0); [|exact H].
  destruct (Downloader.index (get_urls updated) 0); [|exact H].
  destruct (Downloader.set_urls_from _ _ _ _) as [item' r].
  destruct (negb _); simpl; exact H.
Qed.

Lemma update_items_saved (items : list (Z * T)) :
  forall s,
    Downloader.saved (fst (fst (Downloader.update_items http_get items s)))
    = Downloader.saved s.
Proof.
  induction items as [|[k item] items IH]; intros s; simpl; [reflexivity|].
  pose proof (update_if_needed_saved item s) as H.
  destruct (Downloader.update_if_needed http_get item s)
    as [[s1 item'] [[]|e]]; simpl in *; [|exact H].
  specialize (IH s1).
  destruct (Downloader.update_items http_get items s1) as [[s2 rest] r].
  simpl in *. congruence.
Qed.

Lemma keeps_saved_update_all :
  keeps_saved (Downloader.update_all http_get).
Proof.
  intros s. unfold Downloader.update_all.
  pose proof (update_items_saved (Downloader.objs s) s) as H.
  destruct (Downloader.update_items _ _ _) as [[s' objs'] r]. exact H.
Qed.

(** Where the loop of [update] stops when a check raises: the entries
    before the failing one were checked, those after it are as they
    were. *)
Lemma update_items_stops_at_failure (items : list (Z * T)) :
  forall s s' items' e,
    Downloader.update_items http_get items s = (s', items', Raise e) ->
    exists before before' k item item' after s_mid,
      items = (before ++ (k, item) :: after)%list /\
      Downloader.update_items http_get before s = (s_mid, before', Ok tt) /\
      Downloader.update_if_needed http_get item s_mid = (s', item', Raise e) /\
      items' = (before' ++ (k, item') :: after)%list.
Proof.
  induction items as [|[k item] items IH]; intros s s' items' e H; simpl in H.
  - discriminate.
  - destruct (Downloader.update_if_needed http_get item s)
      as [[s1 item1] [[]|e1]] eqn:E1.
    + destruct (Downloader.update_items http_get items s1)
        as [[s2 rest] r2] eqn:E2.
      injection H as <- <- ->.
      destruct (IH _ _ _ _ E2)
        as (before & before' & k' & it & it' & after & s_mid
            & -> & Hb & Hi & ->).
      exists ((k, item) :: before), ((k, item1) :: before'),
        k', it, it', after, s_mid.
      repeat split; trivial.
      simpl. now rewrite E1, Hb.
    + injection H as <- <- <-.
      exists [], [], k, item, item1, items, s.
      repeat split; trivial.
Qed.

(** C8, amended: when the check of one item raises, the loop stops
    there: [update] raises the same exception; the entries before the
    failing one have been checked, the state is the one in which the
    failing check left it, so that nothing is requested for the entries
    after it and they are as they were; and nothing is handed to
    [json_utils.dump_to_file]. *)
Theorem reconciliation_failure_aborts_update (s s1 s2 : ustate) (e : exn) :
  Downloader.get_cards_from_parser http_get
    (Downloader.print "Searching for new or missing items..." s)
  = (s1, Ok tt) ->
  Downloader.update_all http_get
    (Downloader.print
       "Checking if items can be updated to better resolution..." s1)
  = (s2, Raise e) ->
  Downloader.update http_get store_save s = (s2, Raise e) /\
  Downloader.saved s2 = Downloader.saved s /\
  exists before before' k item item' after s_mid s_fail,
    Downloader.objs s1 = (before ++ (k, item) :: after)%list /\
    Downloader.update_items http_get before
      (Downloader.print
         "Checking if items can be updated to better resolution..." s1)
    = (s_mid, before', Ok tt) /\
    Downloader.update_if_needed http_get item s_mid
    = (s_fail, item', Raise e) /\
    s2 = Downloader.set_objs (before' ++ (k, item') :: after)%list s_fail /\
    Downloader.requests s2 = Downloader.requests s_fail.
Proof.
  intros Hd Hu. split; [|split].
  - unfold Downloader.update, Downloader.bindM, Downloader.modify.
    rewrite Hd, Hu. reflexivity.
  - pose proof (keeps_saved_update_all
                  (Downloader.print
                     "Checking if items can be updated to better resolution..."
                     s1)) as H2.
    pose proof (keeps_saved_get_cards_from_parser
                  (Downloader.print "Searching for new or missing items..." s))
      as H1.
    rewrite Hu in H2. rewrite Hd in H1. simpl in *. congruence.
  - unfold Downloader.update_all in Hu.
    destruct (Downloader.update_items _ _ _) as [[s' objs'] r] eqn:E.
    injection Hu as <- ->.
    destruct (update_items_stops_at_failure _ _ _ _ _ E)
      as (before & before' & k & item & item' & after & s_mid
          & Ho & Hb & Hi & ->).
    exists before, before', k, item, item', after, s_mid, s'.
    split; [exact Ho|]. split; [exact Hb|]. split; [exact Hi|].
    split; reflexivity.
Qed.

End UpdateRun.

(** C8, as stated, fails: the failed check of still 8 makes [update]
    raise; still 7, whose check alone would have brought the double-size
    URL, is neither requested nor changed, and no catalogue is saved. *)
Lemma failed_check_is_fatal_to_update :
  snd (sample_update known_catalogue)
    = Raise (ClientError "Server disconnected") /\
  Downloader.saved (fst (sample_update known_catalogue)) = [] /\
  Downloader.objs (fst (sample_update known_catalogue))
    = [(8%Z, still_8_low_res); (7%Z, sample_still_low_res)] /\
  Downloader.requests (fst (sample_update known_catalogue))
    = ["https://idol.st/ajax/allstars/still/8";
       "https://idol.st/ajax/allstars/stills/?page=1";
       "https://idol.st/ajax/allstars/stills/?page=1"] /\
  snd (fst (Downloader.update_if_needed
              (img_type := Still_ImgType (consts := sample_consts))
              failing_remote sample_still_low_res known_catalogue))
    = Still.mk 7 (PStr "//i.idol.st/u/still/2x/7.png").
Proof. repeat split; vm_compute; reflexivity. Qed.

Lemma reconciliation_failure_aborts_update_witness :
  sample_update known_catalogue
    = (after_failed_check, Raise (ClientError "Server disconnected")) /\
  Downloader.saved after_failed_check = Downloader.saved known_catalogue /\
  exists before before' k item item' after s_mid s_fail,
    Downloader.objs after_discovery = (before ++ (k, item) :: after)%list /\
    Downloader.update_items
      (img_type := Still_ImgType (consts := sample_consts)) failing_remote
      before
      (Downloader.print
         "Checking if items can be updated to better resolution..."
         after_discovery)
    = (s_mid, before', Ok tt) /\
    Downloader.update_if_needed
      (img_type := Still_ImgType (consts := sample_consts)) failing_remote
      item s_mid
    = (s_fail, item', Raise (ClientError "Server disconnected")) /\
    after_failed_check
    = Downloader.set_objs (before' ++ (k, item') :: after)%list s_fail /\
    Downloader.requests after_failed_check = Downloader.requests s_fail.
Proof.
  apply (@reconciliation_failure_aborts_update Still.t
           (Still_ImgType (consts := sample_consts)) failing_remote
           sample_store known_catalogue after_discovery after_failed_check
           (ClientError "Server disconnected"));
    vm_compute; reflexivity.
Defined.


(* ===================================================================== *)
(** ** Further properties: keys in links *)
(* ===================================================================== *)

Lemma str_of_int_inj (a b : Z) :
  PyStr.str_of_int a = PyStr.str_of_int b -> a = b.
Proof.
  unfold PyStr.str_of_int. intros H.
  apply DecimalZ.to_int_inj.
  assert (N : forall z, Z.to_int z <> Decimal.Pos Decimal.Nil /\
                        Z.to_int z <> Decimal.Neg Decimal.Nil).
  { intros [|p|p]; simpl; split; try discriminate;
      intros E; injection E as E;
      now apply (DecimalPos.Unsigned.to_uint_nonnil p). }
  pose proof (NilZero.isi (Z.to_int a) (proj1 (N a)) (proj2 (N a))) as Ha.
  pose proof (NilZero.isi (Z.to_int b) (proj1 (N b)) (proj2 (N b))) as Hb.
  rewrite H in Ha. congruence.
Qed.

Lemma string_of_uint_is_digit (d : Decimal.uint) :
  forall_chars PyStr.is_digit (NilEmpty.string_of_uint d) = true.
Proof. induction d; simpl; trivial. Qed.

Lemma str_of_int_digits (n : Z) :
  (0 <= n)%Z ->
  forall_chars PyStr.is_digit (PyStr.str_of_int n) = true /\
  PyStr.str_of_int n <> "".
Proof.
  intros Hn. unfold PyStr.str_of_int.
  destruct n as [|p|p]; [split; [reflexivity|discriminate]| |lia].
  simpl Z.to_int. simpl NilZero.string_of_int.
  rewrite string_of_uint_nonnil. split; [apply string_of_uint_is_digit|].
  pose proof (DecimalPos.Unsigned.to_uint_nonnil p) as H.
  destruct (Pos.to_uint p); [now elim H|discriminate..].
Qed.

Lemma span_digits_not_digit (pre rest : string) (c : ascii) :
  forall_chars not_digit pre = true ->
  PyStr.is_digit c = false ->
  fst (PyStr.span_digits (pre ++ String c rest)) = "".
Proof.
  intros Hp Hc. destruct pre as [|a pre]; simpl in *.
  - now rewrite Hc.
  - apply andb_true_iff in Hp as [Ha _]. unfold not_digit in Ha.
    apply negb_true_iff in Ha. now rewrite Ha.
Qed.

Lemma search_slash_digits_finds (pre group post : string) :
  forall_chars not_digit pre = true ->
  forall_chars PyStr.is_digit group = true ->
  group <> "" ->
  PyStr.search_slash_digits (pre ++ "/" ++ group ++ "/" ++ post)
  = Some group.
Proof.
  intros Hp Hg Hne. induction pre as [|c pre IH].
  - now apply search_slash_digits_here.
  - simpl in Hp. apply andb_true_iff in Hp as [Hc Hp].
    change (String c pre ++ "/" ++ group ++ "/" ++ post)
      with (String c (pre ++ String "/" (group ++ String "/" post))).
    cbn [PyStr.search_slash_digits].
    pose proof (span_digits_not_digit pre (group ++ String "/" post) "/"
                  Hp eq_refl) as Hs.
    destruct (Ascii.eqb c "/"); [|exact (IH Hp)].
    destruct (PyStr.span_digits _) as [[|d ds] r]; simpl in Hs;
      [|discriminate].
    exact (IH Hp).
Qed.

(** X1: the key of an item, printed between slashes in a link whose
    earlier part has no digit, is found by the pattern of [get_page].
    When its decimal form has no more digits than [int] accepts, [int]
    gives the key again and the container yields it; when it has more,
    [int] raises [ValueError] and so does the loop of [get_page]. *)
Theorem advertised_key_round_trip (n : Z) (pre post : string) :
  (0 <= n)%Z ->
  forall_chars not_digit pre = true ->
  PyStr.search_slash_digits (pre ++ "/" ++ PyStr.str_of_int n ++ "/" ++ post)
    = Some (PyStr.str_of_int n) /\
  ((String.length (PyStr.str_of_int n) <= PyStr.int_max_str_digits)%nat ->
   PyStr.int (PyStr.str_of_int n) = Ok n /\
   forall item found,
     Bs4.find_name "a" item = Some found ->
     Bs4.get "href" found
       = PStr (pre ++ "/" ++ PyStr.str_of_int n ++ "/" ++ post) ->
     ListParser.item_key item = Ok (Some n)) /\
  ((PyStr.int_max_str_digits < String.length (PyStr.str_of_int n))%nat ->
   PyStr.int (PyStr.str_of_int n) = Raise ValueError /\
   forall item found,
     Bs4.find_name "a" item = Some found ->
     Bs4.get "href" found
       = PStr (pre ++ "/" ++ PyStr.str_of_int n ++ "/" ++ post) ->
     ListParser.item_key item = Raise ValueError).
Proof.
  intros Hn Hp.
  destruct (str_of_int_digits n Hn) as [Hd Hne].
  pose proof (search_slash_digits_finds pre _ post Hp Hd Hne) as Hs.
  split; [exact Hs|]. split.
  - intros Hfit.
    assert (Hi : PyStr.int (PyStr.str_of_int n) = Ok n).
    { rewrite (int_within_limit _ Hfit).
      now rewrite (int_of_digits_str_of_int n Hn). }
    split; [exact Hi|].
    intros item found Hf Hh. unfold ListParser.item_key.
    now rewrite Hf, Hh, Hs, Hi.
  - intros Hlong.
    pose proof (int_beyond_limit _ Hlong) as Hi.
    split; [exact Hi|].
    intros item found Hf Hh. unfold ListParser.item_key.
    now rewrite Hf, Hh, Hs, Hi.
Qed.

Lemma advertised_key_round_trip_witness :
  PyStr.int (PyStr.str_of_int 1234) = Ok 1234%Z /\
  forall item found,
    Bs4.find_name "a" item = Some found ->
    Bs4.get "href" found
      = PStr ("/allstars/still" ++ "/" ++ PyStr.str_of_int 1234 ++ "/"
                ++ "Stage/") ->
    ListParser.item_key item = Ok (Some 1234%Z).
Proof.
  apply (proj1 (proj2 (advertised_key_round_trip 1234 "/allstars/still"
                         "Stage/" ltac:(lia) eq_refl))).
  apply Nat.leb_le. reflexivity.
Defined.

(* ===================================================================== *)
(** ** Further properties: the list parser *)
(* ===================================================================== *)

Section ListParserKeys.
Variable http_get : string -> result Bs4.soup.
Variable template : string.

(** X2: the keys that [get_page] returns are those that the item
    containers of the page advertise, no other, and none is negative. *)
Theorem get_page_returns_the_advertised_keys
    (self : Parser.t) (num : Z) (page : Bs4.soup) (keys : list Z) :
  Parser.session self = true ->
  http_get (ListParser.get_url template num) = Ok page ->
  ListParser.get_page http_get template self num = Ok keys ->
  forall k,
    (In k keys <->
     exists item, In item (Bs4.find_all_class "top-item" page) /\
                  ListParser.item_key item = Ok (Some k)) /\
    (In k keys -> (0 <= k)%Z).
Proof.
  intros Hs Hp Hrun k.
  rewrite (get_page_fetched http_get template self num page Hs Hp) in Hrun.
  unfold ListParser.parse_page in Hrun.
  destruct (ListParser.collect_keys (Bs4.find_all_class "top-item" page))
    as [adv|e] eqn:Ec; [|discriminate].
  cbn [Py.bind] in Hrun.
  assert (Hk : keys = PyStr.sorted_reverse adv).
  { destruct adv; [discriminate|]. now injection Hrun as <-. }
  assert (Hin : In k keys <-> In k adv).
  { rewrite Hk. split; apply Permutation_in;
      [apply Permutation_sym|]; apply sorted_reverse_perm. }
  pose proof (collect_keys_In _ adv Ec k) as Hadv.
  split; [now rewrite Hin|].
  intros H. apply Hin, Hadv in H as (item & _ & Hi).
  now apply (item_key_nonneg item).
Qed.

End ListParserKeys.

Lemma get_page_returns_the_advertised_keys_witness :
  (In 40%Z [40%Z; 12%Z; 7%Z] <->
   exists item, In item (Bs4.find_all_class "top-item" sample_list_page) /\
                ListParser.item_key item = Ok (Some 40%Z)) /\
  (In 40%Z [40%Z; 12%Z; 7%Z] -> (0 <= 40)%Z).
Proof.
  apply (get_page_returns_the_advertised_keys
           (fun _ => Ok sample_list_page) "list?page="
           (Parser.set_session Parser.init) 1 sample_list_page
           [40%Z; 12%Z; 7%Z]); reflexivity.
Defined.

Lemma nth_from_end_2_Some {A} (l : list A) (x : A) :
  ListParser.nth_from_end_2 l = Some x <->
  exists before last, l = (before ++ [x; last])%list.
Proof.
  unfold ListParser.nth_from_end_2. split.
  - destruct (rev l) as [|a [|b r]] eqn:E; try discriminate.
    intros H. injection H as ->.
    exists (rev r), a.
    rewrite <- (rev_involutive l), E. simpl.
    now rewrite <- app_assoc.
  - intros (before & last & ->).
    rewrite rev_app_distr. reflexivity.
Qed.

Lemma nth_from_end_2_None {A} (l : list A) :
  ListParser.nth_from_end_2 l = None <-> (List.length l < 2)%nat.
Proof.
  unfold ListParser.nth_from_end_2.
  rewrite <- (length_rev l).
  destruct (rev l) as [|a [|b r]]; simpl; split; intros H;
    try reflexivity; try discriminate; lia.
Qed.

Section NumPages.
Variable http_get : string -> result Bs4.soup.
Variable template : string.

Lemma page_link_functional (page : Bs4.soup) (g g' : string) :
  page_link page g -> page_link page g' -> g = g'.
Proof.
  intros (item & before & link & last & href & Hi & Hl & Hh & Hg)
         (item' & before' & link' & last' & href' & Hi' & Hl' & Hh' & Hg').
  rewrite Hi in Hi'. injection Hi' as <-.
  assert (E : ListParser.nth_from_end_2 (Bs4.find_all_name "a" item)
              = Some link)
    by (apply nth_from_end_2_Some; eauto).
  assert (E' : ListParser.nth_from_end_2 (Bs4.find_all_name "a" item)
               = Some link')
    by (apply nth_from_end_2_Some; eauto).
  rewrite E in E'. injection E' as <-.
  rewrite Hh in Hh'. injection Hh' as <-. congruence.
Qed.

(** X3: [get_num_pages] fetches page 1 and, when it returns, gives the
    number read after an equals sign in the [href] of the last anchor
    but one of the pagination element; it is never negative.  It raises
    [IndexError], not [ListParsingException], exactly when the
    pagination element has a single anchor, [ValueError] exactly when
    the number has more digits than [int] accepts, and no fourth
    exception. *)
Theorem get_num_pages_outcomes (self : Parser.t) (page : Bs4.soup) :
  Parser.session self = true ->
  http_get (template ++ "1") = Ok page ->
  (forall n,
      ListParser.get_num_pages http_get template self = Ok n <->
      exists group, page_link page group /\ PyStr.int group = Ok n) /\
  (forall n,
      ListParser.get_num_pages http_get template self = Ok n -> (0 <= n)%Z) /\
  (ListParser.get_num_pages http_get template self = Raise IndexError <->
   exists item link,
     Bs4.find_class "pagination" page = Some item /\
     Bs4.find_all_name "a" item = [link]) /\
  (ListParser.get_num_pages http_get template self = Raise ValueError <->
   exists group,
     page_link page group /\
     (PyStr.int_max_str_digits < String.length group)%nat) /\
  (forall e,
      ListParser.get_num_pages http_get template self = Raise e ->
      e = ListParsingException \/ e = IndexError \/ e = ValueError).
Proof.
  intros Hs Hp.
  assert (Hrun : ListParser.get_num_pages http_get template self
                 = ListParser.parse_num_pages page).
  { unfold ListParser.get_num_pages, Parser.soup_page, Parser.get_html,
      ListParser.get_url.
    change (PyStr.str_of_int 1) with "1". now rewrite Hs, Hp. }
  rewrite Hrun.
  (* either the page has its link, or the parser raises one of its own *)
  assert (Hcases :
            (exists group,
                page_link page group /\
                ListParser.parse_num_pages page = PyStr.int group) \/
            ((forall group, ~ page_link page group) /\
             ((ListParser.parse_num_pages page = Raise ListParsingException /\
               ~ (exists item link,
                     Bs4.find_class "pagination" page = Some item /\
                     Bs4.find_all_name "a" item = [link])) \/
              (ListParser.parse_num_pages page = Raise IndexError /\
               exists item link,
                 Bs4.find_class "pagination" page = Some item /\
                 Bs4.find_all_name "a" item = [link])))).
  { unfold ListParser.parse_num_pages, page_link.
    destruct (Bs4.find_class "pagination" page) as [item|] eqn:Ei.
    2:{ right. split; [intros g (i & b & l & la & h & H & _); discriminate|].
        left. split; [reflexivity|]. intros (i & l & H & _). discriminate. }
    destruct (Bs4.find_all_name "a" item) as [|l0 ls] eqn:El.
    { right. split.
      - intros g (i & b & l & la & h & H & E & _). injection H as <-.
        rewrite El in E. now destruct b.
      - left. split; [reflexivity|]. intros (i & l & H & E).
        injection H as <-. rewrite El in E. discriminate. }
    destruct (ListParser.nth_from_end_2 (l0 :: ls)) as [link|] eqn:En.
    - apply nth_from_end_2_Some in En as (before & last & Eb).
      assert (Hnot1 : ~ (exists i l, Some item = Some i /\
                                     Bs4.find_all_name "a" i = [l])).
      { intros (i & l & H & E). injection H as <-. rewrite El, Eb in E.
        apply (f_equal (@List.length _)) in E.
        rewrite length_app in E. simpl in E. lia. }
      assert (Hlink : forall i b l la,
                 Some item = Some i ->
                 Bs4.find_all_name "a" i = (b ++ [l; la])%list ->
                 l = link).
      { intros i b l la H E. injection H as <-.
        rewrite El, Eb in E.
        apply (f_equal (@rev _)) in E. rewrite !rev_app_distr in E.
        simpl in E. now injection E as _ E _. }
      destruct (Bs4.get "href" link) as [href|] eqn:Eh.
      + destruct (PyStr.search_eq_digits href) as [group|] eqn:Eg.
        * left. exists group. split; [|reflexivity].
          exists item, before, link, last, href. now rewrite <- Eb.
        * right. split; [|left; now split].
          intros g (i & b & l & la & h & H & E & Hh & Hg).
          rewrite (Hlink i b l la H E) in Hh.
          rewrite Eh in Hh. injection Hh as <-. congruence.
      + right. split; [|left; now split].
        intros g (i & b & l & la & h & H & E & Hh & Hg).
        rewrite (Hlink i b l la H E) in Hh.
        rewrite Eh in Hh. discriminate.
    - apply nth_from_end_2_None in En. simpl in En.
      destruct ls as [|l1 ls]; [|simpl in En; lia].
      right. split.
      + intros g (i & b & l & la & h & H & E & _). injection H as <-.
        rewrite El in E. apply (f_equal (@List.length _)) in E.
        rewrite length_app in E. simpl in E. lia.
      + right. split; [reflexivity|]. now exists item, l0. }
  destruct Hcases as [(group & Hl & ->)|(Hno & Hr)].
  - assert (Hone : ~ (exists item link,
                         Bs4.find_class "pagination" page = Some item /\
                         Bs4.find_all_name "a" item = [link])).
    { destruct Hl as (item & before & link & last & href & Hi & Ha & _).
      intros (i & l & H & E). rewrite Hi in H. injection H as <-.
      rewrite Ha in E. apply (f_equal (@List.length _)) in E.
      rewrite length_app in E. simpl in E. lia. }
    split; [|split; [|split; [|split]]].
    + intros n. split; [intros H; now exists group|].
      intros (g & Hg & Hi).
      now rewrite (page_link_functional page group g Hl Hg).
    + intros n H. apply int_Ok in H as [-> _].
      now apply int_of_digits_acc_nonneg.
    + split; [intros H; apply int_Raise in H as [H _]; discriminate|].
      intros H. now elim Hone.
    + split.
      * intros H. apply int_Raise in H as [_ H]. now exists group.
      * intros (g & Hg & Hlong).
        rewrite (page_link_functional page group g Hl Hg).
        now apply int_beyond_limit.
    + intros e H. apply int_Raise in H as [-> _]. auto.
  - split; [|split; [|split; [|split]]].
    + intros n. split.
      * destruct Hr as [[-> _]|[-> _]]; discriminate.
      * intros (g & Hg & _). now elim (Hno g).
    + intros n. destruct Hr as [[-> _]|[-> _]]; discriminate.
    + destruct Hr as [[-> Hone]|[-> Hone]]; split; trivial;
        try discriminate. intros H. now elim Hone.
    + split.
      * destruct Hr as [[-> _]|[-> _]]; discriminate.
      * intros (g & Hg & _). now elim (Hno g).
    + intros e. destruct Hr as [[-> _]|[-> _]]; intros H;
        injection H as <-; auto.
Qed.

End NumPages.

Lemma get_num_pages_outcomes_witness :
  ListParser.get_num_pages failing_remote
    "https://idol.st/ajax/allstars/stills/?page="
    (Parser.set_session Parser.init) = Raise IndexError <->
  exists item link,
    Bs4.find_class "pagination" stills_list_page = Some item /\
    Bs4.find_all_name "a" item = [link].
Proof.
  apply (get_num_pages_outcomes failing_remote
           "https://idol.st/ajax/allstars/stills/?page="
           (Parser.set_session Parser.init) stills_list_page);
    reflexivity.
Defined.

(** X4: without a session no parser sends a request: [get_page],
    [get_num_pages] and [get_item] raise [NoHTTPSessionException]
    whatever the site would answer, and [get_item] leaves the parser, its
    stored soup included, as it was. *)
Theorem parsers_need_a_session :
  forall (http_get : string -> result Bs4.soup) (self : Parser.t),
    Parser.session self = false ->
    (forall template num,
        ListParser.get_page http_get template self num
        = Raise NoHTTPSessionException) /\
    (forall template,
        ListParser.get_num_pages http_get template self
        = Raise NoHTTPSessionException) /\
    (forall (Item : Type) get_url
            (create_item : option Bs4.soup -> Z -> result (Z * Item)) num,
        Parser.get_item http_get get_url create_item self num
        = (self, Raise NoHTTPSessionException)).
Proof.
  intros http_get self Hs. repeat split; intros;
    unfold ListParser.get_page, ListParser.get_num_pages, Parser.get_item,
      Parser.soup_page, Parser.get_html; now rewrite Hs.
Qed.

Lemma parsers_need_a_session_witness :
  ListParser.get_page (fun _ => Ok sample_list_page) "list?page="
    Parser.init 1 = Raise NoHTTPSessionException.
Proof.
  apply (proj1 (parsers_need_a_session (fun _ => Ok sample_list_page)
                  Parser.init eq_refl)).
Defined.


(* ===================================================================== *)
(** ** Further properties: the detail parsers *)
(* ===================================================================== *)

Lemma string_strong_ind (P : string -> Prop) :
  (forall s,
      (forall t, (String.length t < String.length s)%nat -> P t) -> P s) ->
  forall s, P s.
Proof.
  intros H s. remember (String.length s) as n eqn:E. revert s E.
  induction n as [n IH] using lt_wf_ind. intros s ->.
  apply H. intros t Ht. now apply (IH (String.length t)).
Qed.

Lemma lstrip_unfold (s : string) :
  PyStr.lstrip s =
  match s with
  | String a s1 =>
      if PyStr.is_space1 a then PyStr.lstrip s1
      else match s1 with
           | String b s2 =>
               if PyStr.is_space2 a b then PyStr.lstrip s2
               else match s2 with
                    | String c s3 =>
                        if PyStr.is_space3 a b c then PyStr.lstrip s3 else s
                    | EmptyString => s
                    end
           | EmptyString => s
           end
  | EmptyString => EmptyString
  end.
Proof. destruct s; reflexivity. Qed.

(** What [lstrip] leaves does not begin with a whitespace character. *)
Lemma space_width_lstrip (s : string) :
  PyStr.space_width (PyStr.lstrip s) = 0%nat.
Proof.
  induction s as [s IH] using string_strong_ind.
  rewrite lstrip_unfold. destruct s as [|a [|b [|c s3]]]; [reflexivity|..];
    cbn [PyStr.space_width].
  - destruct (PyStr.is_space1 a) eqn:E1; [reflexivity|].
    cbn [PyStr.space_width]. now rewrite E1.
  - destruct (PyStr.is_space1 a) eqn:E1; [apply IH; simpl; lia|].
    destruct (PyStr.is_space2 a b) eqn:E2; [reflexivity|].
    cbn [PyStr.space_width]. now rewrite E1, E2.
  - destruct (PyStr.is_space1 a) eqn:E1; [apply IH; simpl; lia|].
    destruct (PyStr.is_space2 a b) eqn:E2; [apply IH; simpl; lia|].
    destruct (PyStr.is_space3 a b c) eqn:E3; [apply IH; simpl; lia|].
    cbn [PyStr.space_width]. now rewrite E1, E2, E3.
Qed.

Lemma lstrip_is_suffix (s : string) : exists pre, s = pre ++ PyStr.lstrip s.
Proof.
  induction s as [s IH] using string_strong_ind.
  rewrite lstrip_unfold. destruct s as [|a [|b [|c s3]]]; [now exists ""|..].
  - destruct (PyStr.is_space1 a); [now exists (String a "")|now exists ""].
  - destruct (PyStr.is_space1 a).
    { destruct (IH (String b "")) as [pre E]; [simpl; lia|].
      exists (String a pre). cbn [append]. now rewrite <- E. }
    destruct (PyStr.is_space2 a b);
      [now exists (String a (String b ""))|now exists ""].
  - destruct (PyStr.is_space1 a).
    { destruct (IH (String b (String c s3))) as [pre E]; [simpl; lia|].
      exists (String a pre). cbn [append]. now rewrite <- E. }
    destruct (PyStr.is_space2 a b).
    { destruct (IH (String c s3)) as [pre E]; [simpl; lia|].
      exists (String a (String b pre)). cbn [append]. now rewrite <- E. }
    destruct (PyStr.is_space3 a b c); [|now exists ""].
    destruct (IH s3) as [pre E]; [simpl; lia|].
    exists (String a (String b (String c pre))). cbn [append]. now rewrite <- E.
Qed.

(** The table of whitespace characters and the tests of the code
    agree: a string that begins with an entry of the table begins with
    whitespace, and [lstrip] removes the entry. *)
Lemma whitespace_lstrip (w : string) :
  In w whitespace ->
  forall r, PyStr.space_width (w ++ r) <> 0%nat /\
            PyStr.lstrip (w ++ r) = PyStr.lstrip r.
Proof.
  intros Hin r. unfold whitespace in Hin. cbn [map] in Hin.
  repeat (destruct Hin as [<-|Hin];
          [split; [discriminate|reflexivity]|]).
  destruct Hin.
Qed.

Lemma whitespace_nonempty (w : string) : In w whitespace -> w <> "".
Proof.
  intros Hin ->. destruct (whitespace_lstrip "" Hin "") as [H _].
  now apply H.
Qed.

Lemma rstrip_is_prefix (s : string) :
  exists post, s = PyStr.rstrip s ++ post /\ PyStr.is_blank post = true.
Proof.
  induction s as [|c s (post & IH & Hb)]; [now exists ""|].
  cbn [PyStr.rstrip].
  destruct (PyStr.is_blank (String c s)) eqn:E.
  - now exists (String c s).
  - exists post. split; [|exact Hb]. simpl. now rewrite <- IH.
Qed.

(** What [rstrip] leaves does not end with a whitespace character. *)
Lemma rstrip_no_tail (s : string) :
  forall w r, In w whitespace -> PyStr.rstrip s <> r ++ w.
Proof.
  induction s as [|c s IH]; intros w r Hin.
  - simpl. intros E. apply (whitespace_nonempty w Hin).
    destruct r; [now simpl in E|discriminate].
  - cbn [PyStr.rstrip].
    destruct (PyStr.is_blank (String c s)) eqn:Eb.
    + intros E. apply (whitespace_nonempty w Hin).
      destruct r; [now simpl in E|discriminate].
    + destruct r as [|c' r]; simpl.
      * intros E.
        destruct (rstrip_is_prefix s) as (post & Es & Hb).
        assert (Ew : String c s = w ++ post).
        { rewrite <- E. simpl. now rewrite <- Es. }
        unfold PyStr.is_blank in Eb, Hb.
        rewrite Ew, (proj2 (whitespace_lstrip w Hin post)) in Eb.
        congruence.
      * intros E. injection E as _ E. now apply (IH w r Hin).
Qed.

(** What [strip] returns has no whitespace around it. *)
Lemma strip_trimmed (s : string) : trimmed (PyStr.strip s).
Proof.
  intros w r Hin. unfold PyStr.strip. split.
  - intros E.
    destruct (rstrip_is_prefix (PyStr.lstrip s)) as (post & Es & _).
    pose proof (space_width_lstrip s) as H0.
    rewrite Es, E, string_app_assoc in H0.
    now apply (proj1 (whitespace_lstrip w Hin (r ++ post))).
  - now apply rstrip_no_tail.
Qed.

Lemma occurs_strip (pat s : string) :
  occurs pat (PyStr.strip s) -> occurs pat s.
Proof.
  unfold PyStr.strip. intros (pre & post & E).
  destruct (lstrip_is_suffix s) as (l & El).
  destruct (rstrip_is_prefix (PyStr.lstrip s)) as (r & Er & _).
  exists (l ++ pre), (post ++ r).
  rewrite El at 1. rewrite Er at 1. rewrite E.
  now rewrite !string_app_assoc.
Qed.

Example strip_takes_unicode_whitespace :
  PyStr.strip (bytes [32; 194; 160] ++ "UR" ++ bytes [227; 128; 128; 10])
  = "UR" /\
  PyStr.strip (bytes [194; 160; 195; 169; 32; 97; 226; 128; 175])
  = bytes [195; 169; 32; 97].
Proof. split; reflexivity. Qed.

Lemma partition_head_unfold (sep s : string) :
  PyStr.partition_head sep s =
  if prefix sep s then EmptyString
  else match s with
       | EmptyString => EmptyString
       | String c s' => String c (PyStr.partition_head sep s')
       end.
Proof. destruct s; reflexivity. Qed.

Lemma partition_head_is_prefix (sep s : string) :
  exists rest, s = PyStr.partition_head sep s ++ rest.
Proof.
  induction s as [|c s [rest IH]]; rewrite partition_head_unfold.
  - destruct (prefix sep ""); now exists "".
  - destruct (prefix sep (String c s)); [now exists (String c s)|].
    exists rest. simpl. now rewrite <- IH.
Qed.

Lemma prefix_app_r (p a b : string) :
  prefix p a = true -> prefix p (a ++ b) = true.
Proof.
  intros H. apply prefix_split in H as [t ->].
  rewrite string_app_assoc. apply prefix_app.
Qed.

(** The text before the first occurrence of a marker does not contain
    the marker. *)
Lemma partition_head_free (sep s : string) :
  sep <> "" -> PyStr.search_literal sep (PyStr.partition_head sep s) = false.
Proof.
  intros Hne. induction s as [|c s IH]; rewrite partition_head_unfold.
  - assert (E : PyStr.search_literal sep "" = false)
      by (destruct sep; [now elim Hne|reflexivity]).
    destruct (prefix sep ""); exact E.
  - destruct (prefix sep (String c s)) eqn:Ep.
    + destruct sep; [now elim Hne|reflexivity].
    + rewrite search_literal_unfold, IH, orb_false_r.
      destruct (prefix sep (String c (PyStr.partition_head sep s))) eqn:Eq;
        [|reflexivity].
      destruct (partition_head_is_prefix sep s) as (rest & Er).
      apply (prefix_app_r _ _ rest) in Eq.
      change (String c (PyStr.partition_head sep s) ++ rest)
        with (String c (PyStr.partition_head sep s ++ rest)) in Eq.
      rewrite <- Er in Eq. congruence.
Qed.

Lemma get_data_field_exn (soup : option Bs4.soup) (field : string) (e : exn) :
  CardParser.get_data_field soup field = Raise e -> parse_exn e.
Proof.
  unfold CardParser.get_data_field, parse_exn.
  destruct soup as [page|]; [|intros H; injection H as <-; now left].
  destruct (Bs4.find_attr _ _ _) as [data|];
    [|intros H; injection H as <-; now left].
  destruct (Bs4.find_all_name "td" data) as [|a [|b r]];
    try discriminate; intros H; injection H as <-; now right.
Qed.

Lemma plain_info_spec (soup : option Bs4.soup) (info : string) :
  (forall v, CardParser.plain_info soup info = Ok v -> trimmed v) /\
  (forall e, CardParser.plain_info soup info = Raise e -> parse_exn e).
Proof.
  unfold CardParser.plain_info.
  destruct (CardParser.get_data_field soup info) as [data|e0] eqn:E; simpl.
  - split; [|discriminate].
    intros v H. injection H as <-. apply strip_trimmed.
  - split; [discriminate|].
    intros e H. injection H as <-. now apply (get_data_field_exn soup info).
Qed.

Lemma get_item_info_spec (soup : option Bs4.soup) (info : string) :
  (forall v, CardParser.get_item_info soup info = Ok v -> trimmed v) /\
  (forall e, CardParser.get_item_info soup info = Raise e -> parse_exn e).
Proof.
  unfold CardParser.get_item_info.
  destruct (String.eqb info "idol"); [|apply plain_info_spec].
  destruct (CardParser.get_data_field soup "idol") as [data|e0] eqn:E; simpl.
  - destruct (Bs4.find_name "span" data); [|apply plain_info_spec].
    split; [|discriminate].
    intros v H. injection H as <-. apply strip_trimmed.
  - split; [discriminate|].
    intros e H. injection H as <-.
    now apply (get_data_field_exn soup "idol").
Qed.

(** X5: the name that [get_item_info] returns for the idol, when the
    data cell holds a [span], is the text of the span before the marker
    phrase, stripped: it does not contain ["Open idol"], it is a part of
    the text of the span, and it neither begins nor ends with a
    whitespace character. *)
Theorem idol_name_is_cut_at_the_marker
    (soup : option Bs4.soup) (data found : Bs4.node) (v : string) :
  CardParser.get_data_field soup "idol" = Ok data ->
  Bs4.find_name "span" data = Some found ->
  CardParser.get_item_info soup "idol" = Ok v ->
  v = PyStr.strip (PyStr.partition_head "Open idol" (Bs4.get_text found)) /\
  ~ occurs "Open idol" v /\
  trimmed v /\
  exists before after, Bs4.get_text found = before ++ v ++ after.
Proof.
  intros Hd Hf Hv. unfold CardParser.get_item_info in Hv.
  simpl String.eqb in Hv. cbv iota in Hv.
  rewrite Hd in Hv. simpl in Hv. rewrite Hf in Hv. injection Hv as <-.
  split; [reflexivity|]. split; [|split].
  - intros H. apply occurs_strip, search_literal_occurs in H.
    rewrite partition_head_free in H; discriminate.
  - apply strip_trimmed.
  - set (h := PyStr.partition_head "Open idol" (Bs4.get_text found)).
    destruct (partition_head_is_prefix "Open idol" (Bs4.get_text found))
      as (rest & Er). fold h in Er.
    destruct (lstrip_is_suffix h) as (l & El).
    destruct (rstrip_is_prefix (PyStr.lstrip h)) as (r & Err & _).
    exists l, (r ++ rest). unfold PyStr.strip.
    rewrite Er, El at 1. rewrite Err at 1.
    now rewrite !string_app_assoc.
Qed.

Lemma idol_name_is_cut_at_the_marker_witness :
  "Honoka Kosaka"
  = PyStr.strip
      (PyStr.partition_head "Open idol"
         (Bs4.get_text
            (Bs4.Tag "span" [] []
               [Bs4.NavigableString padded_idol_text]))) /\
  ~ occurs "Open idol" "Honoka Kosaka" /\
  trimmed "Honoka Kosaka" /\
  exists before after,
    Bs4.get_text
      (Bs4.Tag "span" [] [] [Bs4.NavigableString padded_idol_text])
    = before ++ "Honoka Kosaka" ++ after.
Proof.
  apply (idol_name_is_cut_at_the_marker
           (Some (card_detail_page "//i.idol.st/u/card/5.png"
                    "//i.idol.st/u/card/5i.png"))
           (Bs4.Tag "td" [] []
              [Bs4.Tag "span" [] []
                 [Bs4.NavigableString padded_idol_text]])
           (Bs4.Tag "span" [] []
              [Bs4.NavigableString padded_idol_text]));
    reflexivity.
Defined.

Lemma get_item_image_urls_spec (soup : option Bs4.soup) :
  (forall first second,
      CardParser.get_item_image_urls soup = Ok (first, second) ->
      exists page top link0 link1 rest,
        soup = Some page /\
        Bs4.find_class "top-item" page = Some top /\
        Bs4.find_all_name "a" top = link0 :: link1 :: rest /\
        Bs4.get "href" link0 = PStr first /\
        Bs4.get "href" link1 = PStr second) /\
  (forall e, CardParser.get_item_image_urls soup = Raise e -> parse_exn e).
Proof.
  unfold CardParser.get_item_image_urls, parse_exn.
  destruct soup as [page|];
    [|split; [discriminate|intros e H; injection H as <-; now left]].
  destruct (Bs4.find_class "top-item" page) as [top|] eqn:Et;
    [|split; [discriminate|intros e H; injection H as <-; now left]].
  destruct (Bs4.find_all_name "a" top) as [|link0 rest] eqn:El;
    [split; [discriminate|intros e H; injection H as <-; now left]|].
  destruct (Bs4.get "href" link0) as [first|] eqn:E0;
    [|split; [discriminate|intros e H; injection H as <-; now left]].
  destruct rest as [|link1 rest];
    [split; [discriminate|intros e H; injection H as <-; now right]|].
  destruct (Bs4.get "href" link1) as [second|] eqn:E1;
    [|split; [discriminate|intros e H; injection H as <-; now left]].
  split; [|discriminate].
  intros f s H. injection H as <- <-.
  now exists page, top, link0, link1, rest.
Qed.

(** X6: when [CardParser.create_item] returns, the number it returns and
    the key of the card are the number asked for, the two URLs are the
    [href]s of the first two anchors of the first top-item element, and
    no text field begins or ends with a whitespace character.  It raises
    [ItemParsingException] or [IndexError] and nothing else; a top-item
    element with a single anchor gives [IndexError]. *)
Theorem card_parser_outcomes (soup : option Bs4.soup) (num : Z) :
  (forall n c,
      CardParser.create_item soup num = Ok (n, c) ->
      n = num /\ Card.key c = num /\
      (exists page top link0 link1 rest,
          soup = Some page /\
          Bs4.find_class "top-item" page = Some top /\
          Bs4.find_all_name "a" top = link0 :: link1 :: rest /\
          Bs4.get "href" link0 = PStr (Card.normal_url c) /\
          Bs4.get "href" link1 = PStr (Card.idolized_url c)) /\
      trimmed (Card.idol c) /\
      trimmed (Card.rarity c) /\
      trimmed (Card.attribute c) /\
      trimmed (Card.unit c) /\
      trimmed (Card.subunit c) /\
      trimmed (Card.year c)) /\
  (forall e, CardParser.create_item soup num = Raise e -> parse_exn e) /\
  (forall page top link0 href,
      soup = Some page ->
      Bs4.find_class "top-item" page = Some top ->
      Bs4.find_all_name "a" top = [link0] ->
      Bs4.get "href" link0 = PStr href ->
      CardParser.create_item soup num = Raise IndexError).
Proof.
  unfold CardParser.create_item.
  destruct (get_item_image_urls_spec soup) as [Hu Hue].
  split; [|split].
  - destruct (CardParser.get_item_image_urls soup) as [[first second]|e0];
      [|discriminate].
    specialize (Hu first second eq_refl). simpl.
    destruct (CardParser.get_item_info soup "idol") as [idol|] eqn:E1;
      [|discriminate]; simpl.
    destruct (CardParser.get_item_info soup "rarity") as [rarity|] eqn:E2;
      [|discriminate]; simpl.
    destruct (CardParser.get_item_info soup "attribute") as [attr|] eqn:E3;
      [|discriminate]; simpl.
    destruct (CardParser.get_item_info soup "i_unit") as [unit|] eqn:E4;
      [|discriminate]; simpl.
    destruct (CardParser.get_item_info soup "i_subunit") as [sub|] eqn:E5;
      [|discriminate]; simpl.
    destruct (CardParser.get_item_info soup "i_year") as [year|] eqn:E6;
      [|discriminate]; simpl.
    intros n c H. injection H as <- <-. simpl.
    split; [reflexivity|]. split; [reflexivity|]. split; [exact Hu|].
    split; [exact (proj1 (get_item_info_spec soup _) _ E1)|].
    split; [exact (proj1 (get_item_info_spec soup _) _ E2)|].
    split; [exact (proj1 (get_item_info_spec soup _) _ E3)|].
    split; [exact (proj1 (get_item_info_spec soup _) _ E4)|].
    split; [exact (proj1 (get_item_info_spec soup _) _ E5)|].
    exact (proj1 (get_item_info_spec soup _) _ E6).
  - destruct (CardParser.get_item_image_urls soup) as [urls|e0]; simpl;
      [|intros e H; injection H as <-; now apply Hue].
    repeat
      match goal with
      | |- context [CardParser.get_item_info soup ?f] =>
          let E := fresh "E" in
          destruct (CardParser.get_item_info soup f) eqn:E; simpl;
          [|intros e' H; injection H as <-;
            now apply (proj2 (get_item_info_spec soup f))]
      end.
    discriminate.
  - intros page top link0 href -> Ht Hl Hh.
    unfold CardParser.get_item_image_urls. now rewrite Ht, Hl, Hh.
Qed.

Lemma card_parser_outcomes_witness :
  CardParser.create_item (Some page_with_one_anchor) 5 = Raise IndexError.
Proof.
  apply (proj2 (proj2 (card_parser_outcomes (Some page_with_one_anchor) 5))
           page_with_one_anchor
           (Bs4.Tag "div" ["top-item"] [] [anchor "//i.idol.st/u/card/5.png"])
           (anchor "//i.idol.st/u/card/5.png") "//i.idol.st/u/card/5.png");
    reflexivity.
Defined.

Example card_parser_on_sample_page :
  CardParser.create_item
    (Some (card_detail_page "//i.idol.st/u/card/5.png"
             "//i.idol.st/u/card/5i.png")) 5
  = Ok (5%Z, Card.mk 5 "Honoka Kosaka" "UR" "Smile" "Muse" "Printemps"
               "Second" "//i.idol.st/u/card/5.png"
               "//i.idol.st/u/card/5i.png").
Proof. reflexivity. Qed.

(** X7: when [StillParser.create_item] returns, the number it returns
    and the key of the still are the number asked for and the URL is what
    [get("href")] gives on the first anchor of the first top-item
    element.  It raises [ItemParsingException] only, and exactly when
    there is no soup, no top-item element, or no anchor in it: a single
    anchor is enough. *)
Theorem still_parser_outcomes (soup : option Bs4.soup) (num : Z) :
  (forall n st,
      StillParser.create_item soup num = Ok (n, st) ->
      n = num /\ Still.key st = num /\
      exists page top link0 rest,
        soup = Some page /\
        Bs4.find_class "top-item" page = Some top /\
        Bs4.find_all_name "a" top = link0 :: rest /\
        Still.url st = Bs4.get "href" link0) /\
  (forall e, StillParser.create_item soup num = Raise e ->
             e = ItemParsingException) /\
  (StillParser.create_item soup num = Raise ItemParsingException <->
   soup = None \/
   exists page,
     soup = Some page /\
     (Bs4.find_class "top-item" page = None \/
      exists top, Bs4.find_class "top-item" page = Some top /\
                  Bs4.find_all_name "a" top = [])).
Proof.
  unfold StillParser.create_item, StillParser.get_item_image_url.
  destruct soup as [page|].
  2:{ split; [discriminate|]. split.
      - intros e H. now injection H as <-.
      - split; [now left|reflexivity]. }
  destruct (Bs4.find_class "top-item" page) as [top|] eqn:Et.
  2:{ split; [discriminate|]. split.
      - intros e H. now injection H as <-.
      - split; [|reflexivity]. intros _. right. exists page. auto. }
  destruct (Bs4.find_all_name "a" top) as [|link0 rest] eqn:El; simpl.
  - split; [discriminate|]. split.
    + intros e H. now injection H as <-.
    + split; [|reflexivity]. intros _. right. exists page.
      split; [reflexivity|]. right. now exists top.
  - split; [|split; [discriminate|]].
    + intros n st H. injection H as <- <-. repeat split.
      now exists page, top, link0, rest.
    + split; [discriminate|].
      intros [H|(p & Hp & [H|(t & Ht & Hl)])]; [discriminate| |];
        injection Hp as <-; rewrite Et in *; [discriminate|].
      injection Ht as <-. rewrite El in Hl. discriminate.
Qed.

Lemma still_parser_outcomes_witness :
  7%Z = 7%Z /\ Still.key sample_still_2x = 7%Z /\
  exists page top link0 rest,
    Some (still_detail_page "//i.idol.st/u/still/2x/7.png") = Some page /\
    Bs4.find_class "top-item" page = Some top /\
    Bs4.find_all_name "a" top = link0 :: rest /\
    Still.url sample_still_2x = Bs4.get "href" link0.
Proof.
  apply (proj1 (still_parser_outcomes
                  (Some (still_detail_page "//i.idol.st/u/still/2x/7.png")) 7)
           7%Z sample_still_2x).
  reflexivity.
Defined.


(* ===================================================================== *)
(** ** Further properties: saving the catalogue *)
(* ===================================================================== *)

Section SavedCatalogue.
Context {T : Type} {img_type : ImgType T}.
Variable http_get : string -> result Bs4.soup.
Variable store_save : list (Z * T) -> result Datatypes.unit.

Lemma insert_item_perm (e : Z * T) (d : list (Z * T)) :
  Permutation (e :: d) (Downloader.insert_item e d).
Proof.
  induction d as [|e' d IH]; simpl; [apply Permutation_refl|].
  destruct (fst e' <=? fst e)%Z; [apply Permutation_refl|].
  eapply perm_trans; [apply perm_swap|]. now apply perm_skip.
Qed.

Lemma insert_item_sorted (e : Z * T) (d : list (Z * T)) :
  Sorted key_ge d -> Sorted key_ge (Downloader.insert_item e d).
Proof.
  induction 1 as [|e' d Hs IH Hhd]; simpl; [repeat constructor|].
  destruct (Z.leb_spec (fst e') (fst e)) as [Hle|Hlt].
  - constructor; [now constructor|]. constructor. unfold key_ge. lia.
  - constructor; [exact IH|].
    destruct d as [|e2 d]; simpl.
    + constructor. unfold key_ge. lia.
    + destruct (fst e2 <=? fst e)%Z; constructor;
        [unfold key_ge; lia|now inversion Hhd].
Qed.

Lemma sorted_items_reverse_perm (d : list (Z * T)) :
  Permutation d (Downloader.sorted_items_reverse d).
Proof.
  induction d as [|e d IH]; simpl; [constructor|].
  eapply perm_trans; [apply perm_skip, IH|]. apply insert_item_perm.
Qed.

Lemma sorted_items_reverse_sorted (d : list (Z * T)) :
  Sorted key_ge (Downloader.sorted_items_reverse d).
Proof.
  induction d as [|e d IH]; simpl; [constructor|].
  now apply insert_item_sorted.
Qed.

Lemma key_ge_trans : Relations_1.Transitive (@key_ge T).
Proof. intros a b c. unfold key_ge. lia. Qed.

Lemma sorted_distinct_keys_strict (d : list (Z * T)) :
  Sorted key_ge d -> NoDup (map fst d) -> Sorted key_gt d.
Proof.
  intros Hs Hn. apply (Sorted_StronglySorted key_ge_trans) in Hs.
  apply StronglySorted_Sorted.
  induction Hs as [|e d Hs IH Hall]; [constructor|].
  simpl in Hn. inversion Hn as [|k ks Hnotin Hn']; subst.
  constructor; [now apply IH|].
  rewrite Forall_forall in *. intros x Hx.
  specialize (Hall x Hx). unfold key_ge, key_gt in *.
  assert (fst x <> fst e).
  { intros E. apply Hnotin. rewrite <- E. now apply in_map. }
  lia.
Qed.

(** X8: [update_json_file] leaves the catalogue with the same entries
    in descending order of key (strictly descending when the keys are
    distinct, as those of a dictionary are), hands that catalogue, once,
    to the store, and returns or raises as the store does.  A run of
    [update] that returns has handed the store one catalogue, the sorted
    catalogue it ends with, and the store has accepted it. *)
Theorem update_saves_the_sorted_catalogue :
  (forall s : Downloader.state T,
      exists s',
        Downloader.update_json_file store_save s
        = (s', store_save (Downloader.objs s')) /\
        Permutation (Downloader.objs s) (Downloader.objs s') /\
        Sorted key_ge (Downloader.objs s') /\
        (NoDup (map fst (Downloader.objs s)) ->
         Sorted key_gt (Downloader.objs s')) /\
        Downloader.saved s' = Downloader.objs s' :: Downloader.saved s) /\
  (forall s s' : Downloader.state T,
      Downloader.update http_get store_save s = (s', Ok tt) ->
      Downloader.saved s' = Downloader.objs s' :: Downloader.saved s /\
      Sorted key_ge (Downloader.objs s') /\
      store_save (Downloader.objs s') = Ok tt).
Proof.
  assert (H1 : forall s : Downloader.state T,
             exists s',
               Downloader.update_json_file store_save s
               = (s', store_save (Downloader.objs s')) /\
               Permutation (Downloader.objs s) (Downloader.objs s') /\
               Sorted key_ge (Downloader.objs s') /\
               (NoDup (map fst (Downloader.objs s)) ->
                Sorted key_gt (Downloader.objs s')) /\
               Downloader.saved s' = Downloader.objs s' :: Downloader.saved s).
  { intros s.
    exists (Downloader.dump
              (Downloader.set_objs
                 (Downloader.sorted_items_reverse (Downloader.objs s)) s)).
    split; [reflexivity|]. simpl.
    split; [apply sorted_items_reverse_perm|].
    split; [apply sorted_items_reverse_sorted|].
    split; [|reflexivity].
    intros Hn. apply sorted_distinct_keys_strict;
      [apply sorted_items_reverse_sorted|].
    eapply Permutation_NoDup; [|exact Hn].
    apply Permutation_map, sorted_items_reverse_perm. }
  split; [exact H1|].
  intros s s' Hrun.
  unfold Downloader.update, Downloader.bindM in Hrun.
  cbn [Downloader.modify] in Hrun.
  pose proof (keeps_saved_get_cards_from_parser http_get
                (Downloader.print "Searching for new or missing items..." s))
    as K1.
  destruct (Downloader.get_cards_from_parser http_get _) as [s1 [[]|e1]];
    [|discriminate].
  pose proof (keeps_saved_update_all http_get
                (Downloader.print
                   "Checking if items can be updated to better resolution..."
                   s1)) as K2.
  destruct (Downloader.update_all http_get _) as [s2 [[]|e2]];
    [|discriminate].
  destruct (H1 s2) as (s3 & E3 & _ & Hs3 & _ & Hsv3).
  rewrite E3 in Hrun.
  destruct (store_save (Downloader.objs s3)) as [[]|e3] eqn:Es;
    [|discriminate].
  injection Hrun as <-. simpl in *.
  split; [congruence|]. split; [exact Hs3|exact Es].
Qed.

End SavedCatalogue.

Example healthy_update_run :
  snd (healthy_update (Downloader.init [])) = Ok tt /\
  Downloader.saved (fst (healthy_update (Downloader.init [])))
  = [[(8%Z, still_8_low_res); (7%Z, sample_still_2x)]] /\
  Downloader.out (fst (healthy_update (Downloader.init [])))
  = ["Updated items database.";
     "Checking if items can be updated to better resolution...";
     "Getting item 7."; "Getting item 8.";
     "Searching for new or missing items..."].
Proof. repeat split; vm_compute; reflexivity. Qed.

Example full_store_fails_the_run :
  snd (unsaved_update (Downloader.init []))
  = Raise (OSError "No space left on device") /\
  Downloader.saved (fst (unsaved_update (Downloader.init [])))
  = [[(8%Z, still_8_low_res); (7%Z, sample_still_2x)]].
Proof. split; vm_compute; reflexivity. Qed.

Lemma update_saves_the_sorted_catalogue_witness :
  Downloader.saved (fst (healthy_update (Downloader.init [])))
  = Downloader.objs (fst (healthy_update (Downloader.init [])))
    :: Downloader.saved (Downloader.init []) /\
  Sorted key_ge
    (Downloader.objs (fst (healthy_update (Downloader.init [])))) /\
  sample_store (Downloader.objs (fst (healthy_update (Downloader.init []))))
  = Ok tt.
Proof.
  apply (proj2 (@update_saves_the_sorted_catalogue Still.t
                  (Still_ImgType (consts := sample_consts)) healthy_remote
                  sample_store)
           (Downloader.init [])).
  vm_compute. reflexivity.
Defined.

(* ===================================================================== *)
(** ** Further properties: discovery *)
(* ===================================================================== *)

Section Discovery.
Context {T : Type} {img_type : ImgType T}.
Variable http_get : string -> result Bs4.soup.
Hypothesis keeps_key : parser_keeps_key (T := T).

Abbreviation dstate := (Downloader.state T).

Lemma discovered_refl (s : dstate) : discovered s s.
Proof.
  repeat split; trivial.
  - exists []. now rewrite app_nil_r.
  - now exists [].
Qed.

Lemma key_absent (k : Z) (d : list (Z * T)) :
  existsb (fun e => Z.eqb (fst e) k) d = false <-> ~ In k (map fst d).
Proof.
  induction d as [|[k' v] d IH]; simpl.
  - split; [intros _ []|reflexivity].
  - rewrite orb_false_iff, IH, Z.eqb_neq. tauto.
Qed.

Lemma in_objs_false (k : Z) (s : dstate) :
  Downloader.in_objs k s = false <-> ~ In k (map fst (Downloader.objs s)).
Proof. apply key_absent. Qed.

Lemma dict_set_app (k : Z) (v : T) (base l : list (Z * T)) :
  ~ In k (map fst base) ->
  Downloader.dict_set k v (base ++ l)
  = (base ++ Downloader.dict_set k v l)%list.
Proof.
  induction base as [|[k' v'] base IH]; intros H; simpl in *; [reflexivity|].
  destruct (Z.eqb_spec k' k) as [E|_]; [tauto|].
  rewrite IH; tauto.
Qed.

Lemma dict_set_keys (k : Z) (v : T) (d : list (Z * T)) :
  map fst (Downloader.dict_set k v d)
  = if existsb (fun e => Z.eqb (fst e) k) d
    then map fst d else (map fst d ++ [k])%list.
Proof.
  induction d as [|[k' v'] d IH]; simpl; [reflexivity|].
  destruct (Z.eqb_spec k' k) as [->|_]; simpl; [reflexivity|].
  rewrite IH. now destruct (existsb _ d).
Qed.

Lemma dict_set_NoDup (k : Z) (v : T) (d : list (Z * T)) :
  NoDup (map fst d) -> NoDup (map fst (Downloader.dict_set k v d)).
Proof.
  intros H. rewrite dict_set_keys.
  destruct (existsb _ d) eqn:E; [exact H|].
  apply key_absent in E.
  apply NoDup_app; [exact H|repeat constructor; intros []|].
  intros x Hx [Ex|[]]. subst x. now apply E.
Qed.

Lemma item_parser_get_item_effect (num : Z) (s : dstate) :
  let r := Downloader.item_parser_get_item http_get num s in
  Downloader.objs (fst r) = Downloader.objs s /\
  Downloader.requests (fst r) = parser_get_url num :: Downloader.requests s /\
  Downloader.files (fst r) = Downloader.files s /\
  Downloader.updateables (fst r) = Downloader.updateables s /\
  Downloader.saved (fst r) = Downloader.saved s /\
  Downloader.written (fst r) = Downloader.written s /\
  forall v, snd r = Ok v -> fst v = num.
Proof.
  unfold Downloader.item_parser_get_item.
  destruct (Parser.get_item _ _ _ _ _) as [p' r'] eqn:E; simpl.
  repeat split; trivial.
  intros [n item] H. subst r'. simpl.
  unfold Parser.get_item in E.
  destruct (Parser.soup_page _ _ _ _) as [page|e]; [|discriminate].
  injection E as _ E. now apply keeps_key in E.
Qed.

Lemma add_item_discovered (s0 : dstate) (k : Z) :
  Downloader.in_objs k s0 = false ->
  forall s, discovered s0 s ->
            discovered s0
              (fst (Downloader.add_item_to_object_list http_get k s)).
Proof.
  intros Hk s ((l & Ho) & Hn & (new & Hr & Hf) & Hfi & Hu & Hsv).
  unfold Downloader.add_item_to_object_list, Downloader.bindM.
  destruct (item_parser_get_item_effect k s)
    as (Eo & Er & Efi & Eu & Esv & _ & Ekey).
  assert (Hreq : exists new',
             (parser_get_url k :: Downloader.requests s
              = new' ++ Downloader.requests s0)%list /\
             Forall (discovery_request s0) new').
  { exists (parser_get_url k :: new). split; [now rewrite Hr|].
    constructor; [|exact Hf]. right. now exists k. }
  destruct (Downloader.item_parser_get_item http_get k s) as [s1 [r|e]];
    cbn [fst snd] in Eo, Er, Efi, Eu, Esv, Ekey.
  - specialize (Ekey r eq_refl). unfold discovered.
    cbn [fst Downloader.modify Downloader.set_objs Downloader.print
         Downloader.objs Downloader.requests Downloader.files
         Downloader.updateables Downloader.saved].
    rewrite Ekey, Eo, Er, Efi, Eu, Esv, Ho.
    split; [|split; [|split; [exact Hreq|auto]]].
    + exists (Downloader.dict_set k (snd r) l).
      apply dict_set_app. now apply in_objs_false.
    + intros H0. apply dict_set_NoDup. rewrite <- Ho. now apply Hn.
  - unfold discovered. cbn [fst]. rewrite Eo, Er, Efi, Eu, Esv.
    split; [now exists l|]. split; [exact Hn|]. split; [exact Hreq|auto].
Qed.

Lemma list_request_discovered (s0 s : dstate) (i : Z) :
  discovered s0 s ->
  discovered s0
    (Downloader.request (ListParser.get_url get_list_template i) s).
Proof.
  intros ((l & Ho) & Hn & (new & Hr & Hf) & Hfi & Hu & Hsv).
  repeat split; trivial.
  - now exists l.
  - exists (ListParser.get_url get_list_template i :: new). simpl.
    split; [now rewrite Hr|]. constructor; [|exact Hf]. left. now exists i.
Qed.

Lemma gather_pages_discovered (s0 : dstate) (nums : list Z) :
  forall s, discovered s0 s ->
            discovered s0 (fst (Downloader.gather_pages http_get nums s)).
Proof.
  intros s Hs. unfold Downloader.gather_pages.
  apply gather_invariant; [|exact Hs].
  intros task Hin s1 H1. apply in_map_iff in Hin as (i & <- & _).
  now apply list_request_discovered.
Qed.

Lemma fetch_new_items_discovered (s0 : dstate) (page : list Z) :
  forall s, discovered s0 s ->
            discovered s0 (fst (Downloader.fetch_new_items http_get page s)).
Proof.
  intros s Hs. unfold Downloader.fetch_new_items.
  apply (bindM_invariant (discovered s0)); [|trivial|exact Hs].
  intros s1 H1. apply gather_invariant; [|exact H1].
  intros task Hin. apply in_map_iff in Hin as (k & <- & Hk).
  apply add_item_discovered.
  apply filter_In in Hk as [_ Hk]. apply negb_true_iff in Hk.
  apply in_objs_false. apply in_objs_false in Hk.
  destruct Hs as ((l & Ho) & _). rewrite Ho, map_app in Hk.
  intros H. apply Hk, in_or_app. now left.
Qed.

(** X9: whether it returns or raises, [get_cards_from_parser] leaves
    every entry that the catalogue held where it was and as it was, and
    only adds entries after them; the keys stay distinct; the only
    addresses it requests are listing pages and the detail pages of keys
    the catalogue did not hold; it touches neither the files, nor the
    pending list, nor the store. *)
Theorem discovery_keeps_the_catalogue (s s' : dstate)
    (r : result Datatypes.unit) :
  Downloader.get_cards_from_parser http_get s = (s', r) ->
  (exists l, Downloader.objs s' = (Downloader.objs s ++ l)%list) /\
  (NoDup (map fst (Downloader.objs s)) ->
   NoDup (map fst (Downloader.objs s'))) /\
  (exists new,
      Downloader.requests s' = (new ++ Downloader.requests s)%list /\
      Forall (discovery_request s) new) /\
  Downloader.files s' = Downloader.files s /\
  Downloader.updateables s' = Downloader.updateables s /\
  Downloader.saved s' = Downloader.saved s.
Proof.
  intros Hrun.
  change (discovered s s').
  replace s' with (fst (Downloader.get_cards_from_parser http_get s))
    by now rewrite Hrun.
  unfold Downloader.get_cards_from_parser.
  apply bindM_invariant; [| |apply discovered_refl].
  { intros s1 H1. exact H1. }
  intros _ s1 H1. apply bindM_invariant; trivial.
  { intros s2 H2. now apply list_request_discovered. }
  intros n s2 H2. apply bindM_invariant; trivial.
  { intros s3 H3. now apply gather_pages_discovered. }
  intros pages s3 H3. apply bindM_invariant; trivial.
  intros _ s4 H4. apply for_each_invariant; trivial.
  intros page _ s5 H5. now apply fetch_new_items_discovered.
Qed.

End Discovery.

Lemma card_parser_keeps_key {consts : Consts} :
  parser_keeps_key (img_type := Card_ImgType).
Proof.
  intros soup num n c H. simpl in H. unfold CardParser.create_item in H.
  destruct (CardParser.get_item_image_urls soup); [|discriminate].
  simpl in H.
  repeat
    match type of H with
    | context [CardParser.get_item_info soup ?f] =>
        destruct (CardParser.get_item_info soup f); simpl in H;
        [|discriminate]
    end.
  now injection H as <- _.
Qed.

Lemma still_parser_keeps_key {consts : Consts} :
  parser_keeps_key (img_type := Still_ImgType).
Proof.
  intros soup num n st H. simpl in H. unfold StillParser.create_item in H.
  destruct (StillParser.get_item_image_url soup); [|discriminate].
  now injection H as <- _.
Qed.

Example healthy_discovery_run :
  snd (healthy_discovery (Downloader.init [])) = Ok tt /\
  Downloader.objs (fst (healthy_discovery (Downloader.init [])))
  = [(8%Z, still_8_low_res); (7%Z, sample_still_2x)] /\
  Downloader.requests (fst (healthy_discovery (Downloader.init [])))
  = ["https://idol.st/ajax/allstars/still/7";
     "https://idol.st/ajax/allstars/still/8";
     "https://idol.st/ajax/allstars/stills/?page=1";
     "https://idol.st/ajax/allstars/stills/?page=1"].
Proof. repeat split; vm_compute; reflexivity. Qed.

Lemma discovery_keeps_the_catalogue_witness :
  (exists l,
      Downloader.objs (fst (healthy_discovery known_catalogue))
      = (Downloader.objs known_catalogue ++ l)%list) /\
  (NoDup (map fst (Downloader.objs known_catalogue)) ->
   NoDup (map fst (Downloader.objs
                     (fst (healthy_discovery known_catalogue))))) /\
  (exists new,
      Downloader.requests (fst (healthy_discovery known_catalogue))
      = (new ++ Downloader.requests known_catalogue)%list /\
      Forall (discovery_request
                (img_type := Still_ImgType (consts := sample_consts))
                known_catalogue) new) /\
  Downloader.files (fst (healthy_discovery known_catalogue))
    = Downloader.files known_catalogue /\
  Downloader.updateables (fst (healthy_discovery known_catalogue))
    = Downloader.updateables known_catalogue /\
  Downloader.saved (fst (healthy_discovery known_catalogue))
    = Downloader.saved known_catalogue.
Proof.
  apply (@discovery_keeps_the_catalogue Still.t
           (Still_ImgType (consts := sample_consts)) healthy_remote
           still_parser_keeps_key known_catalogue
           (fst (healthy_discovery known_catalogue)) (Ok tt)).
  vm_compute. reflexivity.
Defined.

(* ===================================================================== *)
(** ** Further properties: what reconciliation touches *)
(* ===================================================================== *)

Section ReconciliationEffects.
Context {T : Type} {img_type : ImgType T}.
Variable http_get : string -> result Bs4.soup.

Lemma item_parser_get_item_frame (num : Z) (s : Downloader.state T) :
  let s1 := fst (Downloader.item_parser_get_item http_get num s) in
  Downloader.objs s1 = Downloader.objs s /\
  Downloader.files s1 = Downloader.files s /\
  Downloader.written s1 = Downloader.written s /\
  Downloader.updateables s1 = Downloader.updateables s /\
  Downloader.saved s1 = Downloader.saved s.
Proof.
  unfold Downloader.item_parser_get_item.
  destruct (Parser.get_item _ _ _ _ _) as [p' r']. simpl. auto.
Qed.

Lemma update_if_needed_frame (item : T) (s : Downloader.state T) :
  let s1 := fst (fst (Downloader.update_if_needed http_get item s)) in
  Downloader.objs s1 = Downloader.objs s /\
  Downloader.files s1 = Downloader.files s /\
  Downloader.written s1 = Downloader.written s /\
  Downloader.saved s1 = Downloader.saved s /\
  (Downloader.updateables s1 = Downloader.updateables s \/
   Downloader.updateables s1
   = (Downloader.updateables s ++ [key item])%list).
Proof.
  unfold Downloader.update_if_needed.
  destruct (needs_update item) as [[|]|e]; simpl; auto 6.
  destruct (item_parser_get_item_frame (key item) s)
    as (Ho & Hf & Hw & Hu & Hs).
  destruct (Downloader.item_parser_get_item http_get (key item) s)
    as [s1 [[n updated]|e]]; simpl in *; [|auto 6].
  destruct (Downloader.index (get_urls item) 0); [|simpl; auto 6].
  destruct (Downloader.index (get_urls updated) 0); [|simpl; auto 6].
  destruct (Downloader.set_urls_from _ _ _ _) as [item' r].
  destruct (negb _); simpl; rewrite ?Hu; auto 6.
Qed.

Lemma update_items_frame (items : list (Z * T)) :
  forall s,
    let res := Downloader.update_items http_get items s in
    let s1 := fst (fst res) in
    map fst (snd (fst res)) = map fst items /\
    Downloader.objs s1 = Downloader.objs s /\
    Downloader.files s1 = Downloader.files s /\
    Downloader.written s1 = Downloader.written s /\
    Downloader.saved s1 = Downloader.saved s /\
    exists l,
      Downloader.updateables s1 = (Downloader.updateables s ++ l)%list /\
      incl l (map (fun e => key (snd e)) items).
Proof.
  induction items as [|[k item] items IH]; intros s; simpl.
  - repeat split; trivial. exists []. split; [now rewrite app_nil_r|].
    intros x [].
  - destruct (update_if_needed_frame item s) as (Ho & Hf & Hw & Hs & Hu).
    destruct (Downloader.update_if_needed http_get item s)
      as [[s1 item'] [[]|e]]; simpl in *.
    + destruct (IH s1) as (Hk2 & Ho2 & Hf2 & Hw2 & Hs2 & l & Hu2 & Hl).
      destruct (Downloader.update_items http_get items s1)
        as [[s2 rest] r2]; simpl in *.
      split; [now rewrite Hk2|].
      repeat split; try congruence.
      destruct Hu as [Hu|Hu]; rewrite Hu in Hu2.
      * exists l. split; [exact Hu2|]. now apply incl_tl.
      * exists (key item :: l). split.
        -- rewrite Hu2, <- app_assoc. reflexivity.
        -- intros x [<-|Hx]; [now left|right; now apply Hl].
    + repeat split; trivial.
      destruct Hu as [Hu|Hu].
      * exists []. split; [now rewrite app_nil_r|]. intros x [].
      * exists [key item]. split; [exact Hu|].
        intros x [<-|[]]. now left.
Qed.

(** X10: whether it returns or raises, the reconciliation loop of
    [update] keeps the keys of the catalogue and their order, writes no
    file and saves nothing; to the pending list it only appends, and
    what it appends are keys of catalogued items. *)
Theorem reconciliation_only_touches_urls_and_pending
    (s s' : Downloader.state T) (r : result Datatypes.unit) :
  Downloader.update_all http_get s = (s', r) ->
  map fst (Downloader.objs s') = map fst (Downloader.objs s) /\
  Downloader.files s' = Downloader.files s /\
  Downloader.written s' = Downloader.written s /\
  Downloader.saved s' = Downloader.saved s /\
  exists l,
    Downloader.updateables s' = (Downloader.updateables s ++ l)%list /\
    incl l (map (fun e => key (snd e)) (Downloader.objs s)).
Proof.
  unfold Downloader.update_all. intros H.
  destruct (update_items_frame (Downloader.objs s) s)
    as (Hk & Ho & Hf & Hw & Hs & l & Hu & Hl).
  destruct (Downloader.update_items http_get (Downloader.objs s) s)
    as [[s1 objs'] r1]; simpl in *.
  injection H as <- _. simpl.
  repeat split; trivial. now exists l.
Qed.

End ReconciliationEffects.

Lemma reconciliation_only_touches_urls_and_pending_witness :
  let s' := fst (Downloader.update_all
                   (img_type := Still_ImgType (consts := sample_consts))
                   healthy_remote known_catalogue) in
  map fst (Downloader.objs s') = map fst (Downloader.objs known_catalogue) /\
  Downloader.files s' = Downloader.files known_catalogue /\
  Downloader.written s' = Downloader.written known_catalogue /\
  Downloader.saved s' = Downloader.saved known_catalogue /\
  exists l,
    Downloader.updateables s'
    = (Downloader.updateables known_catalogue ++ l)%list /\
    incl l (map (fun e => Still.key (snd e))
              (Downloader.objs known_catalogue)).
Proof.
  apply (@reconciliation_only_touches_urls_and_pending Still.t
           (Still_ImgType (consts := sample_consts)) healthy_remote
           known_catalogue _ (Ok tt)).
  vm_compute. reflexivity.
Defined.

Example reconciliation_on_known_catalogue :
  Downloader.update_all (img_type := Still_ImgType (consts := sample_consts))
    healthy_remote known_catalogue
  = (fst (Downloader.update_all
            (img_type := Still_ImgType (consts := sample_consts))
            healthy_remote known_catalogue), Ok tt) /\
  Downloader.updateables
    (fst (Downloader.update_all
            (img_type := Still_ImgType (consts := sample_consts))
            healthy_remote known_catalogue)) = [7%Z] /\
  Downloader.objs
    (fst (Downloader.update_all
            (img_type := Still_ImgType (consts := sample_consts))
            healthy_remote known_catalogue))
  = [(8%Z, still_8_low_res); (7%Z, sample_still_2x)].
Proof. repeat split; vm_compute; reflexivity. Qed.

Lemma item_parser_get_item_result {T} {img_type : ImgType T}
    (http_get : string -> result Bs4.soup) (num : Z)
    (s s' : Downloader.state T) :
  snd (Downloader.item_parser_get_item http_get num s)
  = snd (Downloader.item_parser_get_item http_get num s').
Proof.
  unfold Downloader.item_parser_get_item, Parser.get_item, Parser.soup_page,
    Parser.get_html, Parser.set_session. simpl.
  destruct (http_get (parser_get_url num)); reflexivity.
Qed.

Section ReconcileTwice.
Context {consts : Consts}.
Variable http_get : string -> result Bs4.soup.

(** X11: whatever the site answers, and whether the call returns or
    raises, [update_if_needed] changes nothing of a card but its two
    URLs and nothing of a still but its URL. *)
Theorem update_if_needed_keeps_the_other_fields :
  (forall (c : Card.t) (s : Downloader.state Card.t),
      let c' := snd (fst (Downloader.update_if_needed http_get c s)) in
      Card.key c' = Card.key c /\ Card.idol c' = Card.idol c /\
      Card.rarity c' = Card.rarity c /\
      Card.attribute c' = Card.attribute c /\
      Card.unit c' = Card.unit c /\ Card.subunit c' = Card.subunit c /\
      Card.year c' = Card.year c) /\
  (forall (st : Still.t) (s : Downloader.state Still.t),
      Still.key (snd (fst (Downloader.update_if_needed http_get st s)))
      = Still.key st).
Proof.
  split.
  - intros c s. unfold Downloader.update_if_needed. simpl needs_update.
    destruct (Card.needs_update c); [|repeat split].
    destruct (Downloader.item_parser_get_item http_get (key c) s)
      as [s1 [[n updated]|e]]; [|repeat split].
    simpl. repeat split.
  - intros st s. unfold Downloader.update_if_needed. simpl needs_update.
    destruct (Still.needs_update st) as [[|]|e]; try reflexivity.
    destruct (Downloader.item_parser_get_item http_get (key st) s)
      as [s1 [[n updated]|e]]; reflexivity.
Qed.

(** X12: reconciling an item a second time against the same site flags
    nothing and changes nothing: after a call of [update_if_needed] that
    returned, a second call on the item as the first left it returns
    too, leaves the item alone and appends nothing to the pending list.
    For a still this holds when the first call left a string in the URL
    slot; when it left [None], the second call raises [TypeError]. *)
Theorem reconciling_twice_flags_nothing_new :
  (forall (c c1 : Card.t) (s s1 : Downloader.state Card.t),
      Downloader.update_if_needed http_get c s = (s1, c1, Ok tt) ->
      exists s2,
        Downloader.update_if_needed http_get c1 s1 = (s2, c1, Ok tt) /\
        Downloader.updateables s2 = Downloader.updateables s1) /\
  (forall (st st1 : Still.t) (s s1 : Downloader.state Still.t) (u : string),
      Downloader.update_if_needed http_get st s = (s1, st1, Ok tt) ->
      Still.url st1 = PStr u ->
      exists s2,
        Downloader.update_if_needed http_get st1 s1 = (s2, st1, Ok tt) /\
        Downloader.updateables s2 = Downloader.updateables s1) /\
  (forall (st st1 : Still.t) (s s1 : Downloader.state Still.t),
      Downloader.update_if_needed http_get st s = (s1, st1, Ok tt) ->
      Still.url st1 = PNone ->
      Downloader.update_if_needed http_get st1 s1
      = (s1, st1, Raise TypeError)).
Proof.
  split; [|split].
  - intros c c1 s s1 H.
    unfold Downloader.update_if_needed in H. simpl needs_update in H.
    destruct (Card.needs_update c) eqn:En.
    2:{ injection H as <- <-. exists s. split; [|reflexivity].
        unfold Downloader.update_if_needed. simpl needs_update.
        now rewrite En. }
    pose proof (item_parser_get_item_result http_get (key c) s s1) as R.
    destruct (Downloader.item_parser_get_item http_get (key c) s)
      as [sa [[n updated]|e]]; [|discriminate].
    simpl in H. injection H as H1 H2.
    assert (Ek : key c1 = key c) by (subst c1; reflexivity).
    assert (En1 : Card.normal_url c1 = Card.normal_url updated)
      by (subst c1; reflexivity).
    assert (Ei1 : Card.idolized_url c1 = Card.idolized_url updated)
      by (subst c1; reflexivity).
    unfold Downloader.update_if_needed. simpl needs_update.
    destruct (Card.needs_update c1); [|now exists s1].
    rewrite Ek.
    destruct (item_parser_get_item_frame http_get (key c) s1)
      as (_ & _ & _ & Hu & _).
    destruct (Downloader.item_parser_get_item http_get (key c) s1)
      as [sb rb]. simpl in R, Hu. subst rb. simpl.
    rewrite En1, String.eqb_refl. simpl.
    exists sb. split; [|exact Hu].
    f_equal. f_equal. destruct c1; simpl in *. now subst.
  - intros st st1 s s1 u H Hurl.
    unfold Downloader.update_if_needed in H. simpl needs_update in H.
    destruct (Still.needs_update st) as [[|]|e0] eqn:En; [| |discriminate].
    2:{ injection H as <- <-. exists s. split; [|reflexivity].
        unfold Downloader.update_if_needed. simpl needs_update.
        now rewrite En. }
    pose proof (item_parser_get_item_result http_get (key st) s s1) as R.
    destruct (Downloader.item_parser_get_item http_get (key st) s)
      as [sa [[n updated]|e]]; [|discriminate].
    simpl in H. injection H as H1 H2.
    assert (Ek : Still.key st1 = Still.key st) by (subst st1; reflexivity).
    assert (Eu : Still.url st1 = Still.url updated)
      by (subst st1; reflexivity).
    change (key st) with (Still.key st) in R.
    unfold Downloader.update_if_needed. simpl needs_update.
    unfold Still.needs_update, Still.is_double_sized. rewrite Hurl. simpl.
    destruct (PyStr.search_literal "/2x/" u); simpl; [now exists s1|].
    rewrite Ek.
    destruct (item_parser_get_item_frame http_get (Still.key st) s1)
      as (_ & _ & _ & Hu & _).
    destruct (Downloader.item_parser_get_item http_get (Still.key st) s1)
      as [sb rb]. simpl in R, Hu. subst rb. simpl.
    rewrite <- Eu, Hurl. simpl. rewrite String.eqb_refl. simpl.
    exists sb. split; [|exact Hu].
    f_equal. f_equal. destruct st1; simpl in *. now subst.
  - intros st st1 s s1 _ Hurl.
    unfold Downloader.update_if_needed. simpl needs_update.
    unfold Still.needs_update, Still.is_double_sized. now rewrite Hurl.
Qed.

End ReconcileTwice.

Lemma reconciling_twice_flags_nothing_new_witness :
  exists s2,
    Downloader.update_if_needed
      (img_type := Still_ImgType (consts := sample_consts))
      healthy_remote still_8_low_res
      (fst (fst (Downloader.update_if_needed
                   (img_type := Still_ImgType (consts := sample_consts))
                   healthy_remote still_8_low_res known_catalogue)))
    = (s2, still_8_low_res, Ok tt) /\
    Downloader.updateables s2
    = Downloader.updateables
        (fst (fst (Downloader.update_if_needed
                     (img_type := Still_ImgType (consts := sample_consts))
                     healthy_remote still_8_low_res known_catalogue))).
Proof.
  apply (proj1 (proj2 (@reconciling_twice_flags_nothing_new sample_consts
                         healthy_remote))
           still_8_low_res still_8_low_res known_catalogue _
           "//i.idol.st/u/still/8.png");
    reflexivity.
Defined.

(* ===================================================================== *)
(** ** Further properties: what the download phase touches *)
(* ===================================================================== *)

Section DownloadEffects.
Context {T : Type} {img_type : ImgType T}.
Variable path : Pathlib.Path.
Variable http_read : string -> result string.
Variable open_wb : Pathlib.Path -> result Datatypes.unit.

Lemma only_files_added_refl (s : Downloader.state T) : only_files_added s s.
Proof. repeat split. now exists []. Qed.

Lemma only_files_added_request (s0 s : Downloader.state T) (url : string) :
  only_files_added s0 s -> only_files_added s0 (Downloader.request url s).
Proof. intros (A & B & C & D & E & l & F & G). repeat split; eauto. Qed.

Lemma only_files_added_print (s0 s : Downloader.state T) (line : string) :
  only_files_added s0 s -> only_files_added s0 (Downloader.print line s).
Proof. intros (A & B & C & D & E & l & F & G). repeat split; eauto. Qed.

Lemma only_files_added_write (s0 s : Downloader.state T)
    (p : Pathlib.Path) (data : string) :
  only_files_added s0 s ->
  only_files_added s0 (Downloader.write_file p data s).
Proof.
  intros (A & B & C & D & E & l & F & G). repeat split; trivial.
  exists ((p, data) :: l). simpl. now rewrite F, G.
Qed.

Lemma write_to_file_only_adds (s0 : Downloader.state T)
    (dest : Pathlib.Path) (u : Url) (s : Downloader.state T) :
  only_files_added s0 s ->
  only_files_added s0
    (fst (Downloader.write_to_file http_read open_wb dest u s)).
Proof.
  intros H. rewrite write_to_file_unfold.
  destruct (http_read _); [destruct (open_wb dest)|]; simpl;
    auto using only_files_added_request, only_files_added_write.
Qed.

Lemma create_image_file_only_adds (s0 : Downloader.state T)
    (p : Pathlib.Path) (item : T) (i : nat) (s : Downloader.state T) :
  only_files_added s0 s ->
  only_files_added s0
    (fst (Downloader.create_image_file http_read open_wb p item i s)).
Proof.
  intros H. rewrite create_image_file_unfold.
  destruct (negb _ || _); [|exact H].
  destruct (nth_error _ _) as [u|]; [|exact H].
  pose proof (write_to_file_only_adds s0 p u s H) as W.
  destruct (Downloader.write_to_file _ _ _ _ _) as [s1 [[]|e]]; simpl in *;
    auto using only_files_added_print.
Qed.

Lemma download_images_from_only_adds (s0 : Downloader.state T)
    (paths : list Pathlib.Path) (item : T) :
  forall i s,
    only_files_added s0 s ->
    only_files_added s0
      (fst (Downloader.download_images_from http_read open_wb i paths item s)).
Proof.
  induction paths as [|p paths IH]; intros i s H; simpl; [exact H|].
  apply bindM_invariant; trivial.
  - intros s1 H1. now apply create_image_file_only_adds.
  - intros _ s1 H1. now apply IH.
Qed.

Lemma get_images_only_adds (s0 : Downloader.state T) (item : T)
    (s : Downloader.state T) :
  only_files_added s0 s ->
  only_files_added s0
    (fst (Downloader.get_images path http_read open_wb item s)).
Proof.
  intros H. unfold Downloader.get_images.
  apply bindM_invariant; trivial.
  intros paths s1 H1. unfold Downloader.try_except, Downloader.download_images.
  pose proof (download_images_from_only_adds s0 paths item 0 s1 H1) as D.
  destruct (Downloader.download_images_from _ _ _ _ _ _) as [s2 [[]|e]];
    simpl in *; auto using only_files_added_print.
Qed.

(** X13: a pass of [download], whatever fails in it, leaves the
    catalogue, the pending list, the parsers and the store as they
    were, and removes no file: the files afterwards are those written
    in the pass, latest first, followed by those that were there.  In
    particular [download] does not empty the pending list. *)
Theorem download_only_adds_files (s : Downloader.state T) :
  only_files_added s
    (fst (Downloader.download path http_read open_wb s)).
Proof.
  unfold Downloader.download.
  apply (bindM_invariant (only_files_added s));
    [|trivial|apply only_files_added_refl].
  intros s1 H1. apply gather_invariant; [|exact H1].
  intros task Hin. apply in_map_iff in Hin as (e & <- & _).
  intros s2 H2. now apply get_images_only_adds.
Qed.

(** X14: when the request for the first file of an item fails, or the
    file cannot be opened, [get_images] stops there: one request was
    sent, no file written, one line printed, and the other files of the
    item are not looked at in this pass. *)
Theorem failed_file_ends_the_item
    (item : T) (p : Pathlib.Path) (rest : list Pathlib.Path)
    (s : Downloader.state T) (u : Url) (e : exn) :
  get_paths item path = Ok (p :: rest) ->
  negb (Downloader.exists_ p s)
  || Downloader.in_updateables (key item) s = true ->
  nth_error (get_urls item) 0 = Some u ->
  (http_read (Downloader.address u) = Raise e \/
   exists data, http_read (Downloader.address u) = Ok data /\
                open_wb p = Raise e) ->
  Downloader.get_images path http_read open_wb item s
  = (Downloader.print (Downloader.failure_message item e)
       (Downloader.request (Downloader.address u) s), Ok tt).
Proof.
  intros Hp Hc Hu Hfail.
  rewrite (get_images_unfold path http_read open_wb item (p :: rest) s Hp).
  cbn [Downloader.download_images_from]. unfold Downloader.bindM.
  rewrite create_image_file_unfold, Hc, Hu, write_to_file_unfold.
  destruct Hfail as [Hr|(data & Hr & Ho)].
  - now rewrite Hr.
  - now rewrite Hr, Ho.
Qed.

End DownloadEffects.

Lemma failed_file_ends_the_item_witness :
  Downloader.get_images (img_type := Card_ImgType (consts := sample_consts))
    sample_root no_assets sample_open sample_card_2x card_catalogue
  = (Downloader.print
       "Couldn't download card 12: Connection refused."
       (Downloader.request
          "https://i.idol.st/u/card/art/2x/12Honoka.png" card_catalogue),
     Ok tt).
Proof.
  apply (@failed_file_ends_the_item Card.t
           (Card_ImgType (consts := sample_consts))
           sample_root no_assets sample_open sample_card_2x
           (Pathlib.mkPath "/" ["srv"; "sifas"; "cards";
                                "12_Muse_Honoka_Normal.png"])
           [Pathlib.mkPath "/" ["srv"; "sifas"; "cards";
                                "12_Muse_Honoka_Idolized.png"]]
           card_catalogue "//i.idol.st/u/card/art/2x/12Honoka.png"
           (ClientError "Connection refused"));
    try reflexivity.
  left. reflexivity.
Defined.


(* ===================================================================== *)
(** ** Further properties: destinations do not collide *)
(* ===================================================================== *)

Lemma split_acc_no_sep (sep : ascii) (s : string) :
  forall cur,
    forall_chars (fun c => negb (Ascii.eqb c sep)) s = true ->
    PyStr.split_acc sep cur s = [cur ++ s].
Proof.
  induction s as [|c s IH]; intros cur H; simpl in *.
  - now rewrite string_app_nil_r.
  - apply andb_true_iff in H as [Hc Hs]. apply negb_true_iff in Hc.
    rewrite Hc, (IH _ Hs), string_app_assoc. reflexivity.
Qed.

Lemma split_acc_parts_no_sep (sep : ascii) (s : string) :
  forall cur,
    forall_chars (fun c => negb (Ascii.eqb c sep)) cur = true ->
    Forall (fun x => forall_chars (fun c => negb (Ascii.eqb c sep)) x = true)
           (PyStr.split_acc sep cur s).
Proof.
  induction s as [|c s IH]; intros cur H; simpl.
  - now constructor.
  - destruct (Ascii.eqb c sep) eqn:E.
    + constructor; [exact H|]. now apply IH.
    + apply IH. rewrite forall_chars_app, H. simpl. now rewrite E.
Qed.

Lemma forall_chars_drop (P : ascii -> bool) (i : nat) :
  forall s, forall_chars P s = true -> forall_chars P (PyStr.drop i s) = true.
Proof.
  induction i as [|i IH]; intros [|c s] H; simpl; trivial.
  apply IH. simpl in H. now apply andb_true_iff in H as [_ H].
Qed.

Lemma last_Forall {A} (P : A -> Prop) (l : list A) (d : A) :
  Forall P l -> P d -> P (last l d).
Proof.
  induction 1 as [|x l Hx Hl IH]; intros Hd; simpl; [exact Hd|].
  destruct l; [exact Hx|now apply IH].
Qed.

(** The extension that [Path(url).suffix] gives has no slash in it. *)
Lemma suffix_no_slash (u : string) :
  forall_chars not_slash (Pathlib.suffix (Pathlib.parse u)) = true.
Proof.
  unfold Pathlib.suffix.
  assert (Hn : forall_chars not_slash (Pathlib.name (Pathlib.parse u)) = true).
  { unfold Pathlib.name, Pathlib.parse. simpl Pathlib.parts.
    apply (last_Forall (fun x => forall_chars not_slash x = true));
      [|reflexivity].
    apply Forall_forall. intros x Hx. apply filter_In in Hx as [Hx _].
    pose proof (split_acc_parts_no_sep "/"
                  (PyStr.drop (PyStr.leading_slashes u) u) "" eq_refl) as F.
    rewrite Forall_forall in F. now apply F. }
  destruct (PyStr.rfind_dot _) as [i|]; [|reflexivity].
  destruct (_ && _); [|reflexivity].
  now apply forall_chars_drop.
Qed.

(** A relative name of one component is joined as that component. *)
Lemma joinpath_single (base : Pathlib.Path) (c : ascii) (f : string) :
  forall_chars not_slash (String c f) = true ->
  String c f <> "." ->
  Pathlib.joinpath base (String c f)
  = Pathlib.mkPath (Pathlib.root base)
      (Pathlib.parts base ++ [String c f])%list.
Proof.
  intros H Hdot. unfold Pathlib.joinpath, Pathlib.parse.
  assert (Hl : PyStr.leading_slashes (String c f) = 0%nat).
  { simpl in *. apply andb_true_iff in H as [Hc _].
    unfold not_slash in Hc. apply negb_true_iff in Hc. now rewrite Hc. }
  rewrite Hl. cbn [PyStr.drop Pathlib.root Pathlib.parts].
  unfold PyStr.split. rewrite (split_acc_no_sep "/" (String c f) "" H).
  cbn [append filter Pathlib.keep_part].
  assert (Hk : Pathlib.keep_part (String c f) = true).
  { unfold Pathlib.keep_part. simpl (String.eqb (String c f) "").
    destruct (String.eqb_spec (String c f) "."); [contradiction|reflexivity]. }
  rewrite Hk. reflexivity.
Qed.

Lemma key_char_not_slash (c : ascii) : key_char c = true -> not_slash c = true.
Proof.
  unfold key_char, not_slash, PyStr.is_digit.
  destruct (Ascii.eqb_spec c "/") as [->|]; [discriminate|reflexivity].
Qed.

Lemma key_char_not_underscore (c : ascii) :
  key_char c = true -> not_underscore c = true.
Proof.
  unfold key_char, not_underscore, PyStr.is_digit.
  destruct (Ascii.eqb_spec c "_") as [->|]; [discriminate|reflexivity].
Qed.

Lemma key_char_not_dot (c : ascii) : key_char c = true -> c <> "."%char.
Proof. intros H ->. discriminate. Qed.

Lemma str_of_int_cons (k : Z) :
  exists c r, PyStr.str_of_int k = String c r /\ key_char c = true.
Proof.
  pose proof (str_of_int_chars k) as H.
  destruct (PyStr.str_of_int k) as [|c r] eqn:E.
  - exfalso. unfold PyStr.str_of_int in E.
    destruct (Z.to_int k) as [d|d]; simpl in E; [|discriminate].
    destruct d; discriminate.
  - simpl in H. apply andb_true_iff in H as [Hc _]. now exists c, r.
Qed.

Lemma first_underscore (a a' r r' : string) :
  forall_chars not_underscore a = true ->
  forall_chars not_underscore a' = true ->
  a ++ String "_" r = a' ++ String "_" r' -> a = a'.
Proof.
  revert a'. induction a as [|c a IH]; intros [|c' a'] Ha Ha' E;
    simpl in *; trivial.
  - injection E as <- _. discriminate.
  - injection E as -> _. discriminate.
  - injection E as <- E.
    apply andb_true_iff in Ha as [_ Ha].
    apply andb_true_iff in Ha' as [_ Ha'].
    f_equal. now apply IH.
Qed.

Lemma starts_with_key_inj (k k' : Z) (f : string) :
  starts_with_key k f -> starts_with_key k' f -> k = k'.
Proof.
  intros (r & ->) (r' & E).
  apply str_of_int_inj.
  apply (first_underscore _ _ r r'); trivial;
    apply (forall_chars_weaken key_char);
    auto using key_char_not_underscore, str_of_int_chars.
Qed.

(** A name that starts with a key and has no slash is one component. *)
Lemma joinpath_keyed (base : Pathlib.Path) (k : Z) (f : string) :
  starts_with_key k f ->
  forall_chars not_slash f = true ->
  Pathlib.joinpath base f
  = Pathlib.mkPath (Pathlib.root base) (Pathlib.parts base ++ [f])%list.
Proof.
  intros (r & ->) H.
  destruct (str_of_int_cons k) as (c & t & E & Hc).
  rewrite E in *. simpl append in *.
  apply joinpath_single; [exact H|].
  intros D. injection D as D _. now apply (key_char_not_dot c).
Qed.

Lemma joinpath_keyed_inj (base : Pathlib.Path) (k k' : Z) (f f' : string) :
  starts_with_key k f -> forall_chars not_slash f = true ->
  starts_with_key k' f' -> forall_chars not_slash f' = true ->
  Pathlib.joinpath base f = Pathlib.joinpath base f' -> f = f'.
Proof.
  intros Hk Hf Hk' Hf' E.
  rewrite (joinpath_keyed base k f Hk Hf),
    (joinpath_keyed base k' f' Hk' Hf') in E.
  injection E as E. apply app_inv_head in E. now injection E.
Qed.

Lemma replace_from_forall_chars (P : ascii -> bool) (old new : string) :
  forall_chars P new = true ->
  forall s skip,
    forall_chars P s = true ->
    forall_chars P (PyStr.replace_from old new skip s) = true.
Proof.
  intros Hn. induction s as [|c s IH]; intros skip H; [reflexivity|].
  simpl in H. apply andb_true_iff in H as [Hc Hs].
  cbn [PyStr.replace_from]. destruct skip as [|k]; [|now apply IH].
  destruct (prefix old (String c s)).
  - rewrite forall_chars_app, Hn. now apply IH.
  - simpl. rewrite Hc. now apply IH.
Qed.

(** Where ["Normal"] occurs, replacing it changes the string. *)
Lemma replace_Normal_fixed (s : string) :
  PyStr.replace "Normal" "Idolized" s = s ->
  PyStr.search_literal "Normal" s = false.
Proof.
  unfold PyStr.replace. induction s as [|c s IH]; intros H; [reflexivity|].
  rewrite search_literal_unfold. cbn [PyStr.replace_from] in H.
  destruct (prefix "Normal" (String c s)) eqn:Ep.
  - exfalso. apply prefix_split in Ep as [t Et]. rewrite Et in H.
    discriminate.
  - injection H as H. now rewrite (IH H).
Qed.

Section Collisions.
Context {consts : Consts}.

Lemma str_of_int_no_slash (k : Z) :
  forall_chars not_slash (PyStr.str_of_int k) = true.
Proof.
  apply (forall_chars_weaken key_char);
    [apply key_char_not_slash|apply str_of_int_chars].
Qed.

Lemma still_name_keyed (st : Still.t) (u : string) :
  let f := Still.file_name st ++ Pathlib.suffix (Pathlib.parse u) in
  starts_with_key (Still.key st) f /\ forall_chars not_slash f = true.
Proof.
  unfold Still.file_name. split.
  - exists ("Still" ++ Pathlib.suffix (Pathlib.parse u)).
    now rewrite !string_app_assoc.
  - rewrite !forall_chars_app, str_of_int_no_slash, suffix_no_slash.
    reflexivity.
Qed.

Lemma card_names_keyed (c : Card.t) :
  forall_chars not_slash (Card.unit c) = true ->
  forall_chars not_slash (Card.idol c) = true ->
  (starts_with_key (Card.key c) (Card.normal_path c) /\
   forall_chars not_slash (Card.normal_path c) = true) /\
  (starts_with_key (Card.key c) (Card.idolized_path c) /\
   forall_chars not_slash (Card.idolized_path c) = true).
Proof.
  intros Hu Hi.
  set (tail := Card.unit c ++ "_" ++ Card.idol c ++ "_Normal"
                 ++ Pathlib.suffix (Pathlib.parse (Card.normal_url c))).
  assert (En : Card.normal_path c
               = (PyStr.str_of_int (Card.key c) ++ "_") ++ tail).
  { unfold Card.normal_path, Card.file_name, tail.
    now rewrite !string_app_assoc. }
  assert (Hn : forall_chars not_slash (Card.normal_path c) = true).
  { rewrite En. unfold tail.
    rewrite !forall_chars_app, str_of_int_no_slash, Hu, Hi, suffix_no_slash.
    reflexivity. }
  split; split; trivial.
  - exists tail. rewrite En. now rewrite string_app_assoc.
  - unfold Card.idolized_path. rewrite En.
    rewrite (replace_Normal_head "Idolized").
    + exists (PyStr.replace "Normal" "Idolized" tail).
      now rewrite string_app_assoc.
    + rewrite forall_chars_app, andb_true_iff. split; [|reflexivity].
      apply (forall_chars_weaken key_char);
        [apply key_char_not_N|apply str_of_int_chars].
  - unfold Card.idolized_path, PyStr.replace.
    now apply replace_from_forall_chars.
Qed.

Lemma normal_path_has_Normal (c : Card.t) :
  PyStr.search_literal "Normal" (Card.normal_path c) = true.
Proof.
  apply search_literal_occurs. unfold Card.normal_path.
  exists (Card.file_name c ++ "_"),
    (Pathlib.suffix (Pathlib.parse (Card.normal_url c))).
  now rewrite !string_app_assoc.
Qed.

(** X15: the files of the catalogue do not collide.  A still with a
    string URL has one destination, a single component below the stills
    directory, and stills with different keys have different
    destinations.  For cards whose unit and idol contain no slash, the
    normal and the idolized destination of a card differ, and cards with
    different keys share no destination. *)
Theorem destinations_do_not_collide :
  (forall (st : Still.t) (root : Pathlib.Path) (u : string),
      Still.url st = PStr u ->
      Still.get_paths st root
      = Ok [Pathlib.mkPath
              (Pathlib.root (Pathlib.joinpath root STILL_RESULTS_DIR))
              (Pathlib.parts (Pathlib.joinpath root STILL_RESULTS_DIR)
               ++ [(PyStr.str_of_int (Still.key st) ++ "_Still"
                      ++ Pathlib.suffix (Pathlib.parse u))%string])%list]) /\
  (forall (st1 st2 : Still.t) (root : Pathlib.Path) p1 p2,
      Still.get_paths st1 root = Ok p1 ->
      Still.get_paths st2 root = Ok p2 ->
      Still.key st1 <> Still.key st2 ->
      forall p, In p p1 -> ~ In p p2) /\
  (forall (c : Card.t) (root : Pathlib.Path),
      forall_chars not_slash (Card.unit c) = true ->
      forall_chars not_slash (Card.idol c) = true ->
      NoDup (Card.get_paths c root)) /\
  (forall (c1 c2 : Card.t) (root : Pathlib.Path),
      forall_chars not_slash (Card.unit c1) = true ->
      forall_chars not_slash (Card.idol c1) = true ->
      forall_chars not_slash (Card.unit c2) = true ->
      forall_chars not_slash (Card.idol c2) = true ->
      Card.key c1 <> Card.key c2 ->
      forall p, In p (Card.get_paths c1 root) ->
                ~ In p (Card.get_paths c2 root)).
Proof.
  split; [|split; [|split]].
  - intros st root u Hu. unfold Still.get_paths. rewrite Hu.
    destruct (still_name_keyed st u) as [Hk Hs].
    rewrite (joinpath_keyed _ _ _ Hk Hs).
    unfold Still.file_name. now rewrite !string_app_assoc.
  - intros st1 st2 root p1 p2 H1 H2 Hne p Hp1 Hp2.
    unfold Still.get_paths in H1, H2.
    destruct (Still.url st1) as [u1|]; [|discriminate].
    destruct (Still.url st2) as [u2|]; [|discriminate].
    injection H1 as <-. injection H2 as <-.
    destruct Hp1 as [<-|[]]. destruct Hp2 as [E|[]].
    destruct (still_name_keyed st1 u1) as [Hk1 Hs1].
    destruct (still_name_keyed st2 u2) as [Hk2 Hs2].
    apply (joinpath_keyed_inj _ _ _ _ _ Hk2 Hs2 Hk1 Hs1) in E.
    rewrite E in Hk2. apply Hne.
    now apply (starts_with_key_inj _ _ _ Hk1 Hk2).
  - intros c root Hu Hi.
    destruct (card_names_keyed c Hu Hi) as [[Hkn Hsn] [Hki Hsi]].
    unfold Card.get_paths. constructor; [|repeat constructor; intros []].
    intros [E|[]].
    apply (joinpath_keyed_inj _ _ _ _ _ Hki Hsi Hkn Hsn) in E.
    apply replace_Normal_fixed in E.
    now rewrite normal_path_has_Normal in E.
  - intros c1 c2 root Hu1 Hi1 Hu2 Hi2 Hne p Hp1 Hp2.
    destruct (card_names_keyed c1 Hu1 Hi1) as [[Hkn1 Hsn1] [Hki1 Hsi1]].
    destruct (card_names_keyed c2 Hu2 Hi2) as [[Hkn2 Hsn2] [Hki2 Hsi2]].
    apply Hne. unfold Card.get_paths in Hp1, Hp2.
    destruct Hp1 as [<-|[<-|[]]]; destruct Hp2 as [E|[E|[]]];
      match type of E with
      | Pathlib.joinpath _ ?f2 = Pathlib.joinpath _ ?f1 =>
          assert (K1 : starts_with_key (Card.key c1) f1) by assumption;
          assert (K2 : starts_with_key (Card.key c2) f2) by assumption;
          assert (S1 : forall_chars not_slash f1 = true) by assumption;
          assert (S2 : forall_chars not_slash f2 = true) by assumption;
          apply (joinpath_keyed_inj _ _ _ _ _ K2 S2 K1 S1) in E;
          rewrite E in K2;
          exact (starts_with_key_inj _ _ _ K1 K2)
      end.
Qed.

End Collisions.

Lemma destinations_do_not_collide_witness :
  NoDup (Card.get_paths (consts := sample_consts) sample_card_2x
           sample_root).
Proof.
  apply (proj1 (proj2 (proj2 (@destinations_do_not_collide sample_consts)))
           sample_card_2x sample_root); reflexivity.
Defined.


(* ===================================================================== *)
(** ** Further properties: catalogue keys and item keys *)
(* ===================================================================== *)

Section KeyConsistency.
Context {T : Type} {img_type : ImgType T}.
Variable http_get : string -> result Bs4.soup.
Variable store_save : list (Z * T) -> result Datatypes.unit.
Hypothesis builds_keyed : parser_builds_keyed_items (T := T).
Hypothesis keeps_key : set_url_keeps_key (T := T).

Lemma dict_set_consistent (k : Z) (v : T) (d : list (Z * T)) :
  key v = k ->
  Forall (fun e => key (snd e) = fst e) d ->
  Forall (fun e => key (snd e) = fst e) (Downloader.dict_set k v d).
Proof.
  intros Hv. induction 1 as [|[k' v'] d He Hd IH]; simpl.
  - now repeat constructor.
  - destruct (Z.eqb k' k); constructor; trivial.
Qed.

Lemma add_item_consistent (k : Z) (s : Downloader.state T) :
  consistent s ->
  consistent (fst (Downloader.add_item_to_object_list http_get k s)).
Proof.
  intros H. unfold Downloader.add_item_to_object_list, Downloader.bindM.
  unfold Downloader.item_parser_get_item.
  destruct (Parser.get_item _ _ _ _ _) as [p' r'] eqn:E.
  destruct r' as [[n item]|e]; [|exact H].
  unfold consistent. simpl.
  unfold Parser.get_item in E.
  destruct (Parser.soup_page _ _ _ _) as [page|e]; [|discriminate].
  injection E as _ E. apply builds_keyed in E as [-> Hk].
  now apply dict_set_consistent.
Qed.

Lemma get_cards_consistent (s : Downloader.state T) :
  consistent s ->
  consistent (fst (Downloader.get_cards_from_parser http_get s)).
Proof.
  unfold Downloader.get_cards_from_parser.
  apply bindM_invariant; [trivial|].
  intros _. apply bindM_invariant; [trivial|].
  intros n. apply bindM_invariant.
  { intros s1 H1. unfold Downloader.gather_pages.
    apply gather_invariant; [|exact H1].
    intros task Hin. apply in_map_iff in Hin as (i & <- & _). trivial. }
  intros pages. apply bindM_invariant; [trivial|].
  intros _. apply for_each_invariant.
  intros page _ s1 H1. unfold Downloader.fetch_new_items.
  apply (bindM_invariant consistent); [|trivial|exact H1].
  intros s2 H2. apply gather_invariant; [|exact H2].
  intros task Hin. apply in_map_iff in Hin as (k & <- & _).
  intros s3 H3. now apply add_item_consistent.
Qed.

Lemma set_urls_from_key (updated : T) (n : nat) :
  forall i item,
    key (fst (Downloader.set_urls_from updated n i item)) = key item.
Proof.
  induction n as [|n IH]; intros i item; simpl; [reflexivity|].
  destruct (nth_error (get_urls updated) i); [|reflexivity].
  now rewrite IH, keeps_key.
Qed.

Lemma update_if_needed_key (item : T) (s : Downloader.state T) :
  key (snd (fst (Downloader.update_if_needed http_get item s))) = key item.
Proof.
  unfold Downloader.update_if_needed.
  destruct (needs_update item) as [[|]|e]; try reflexivity.
  destruct (Downloader.item_parser_get_item http_get (key item) s)
    as [s1 [[n updated]|e]]; [|reflexivity].
  destruct (Downloader.index (get_urls item) 0); [|reflexivity].
  destruct (Downloader.index (get_urls updated) 0); [|reflexivity].
  pose proof (set_urls_from_key updated (List.length (get_urls item)) 0 item)
    as H.
  destruct (Downloader.set_urls_from _ _ _ _) as [item' r]. exact H.
Qed.

Lemma update_items_consistent (items : list (Z * T)) :
  forall s,
    Forall (fun e => key (snd e) = fst e) items ->
    Forall (fun e => key (snd e) = fst e)
           (snd (fst (Downloader.update_items http_get items s))).
Proof.
  induction items as [|[k item] items IH]; intros s H; simpl; [constructor|].
  inversion H as [|e l He Hl]; subst. simpl in He.
  pose proof (update_if_needed_key item s) as Hk.
  destruct (Downloader.update_if_needed http_get item s)
    as [[s1 item'] [[]|e]]; simpl in *.
  - specialize (IH s1 Hl).
    destruct (Downloader.update_items http_get items s1) as [[s2 rest] r2].
    simpl in *. constructor; [simpl; congruence|exact IH].
  - constructor; [simpl; congruence|exact Hl].
Qed.

(** X16: [update] keeps the catalogue consistent: if every entry stood
    under the key of its item before, so does every entry afterwards,
    whether the run returned or raised in any of its phases. *)
Theorem update_keeps_keys_consistent (s : Downloader.state T) :
  consistent s ->
  consistent (fst (Downloader.update http_get store_save s)).
Proof.
  unfold Downloader.update.
  apply bindM_invariant; [trivial|].
  intros _. apply bindM_invariant; [apply get_cards_consistent|].
  intros _. apply bindM_invariant; [trivial|].
  intros _. apply bindM_invariant.
  { intros s1 H1. unfold Downloader.update_all.
    pose proof (update_items_consistent (Downloader.objs s1) s1 H1) as H.
    destruct (Downloader.update_items _ _ _) as [[s2 objs'] r]. exact H. }
  intros _. apply bindM_invariant; [|trivial].
  intros s1 H1. unfold Downloader.update_json_file, Downloader.bindM.
  cbn [Downloader.modify fst]. unfold consistent in *. simpl.
  eapply Permutation_Forall; [|exact H1].
  apply sorted_items_reverse_perm.
Qed.

End KeyConsistency.

Lemma still_class_laws {consts : Consts} :
  parser_builds_keyed_items (img_type := Still_ImgType) /\
  set_url_keeps_key (img_type := Still_ImgType).
Proof.
  split.
  - intros soup num n st H. simpl in H. unfold StillParser.create_item in H.
    destruct (StillParser.get_item_image_url soup); [|discriminate].
    injection H as <- <-. split; reflexivity.
  - intros st i u. reflexivity.
Qed.

Lemma card_class_laws {consts : Consts} :
  parser_builds_keyed_items (img_type := Card_ImgType) /\
  set_url_keeps_key (img_type := Card_ImgType).
Proof.
  split.
  - intros soup num n c H. simpl in H. unfold CardParser.create_item in H.
    destruct (CardParser.get_item_image_urls soup); [|discriminate].
    simpl in H.
    repeat
      match type of H with
      | context [CardParser.get_item_info soup ?f] =>
          destruct (CardParser.get_item_info soup f); simpl in H;
          [|discriminate]
      end.
    injection H as <- <-. split; reflexivity.
  - intros c [|i] u; reflexivity.
Qed.

Lemma update_keeps_keys_consistent_witness :
  consistent (img_type := Still_ImgType (consts := sample_consts))
    (fst (healthy_update known_catalogue)).
Proof.
  apply (@update_keeps_keys_consistent Still.t
           (Still_ImgType (consts := sample_consts)) healthy_remote
           sample_store (proj1 still_class_laws) (proj2 still_class_laws)
           known_catalogue).
  repeat constructor.
Defined.

(* ===================================================================== *)
(** ** Further properties: discovery finds what the listing advertises *)
(* ===================================================================== *)

Section DiscoveryComplete.
Context {T : Type} {img_type : ImgType T}.
Variable http_get : string -> result Bs4.soup.
Hypothesis keeps_key : parser_keeps_key (T := T).

Lemma dict_set_has_key (k : Z) (v : T) (d : list (Z * T)) :
  existsb (fun e => Z.eqb (fst e) k) (Downloader.dict_set k v d) = true.
Proof.
  induction d as [|[k' v'] d IH]; simpl.
  - now rewrite Z.eqb_refl.
  - destruct (Z.eqb_spec k' k) as [->|Hne]; simpl.
    + now rewrite Z.eqb_refl.
    + rewrite IH. apply orb_true_r.
Qed.

Lemma dict_set_keeps_keys (k k' : Z) (v : T) (d : list (Z * T)) :
  existsb (fun e => Z.eqb (fst e) k') d = true ->
  existsb (fun e => Z.eqb (fst e) k') (Downloader.dict_set k v d) = true.
Proof.
  induction d as [|[k0 v0] d IH]; simpl; [discriminate|].
  destruct (Z.eqb_spec k0 k) as [->|Hne]; simpl; [tauto|].
  intros H. apply orb_true_iff in H as [H|H]; rewrite ?H; trivial.
  rewrite (IH H). apply orb_true_r.
Qed.

Lemma add_item_catalogues (k : Z) (s s' : Downloader.state T) :
  Downloader.add_item_to_object_list http_get k s = (s', Ok tt) ->
  Downloader.in_objs k s' = true /\
  forall k', Downloader.in_objs k' s = true ->
             Downloader.in_objs k' s' = true.
Proof.
  unfold Downloader.add_item_to_object_list, Downloader.bindM.
  destruct (item_parser_get_item_effect http_get keeps_key k s)
    as (Eo & _ & _ & _ & _ & _ & Ekey).
  destruct (Downloader.item_parser_get_item http_get k s) as [s1 [r|e]];
    [|discriminate].
  cbn [fst snd] in Eo, Ekey. specialize (Ekey r eq_refl).
  cbn [Downloader.modify]. intros H. injection H as <-.
  unfold Downloader.in_objs. simpl. rewrite Ekey, Eo.
  split; [apply dict_set_has_key|]. intros k'. apply dict_set_keeps_keys.
Qed.

Lemma gather_add_catalogues (l : list Z) :
  forall s s' r,
    Downloader.gather
      (map (Downloader.add_item_to_object_list http_get) l) s
    = (s', Ok r) ->
    (forall k, In k l -> Downloader.in_objs k s' = true) /\
    forall k', Downloader.in_objs k' s = true ->
               Downloader.in_objs k' s' = true.
Proof.
  induction l as [|k l IH]; intros s s' r H; cbn [map] in H.
  - cbn in H. injection H as <- _. split; [intros k []|trivial].
  - apply gather_Ok_cons in H as (s1 & [] & l' & E1 & E2 & _).
    apply add_item_catalogues in E1 as [Hk Hm].
    apply IH in E2 as [Hl Hm2].
    split; [|auto].
    intros k' [<-|Hin]; auto.
Qed.

Lemma fetch_new_items_catalogues (page : list Z) (s s' : Downloader.state T) :
  Downloader.fetch_new_items http_get page s = (s', Ok tt) ->
  (forall k, In k page -> Downloader.in_objs k s' = true) /\
  forall k', Downloader.in_objs k' s = true ->
             Downloader.in_objs k' s' = true.
Proof.
  unfold Downloader.fetch_new_items, Downloader.bindM. intros H.
  destruct (Downloader.gather _ s) as [s1 [r|e]] eqn:E; [|discriminate].
  cbn [Downloader.ret] in H. injection H as <-.
  apply gather_add_catalogues in E as [Hl Hm]. split; [|exact Hm].
  intros k Hk. destruct (Downloader.in_objs k s) eqn:E; [now apply Hm|].
  apply Hl, filter_In. split; [exact Hk|]. now rewrite E.
Qed.

Lemma for_each_pages_catalogues (pages : list (list Z)) :
  forall s s',
    Downloader.for_each pages (Downloader.fetch_new_items http_get) s
    = (s', Ok tt) ->
    forall page k, In page pages -> In k page ->
                   Downloader.in_objs k s' = true.
Proof.
  induction pages as [|page pages IH]; intros s s' H p k Hp Hk;
    [destruct Hp|].
  simpl in H. unfold Downloader.bindM in H.
  destruct (Downloader.fetch_new_items http_get page s)
    as [s1 [[]|e]] eqn:E1; [|discriminate].
  apply fetch_new_items_catalogues in E1 as [Hl Hm].
  destruct Hp as [<-|Hp]; [|now apply (IH s1 s' H p)].
  assert (Hmono : forall pages' sa sb,
             Downloader.for_each pages'
               (Downloader.fetch_new_items http_get) sa = (sb, Ok tt) ->
             Downloader.in_objs k sa = true ->
             Downloader.in_objs k sb = true).
  { induction pages' as [|q qs IHq]; intros sa sb Hr Hin; simpl in Hr.
    - now injection Hr as <-.
    - unfold Downloader.bindM in Hr.
      destruct (Downloader.fetch_new_items http_get q sa)
        as [sc [[]|e]] eqn:Ec; [|discriminate].
      apply fetch_new_items_catalogues in Ec as [_ Hmq].
      apply (IHq sc sb Hr). now apply Hmq. }
  apply (Hmono pages s1 s' H). now apply Hl.
Qed.

Lemma gather_pages_results (nums : list Z) :
  forall s s' pages,
    Downloader.gather_pages http_get nums s = (s', Ok pages) ->
    Forall2 (fun i page =>
               ListParser.get_page http_get get_list_template
                 (Downloader.list_parser s) i = Ok page) nums pages.
Proof.
  unfold Downloader.gather_pages.
  induction nums as [|i nums IH]; intros s s' pages H; cbn [map] in H.
  - cbn in H. injection H as _ <-. constructor.
  - apply gather_Ok_cons in H as (s1 & page & ps & E1 & E2 & ->).
    unfold Downloader.list_parser_get_page in E1.
    injection E1 as <- E1.
    cbn [Downloader.request Downloader.list_parser] in E1.
    constructor; [exact E1|].
    apply IH in E2. exact E2.
Qed.

Lemma range_from_1_In (n i : Z) :
  In i (Downloader.range_from_1 n) <-> (1 <= i <= n)%Z.
Proof.
  unfold Downloader.range_from_1. rewrite in_map_iff. split.
  - intros (x & <- & Hx). apply in_seq in Hx. lia.
  - intros H. exists (Z.to_nat i). split; [lia|]. apply in_seq. lia.
Qed.

(** X17: when [get_cards_from_parser] returns, it has read the number
    of pages, parsed every listing page from 1 to that number, and every
    key that any of these pages advertises is in the catalogue. *)
Theorem discovery_catalogues_every_advertised_key
    (s s' : Downloader.state T) :
  Downloader.get_cards_from_parser http_get s = (s', Ok tt) ->
  exists n,
    ListParser.get_num_pages http_get get_list_template
      (Parser.set_session (Downloader.list_parser s)) = Ok n /\
    forall i, (1 <= i <= n)%Z ->
      exists keys,
        ListParser.get_page http_get get_list_template
          (Parser.set_session (Downloader.list_parser s)) i = Ok keys /\
        forall k, In k keys -> Downloader.in_objs k s' = true.
Proof.
  unfold Downloader.get_cards_from_parser, Downloader.bindM.
  cbn [Downloader.modify]. unfold Downloader.list_parser_get_num_pages.
  cbn [Downloader.request Downloader.set_list_parser Downloader.list_parser].
  destruct (ListParser.get_num_pages http_get get_list_template
              (Parser.set_session (Downloader.list_parser s)))
    as [n|e]; [|discriminate].
  destruct (Downloader.gather_pages http_get (Downloader.range_from_1 n) _)
    as [s2 [pages|e]] eqn:Eg; [|discriminate].
  intros H. exists n. split; [reflexivity|].
  apply gather_pages_results in Eg. cbn [Downloader.list_parser] in Eg.
  intros i Hi. apply range_from_1_In in Hi.
  assert (Hex : exists page,
             In page pages /\
             ListParser.get_page http_get get_list_template
               (Parser.set_session (Downloader.list_parser s)) i = Ok page).
  { clear H. induction Eg as [|j page js ps Hj _ IH]; [destruct Hi|].
    destruct Hi as [<-|Hi].
    - exists page. split; [now left|exact Hj].
    - destruct (IH Hi) as (q & Hq & Eq). exists q. split; [now right|exact Eq]. }
  destruct Hex as (page & Hin & Ep).
  exists page. split; [exact Ep|].
  intros k Hk. now apply (for_each_pages_catalogues pages _ s' H page k).
Qed.

End DiscoveryComplete.

Lemma discovery_catalogues_every_advertised_key_witness :
  exists n,
    ListParser.get_num_pages healthy_remote
      (get_list_template (ImgType := Still_ImgType (consts := sample_consts)))
      (Parser.set_session
         (Downloader.list_parser (T := Still.t) (Downloader.init [])))
    = Ok n /\
    forall i, (1 <= i <= n)%Z ->
      exists keys,
        ListParser.get_page healthy_remote
          (get_list_template
             (ImgType := Still_ImgType (consts := sample_consts)))
          (Parser.set_session
         (Downloader.list_parser (T := Still.t) (Downloader.init [])))
          i = Ok keys /\
        forall k, In k keys ->
          Downloader.in_objs k (fst (healthy_discovery (Downloader.init [])))
          = true.
Proof.
  apply (@discovery_catalogues_every_advertised_key Still.t
           (Still_ImgType (consts := sample_consts)) healthy_remote
           still_parser_keeps_key (Downloader.init [])
           (fst (healthy_discovery (Downloader.init [])))).
  vm_compute. reflexivity.
Defined.


(* ===================================================================== *)
(** ** Further properties: what a run of [update] hands to the store *)
(* ===================================================================== *)

Section UpdateHandsOver.
Context {T : Type} {img_type : ImgType T}.
Variable http_get : string -> result Bs4.soup.
Variable store_save : list (Z * T) -> result Datatypes.unit.

(** X18: a run of [update] hands the store a catalogue at most once,
    and only after discovery and reconciliation have returned.  A run
    that raises has either handed the store nothing, the exception
    being that of discovery or of the reconciliation, or it has handed
    over the sorted catalogue it ends with and the exception is the one
    the store raised on it. *)
Theorem raising_update_hands_over_only_if_the_store_raised
    (s s' : Downloader.state T) (e : exn) :
  Downloader.update http_get store_save s = (s', Raise e) ->
  (Downloader.saved s' = Downloader.saved s /\
   ((exists s1,
        Downloader.get_cards_from_parser http_get
          (Downloader.print "Searching for new or missing items..." s)
        = (s1, Raise e)) \/
    (exists s1 s2,
        Downloader.get_cards_from_parser http_get
          (Downloader.print "Searching for new or missing items..." s)
        = (s1, Ok tt) /\
        Downloader.update_all http_get
          (Downloader.print
             "Checking if items can be updated to better resolution..." s1)
        = (s2, Raise e)))) \/
  (Downloader.saved s' = Downloader.objs s' :: Downloader.saved s /\
   Sorted key_ge (Downloader.objs s') /\
   store_save (Downloader.objs s') = Raise e).
Proof.
  intros Hrun.
  unfold Downloader.update, Downloader.bindM in Hrun.
  cbn [Downloader.modify] in Hrun.
  pose proof (keeps_saved_get_cards_from_parser http_get
                (Downloader.print "Searching for new or missing items..." s))
    as K1.
  destruct (Downloader.get_cards_from_parser http_get _)
    as [s1 [[]|e1]] eqn:E1.
  2:{ injection Hrun as <- <-. left.
      split; [exact K1|]. left. now exists s1. }
  pose proof (keeps_saved_update_all http_get
                (Downloader.print
                   "Checking if items can be updated to better resolution..."
                   s1)) as K2.
  destruct (Downloader.update_all http_get _) as [s2 [[]|e2]] eqn:E2.
  2:{ injection Hrun as <- <-. left.
      split; [simpl in *; congruence|]. right. now exists s1, s2. }
  unfold Downloader.update_json_file, Downloader.bindM in Hrun.
  cbn [Downloader.modify Downloader.dump_to_file] in Hrun.
  destruct (store_save _) as [[]|e3] eqn:Es; [discriminate|].
  injection Hrun as <- <-. right. simpl in *.
  split; [congruence|]. split; [apply sorted_items_reverse_sorted|exact Es].
Qed.

End UpdateHandsOver.

Example failed_discovery_hands_over_nothing :
  snd (sample_update known_catalogue)
  = Raise (ClientError "Server disconnected") /\
  Downloader.saved (fst (sample_update known_catalogue)) = [].
Proof. split; vm_compute; reflexivity. Qed.

Lemma raising_update_hands_over_only_if_the_store_raised_witness :
  (Downloader.saved (fst (unsaved_update known_catalogue))
   = Downloader.saved known_catalogue /\
   ((exists s1,
        healthy_discovery
          (Downloader.print "Searching for new or missing items..."
             known_catalogue)
        = (s1, Raise (OSError "No space left on device"))) \/
    (exists s1 s2,
        healthy_discovery
          (Downloader.print "Searching for new or missing items..."
             known_catalogue)
        = (s1, Ok tt) /\
        Downloader.update_all
          (img_type := Still_ImgType (consts := sample_consts))
          healthy_remote
          (Downloader.print
             "Checking if items can be updated to better resolution..." s1)
        = (s2, Raise (OSError "No space left on device"))))) \/
  (Downloader.saved (fst (unsaved_update known_catalogue))
   = Downloader.objs (fst (unsaved_update known_catalogue))
     :: Downloader.saved known_catalogue /\
   Sorted key_ge (Downloader.objs (fst (unsaved_update known_catalogue))) /\
   full_store (Downloader.objs (fst (unsaved_update known_catalogue)))
   = Raise (OSError "No space left on device")).
Proof.
  apply (@raising_update_hands_over_only_if_the_store_raised Still.t
           (Still_ImgType (consts := sample_consts)) healthy_remote
           full_store known_catalogue
           (fst (unsaved_update known_catalogue))
           (OSError "No space left on device")).
  vm_compute. reflexivity.
Defined.
